(** * ChatGalaxy: the WebSocket connection and session layer

    A shallow embedding of the two connection managers of the backend,
    [ConnectionManager] (backend/app/websocket/manager.py) and
    [WebSocketService] (backend/app/services/websocket_service.py), and the
    properties of their registries: unregistering, failed sends, the
    heartbeat sweep and the fan-out of a chat turn.

    Python code is embedded in a state-and-exception monad: a method is a
    function from the world (the object's fields and the wire) to an outcome
    (a returned value or a raised exception) and the world it leaves behind.
    The network and the collaborators (chat service, authentication,
    pydantic validation) are parameters of the operations. *)

From Stdlib Require Import ZArith.
From stdpp Require Import gmap strings list fin_maps.

#[local] Set Warnings "-clear-no-such-hyp".

Open Scope string_scope.
Open Scope Z_scope.

(** ** Python computations *)

(** A raised exception, with the text [str(e)] gives. *)
Inductive exn : Type := Exception (msg : string).

Definition str_exn (e : exn) : string := let 'Exception msg := e in msg.

(** The exception that reading the attribute [name] raises on an
    object whose class [class] defines no such attribute. *)
Definition AttributeError (class name : string) : exn :=
  Exception ("'" +:+ class +:+ "' object has no attribute '" +:+ name +:+ "'").

Inductive outcome (A : Type) : Type :=
| Returns (a : A)
| Raises (e : exn).
Arguments Returns {A} a.
Arguments Raises {A} e.

(** A socket handle of the web framework. *)
Definition WebSocket : Type := nat.

(** What a method does on the wire: every call into the transport is
    recorded with its result ([true]: the call returned, [false]: it
    raised). *)
Inductive io (M : Type) : Type :=
| io_accept (ws : WebSocket) (ok : bool)
| io_send_text (ws : WebSocket) (m : M) (ok : bool)
| io_close (ws : WebSocket) (code : Z) (ok : bool).
Arguments io_accept {M} ws ok.
Arguments io_send_text {M} ws m ok.
Arguments io_close {M} ws code ok.

(** The peer and the network decide which transport calls raise. A write
    that raises stands for any exception of the [try] block around it
    ([json.dumps] or [send_text]). *)
Record Net (M : Type) : Type := {
  accept_ok : WebSocket -> bool;
  send_ok : WebSocket -> M -> bool;
  close_ok : WebSocket -> bool
}.
Arguments accept_ok {M} n ws.
Arguments send_ok {M} n ws m.
Arguments close_ok {M} n ws.

(** The world of a method: [self] and the wire. *)
Record world (R M : Type) : Type := World {
  self : R;
  wire : list (io M)
}.
Arguments World {R M} self wire.
Arguments self {R M} w.
Arguments wire {R M} w.

Definition Py (R M A : Type) : Type := world R M -> outcome A * world R M.

Section Monad.
Context {R M : Type}.

Definition ret {A} (a : A) : Py R M A := fun w => (Returns a, w).

Definition raise {A} (e : exn) : Py R M A := fun w => (Raises e, w).

(** Statements in sequence: a raise skips the rest; what was mutated
    before it stays mutated. *)
Definition bind {A B} (m : Py R M A) (k : A -> Py R M B) : Py R M B :=
  fun w =>
    match m w with
    | (Returns a, w') => k a w'
    | (Raises e, w') => (Raises e, w')
    end.

(** [try: m  except Exception as e: h e] *)
Definition try_except {A} (m : Py R M A) (h : exn -> Py R M A) : Py R M A :=
  fun w =>
    match m w with
    | (Returns a, w') => (Returns a, w')
    | (Raises e, w') => h e w'
    end.

(** [try: m  finally: f] *)
Definition try_finally {A} (m : Py R M A) (f : Py R M unit) : Py R M A :=
  fun w =>
    match m w with
    | (r, w') =>
        match f w' with
        | (Returns _, w'') => (r, w'')
        | (Raises e, w'') => (Raises e, w'')
        end
    end.

Definition get_self : Py R M R := fun w => (Returns (self w), w).

Definition update (f : R -> R) : Py R M unit :=
  fun w => (Returns tt, World (f (self w)) (wire w)).

Definition emit (e : io M) : Py R M unit :=
  fun w => (Returns tt, World (self w) (wire w ++ [e])).

(** [for x in l: body x] *)
Fixpoint for_each {X} (l : list X) (body : X -> Py R M unit) : Py R M unit :=
  match l with
  | [] => ret tt
  | x :: l' => bind (body x) (fun _ => for_each l' body)
  end.

(** The transport calls: [await websocket.accept()],
    [await websocket.send_text(...)], [await websocket.close(code=...)]. *)
Definition ws_accept (net : Net M) (ws : WebSocket) : Py R M unit :=
  bind (emit (io_accept ws (accept_ok net ws)))
    (fun _ => if accept_ok net ws then ret tt
              else raise (Exception "accept failed")).

Definition ws_send_text (net : Net M) (ws : WebSocket) (m : M) : Py R M unit :=
  bind (emit (io_send_text ws m (send_ok net ws m)))
    (fun _ => if send_ok net ws m then ret tt
              else raise (Exception "send failed")).

Definition ws_close (net : Net M) (ws : WebSocket) (code : Z) : Py R M unit :=
  bind (emit (io_close ws code (close_ok net ws)))
    (fun _ => if close_ok net ws then ret tt
              else raise (Exception "close failed")).
End Monad.

Declare Scope py_scope.
Delimit Scope py_scope with py.
Notation "'let!' x ':=' m 'in' k" := (bind m (fun x => k))
  (at level 10, x name, m at level 100, k at level 200) : py_scope.
Notation "m ';;;' k" := (bind m (fun _ => k))
  (at level 100, k at level 200, right associativity) : py_scope.
Open Scope py_scope.

(** What a run returned and the world it left. *)
Definition result_of {R M A} (r : outcome A * world R M) : outcome A := fst r.
Definition world_of {R M A} (r : outcome A * world R M) : world R M := snd r.

(** A computation keeps a property of [self]. *)
Definition preserves {R M A} (P : R -> Prop) (m : Py R M A) : Prop :=
  forall w, P (self w) -> P (self (world_of (m w))).

(** A computation never raises. *)
Definition never_raises {R M A} (m : Py R M A) : Prop :=
  forall w, exists a, result_of (m w) = Returns a.

(** The text messages written to socket [ws] in a trace, in order,
    whether or not the write went through. *)
Fixpoint written_to {M} (ws : WebSocket) (t : list (io M)) : list M :=
  match t with
  | [] => []
  | io_send_text ws' m _ :: t' =>
      if decide (ws' = ws) then m :: written_to ws t' else written_to ws t'
  | _ :: t' => written_to ws t'
  end.

(** Python truthiness of a [str]: the empty string is false. *)
Definition truthy (s : string) : bool :=
  match s with
  | EmptyString => false
  | String _ _ => true
  end.

(** Clock readings ([datetime.now()], [datetime.utcnow()]) are integers,
    in microseconds, the resolution of [datetime]. [(a - b).total_seconds()
    > n] for an integer [n] is then a comparison of integers. *)
Definition seconds (n : Z) : Z := n * 1000000.

Definition elapsed_more_than (now last : Z) (n : Z) : bool :=
  seconds n <? now - last.

(** ** The index maps: a dict from a key to a set of connection ids *)

(** [if k not in d: d[k] = set()] then [d[k].add(c)] *)
Definition index_add (k c : string) (d : gmap string (gset string))
  : gmap string (gset string) :=
  <[k := default ∅ (d !! k) ∪ {[c]}]> d.

(** [if k in d:] [d[k].discard(c)] then [if not d[k]: del d[k]] *)
Definition index_discard (k c : string) (d : gmap string (gset string))
  : gmap string (gset string) :=
  match d !! k with
  | Some X => if decide (X ∖ {[c]} = ∅) then delete k d else <[k := X ∖ {[c]}]> d
  | None => d
  end.

(** The members of a key, [d.get(k, set())]. *)
Definition index_get (k : string) (d : gmap string (gset string)) : gset string :=
  default ∅ (d !! k).

(** No key is mapped to the empty set. *)
Definition no_empty_entry (d : gmap string (gset string)) : Prop :=
  forall k X, d !! k = Some X -> X <> ∅.

(** ** [ConnectionManager] (backend/app/websocket/manager.py) *)

Module Manager.

(** The messages the manager writes. The [timestamp] member of each is
    left out. [payload] is a message handed in by a caller of
    [broadcast_to_session]. *)
Inductive Message : Type :=
| connection_established (connection_id session_id : string)
| heartbeat_ack
| pong
| heartbeat_request
| payload (body : string).

(** An entry of [connection_metadata]. *)
Record Metadata : Type := {
  session_id : string;
  user_id : option string;
  connected_at : Z;
  last_heartbeat : Z
}.

(** The fields of a [ConnectionManager]. Of [heartbeat_tasks] the keys
    are kept: the connections that own a heartbeat task. *)
Record ConnectionManager : Type := {
  active_connections : gmap string WebSocket;
  session_subscriptions : gmap string (gset string);
  connection_metadata : gmap string Metadata;
  heartbeat_tasks : gset string
}.

(** [ConnectionManager()] *)
Definition init : ConnectionManager :=
  {| active_connections := ∅; session_subscriptions := ∅;
     connection_metadata := ∅; heartbeat_tasks := ∅ |}.

Definition set_active_connections (f : gmap string WebSocket -> gmap string WebSocket)
    (m : ConnectionManager) : ConnectionManager :=
  {| active_connections := f (active_connections m);
     session_subscriptions := session_subscriptions m;
     connection_metadata := connection_metadata m;
     heartbeat_tasks := heartbeat_tasks m |}.

Definition set_session_subscriptions
    (f : gmap string (gset string) -> gmap string (gset string))
    (m : ConnectionManager) : ConnectionManager :=
  {| active_connections := active_connections m;
     session_subscriptions := f (session_subscriptions m);
     connection_metadata := connection_metadata m;
     heartbeat_tasks := heartbeat_tasks m |}.

Definition set_connection_metadata
    (f : gmap string Metadata -> gmap string Metadata)
    (m : ConnectionManager) : ConnectionManager :=
  {| active_connections := active_connections m;
     session_subscriptions := session_subscriptions m;
     connection_metadata := f (connection_metadata m);
     heartbeat_tasks := heartbeat_tasks m |}.

Definition set_heartbeat_tasks (f : gset string -> gset string)
    (m : ConnectionManager) : ConnectionManager :=
  {| active_connections := active_connections m;
     session_subscriptions := session_subscriptions m;
     connection_metadata := connection_metadata m;
     heartbeat_tasks := f (heartbeat_tasks m) |}.

Definition touch (now : Z) (md : Metadata) : Metadata :=
  {| session_id := session_id md; user_id := user_id md;
     connected_at := connected_at md; last_heartbeat := now |}.

Definition Run (A : Type) : Type := Py ConnectionManager Message A.

(** The sleep of the heartbeat loop and its limit, in seconds. *)
Definition heartbeat_interval : Z := 30.
Definition heartbeat_timeout : Z := 60.

(** [disconnect(connection_id)]. The session id is read from the
    metadata, [None] when there is none; the guard
    [if session_id and session_id in self.session_subscriptions] tests
    the truth value of the string. *)
Definition disconnect (connection_id : string) : Run unit :=
  try_except
    (let! m := get_self in
     (if decide (connection_id ∈ heartbeat_tasks m)
      then update (set_heartbeat_tasks (fun t => t ∖ {[connection_id]}))
      else ret tt) ;;;
     let! m := get_self in
     let sid := session_id <$> connection_metadata m !! connection_id in
     (match sid with
      | Some s =>
          if truthy s
          then update (set_session_subscriptions (index_discard s connection_id))
          else ret tt
      | None => ret tt
      end) ;;;
     update (set_active_connections (delete connection_id)) ;;;
     update (set_connection_metadata (delete connection_id)))
    (fun _ => ret tt).

(** The manager that [disconnect(connection_id)] leaves. *)
Definition unregistered (connection_id : string) (m : ConnectionManager)
  : ConnectionManager :=
  {| active_connections := delete connection_id (active_connections m);
     session_subscriptions :=
       match connection_metadata m !! connection_id with
       | Some metadata =>
           if truthy (session_id metadata)
           then index_discard (session_id metadata) connection_id
                  (session_subscriptions m)
           else session_subscriptions m
       | None => session_subscriptions m
       end;
     connection_metadata := delete connection_id (connection_metadata m);
     heartbeat_tasks := heartbeat_tasks m ∖ {[connection_id]} |}.

(** [send_personal_message(connection_id, message)]: the method has no
    [return] statement, its value is [None] on every path. *)
Definition send_personal_message (net : Net Message) (connection_id : string)
    (message : Message) : Run unit :=
  let! m := get_self in
  match active_connections m !! connection_id with
  | Some websocket =>
      try_except (ws_send_text net websocket message)
                 (fun _ => disconnect connection_id)
  | None => ret tt
  end.

(** [connect(websocket, connection_id, session_id, user_id)] *)
Definition connect (net : Net Message) (now : Z) (websocket : WebSocket)
    (connection_id session : string) (user : option string) : Run bool :=
  try_except
    (ws_accept net websocket ;;;
     update (set_active_connections <[connection_id := websocket]>) ;;;
     update (set_connection_metadata
               <[connection_id := {| session_id := session; user_id := user;
                                     connected_at := now; last_heartbeat := now |}]>) ;;;
     update (set_session_subscriptions (index_add session connection_id)) ;;;
     update (set_heartbeat_tasks (fun t => t ∪ {[connection_id]})) ;;;
     send_personal_message net connection_id
       (connection_established connection_id session) ;;;
     ret true)
    (fun _ => ret false).

(** [if exclude_connection and connection_id == exclude_connection] *)
Definition excluded (exclude_connection : option string) (connection_id : string) : bool :=
  match exclude_connection with
  | Some e => truthy e && bool_decide (connection_id = e)
  | None => false
  end.

(** [broadcast_to_session(session_id, message, exclude_connection)]: the
    loop runs over a copy of the subscriber set. *)
Definition broadcast_to_session (net : Net Message) (session : string)
    (message : Message) (exclude_connection : option string) : Run unit :=
  let! m := get_self in
  match session_subscriptions m !! session with
  | Some connection_ids =>
      for_each (elements connection_ids)
        (fun connection_id =>
           if excluded exclude_connection connection_id then ret tt
           else send_personal_message net connection_id message)
  | None => ret tt
  end.

(** An inbound text frame, as [json.loads] and [data.get("type")] see it. *)
Inductive Inbound : Type :=
| invalid_json
| typed (message_type : option string).

(** [handle_message(connection_id, message)] *)
Definition handle_message (net : Net Message) (now : Z) (connection_id : string)
    (message : Inbound) : Run unit :=
  try_except
    (match message with
     | invalid_json => raise (Exception "JSONDecodeError")
     | typed message_type =>
         if bool_decide (message_type = Some "heartbeat") then
           update (set_connection_metadata (alter (touch now) connection_id)) ;;;
           send_personal_message net connection_id heartbeat_ack
         else if bool_decide (message_type = Some "ping") then
           send_personal_message net connection_id pong
         else ret tt
     end)
    (fun _ => ret tt).

(** How one round of the heartbeat loop ends. *)
Inductive round : Type := round_break | round_next.

(** One round of [_heartbeat_loop(connection_id)] after its
    [asyncio.sleep(30)], with the clock at [now]. *)
Definition heartbeat_round (net : Net Message) (now : Z) (connection_id : string)
    : Run round :=
  let! m := get_self in
  match connection_metadata m !! connection_id with
  | None => ret round_break
  | Some metadata =>
      if elapsed_more_than now (last_heartbeat metadata) heartbeat_timeout
      then disconnect connection_id ;;; ret round_break
      else send_personal_message net connection_id heartbeat_request ;;;
           ret round_next
  end.

(** [_heartbeat_loop(connection_id)] over the clock readings of its
    successive wake-ups; when they are used up the task is asleep. The
    loop condition is read when the task wakes: nothing else runs between
    two rounds of one call. *)
Fixpoint heartbeat_rounds (net : Net Message) (wakeups : list Z)
    (connection_id : string) : Run unit :=
  match wakeups with
  | [] => ret tt
  | now :: later =>
      let! m := get_self in
      if decide (connection_id ∈ dom (active_connections m)) then
        let! r := heartbeat_round net now connection_id in
        match r with
        | round_next => heartbeat_rounds net later connection_id
        | round_break => ret tt
        end
      else ret tt
  end.

Definition _heartbeat_loop (net : Net Message) (wakeups : list Z)
    (connection_id : string) : Run unit :=
  try_except (heartbeat_rounds net wakeups connection_id) (fun _ => ret tt).

(** [get_session_connection_count(session_id)] *)
Definition get_session_connection_count (session : string) (m : ConnectionManager) : nat :=
  size (index_get session (session_subscriptions m)).

(** The subscribers of a session. *)
Definition subscribers (session : string) (m : ConnectionManager) : gset string :=
  index_get session (session_subscriptions m).

(** A subscriber of a session is a connection whose metadata names that
    session, and every metadata entry names a non-empty session. *)
Definition consistent (m : ConnectionManager) : Prop :=
  (forall s c, c ∈ subscribers s m ->
     exists md, connection_metadata m !! c = Some md /\ session_id md = s)
  /\ (forall c md, connection_metadata m !! c = Some md ->
        truthy (session_id md) = true).

(** The states of a manager as the route drives it: built from
    [ConnectionManager()] by its methods, each connection under an
    identifier not in use (the route draws a [uuid4] for each) and for a
    session id that is not the empty string (the route takes it from the
    path [/ws/{session_id}]). *)
Inductive reachable : world ConnectionManager Message -> Prop :=
| reach_init : reachable (World init [])
| reach_connect w net now ws cid sid uid :
    reachable w -> active_connections (self w) !! cid = None ->
    connection_metadata (self w) !! cid = None ->
    truthy sid = true ->
    reachable (world_of (connect net now ws cid sid uid w))
| reach_disconnect w cid :
    reachable w -> reachable (world_of (disconnect cid w))
| reach_send w net cid msg :
    reachable w -> reachable (world_of (send_personal_message net cid msg w))
| reach_broadcast w net sid msg ex :
    reachable w -> reachable (world_of (broadcast_to_session net sid msg ex w))
| reach_handle w net now cid msg :
    reachable w -> reachable (world_of (handle_message net now cid msg w))
| reach_heartbeat w net wakeups cid :
    reachable w -> reachable (world_of (_heartbeat_loop net wakeups cid w)).

End Manager.

(** ** [WebSocketService] (backend/app/services/websocket_service.py) *)

Module Service.

(** A [uuid.UUID], in its canonical text form: [str] of it is the text
    itself, and as a Python object it is always true. *)
Definition UUID : Type := string.

Inductive ConnectionType : Type := AUTHENTICATED | GUEST.

Inductive MessageType : Type :=
| CONNECT | DISCONNECT | PING | PONG
| CHAT_MESSAGE | CHAT_RESPONSE | CHAT_STREAM | CHAT_ERROR
| SESSION_CREATE | SESSION_UPDATE | SESSION_DELETE
| SYSTEM_MESSAGE | ERROR.

Definition MessageType_value (t : MessageType) : string :=
  match t with
  | CONNECT => "connect" | DISCONNECT => "disconnect"
  | PING => "ping" | PONG => "pong"
  | CHAT_MESSAGE => "chat_message" | CHAT_RESPONSE => "chat_response"
  | CHAT_STREAM => "chat_stream" | CHAT_ERROR => "chat_error"
  | SESSION_CREATE => "session_create" | SESSION_UPDATE => "session_update"
  | SESSION_DELETE => "session_delete"
  | SYSTEM_MESSAGE => "system_message" | ERROR => "error"
  end.

(** [ChatMode] of backend/app/models/chat.py *)
Inductive ChatMode : Type := NORMAL | STREAM | CONTEXT.

Definition ChatMode_value (m : ChatMode) : string :=
  match m with
  | NORMAL => "normal"
  | STREAM => "stream"
  | CONTEXT => "context"
  end.

(** A validated [ChatRequest], with the members the handler reads. *)
Record ChatRequest : Type := {
  rq_session_id : option UUID;
  rq_role_id : UUID;
  rq_message : string;
  rq_mode : ChatMode
}.

(** What the chat service hands back: the response classes its methods
    declare as their results, each by the fields its class defines
    (dates, counters, response time and metadata left out). *)

(** [StreamChatResponse] of backend/app/models/chat.py, what
    [stream_message] yields. *)
Record StreamChatResponse : Type := {
  sr_session_id : UUID;
  sr_message_id : UUID;
  sr_content : string;
  sr_is_complete : bool;
  sr_tokens_used : Z
}.

(** [ChatResponse] of backend/app/models/chat.py, the result of
    [send_message]. *)
Record ChatResponse : Type := {
  cr_session_id : UUID;
  cr_message_id : UUID;
  cr_user_message_id : UUID;
  cr_content : string;
  cr_role_id : UUID;
  cr_role_name : string;
  cr_tokens_used : Z
}.

(** [ChatSessionResponse] of backend/app/models/chat.py, which the chat
    service imports as [ChatSessionCreateResponse]: the result of
    [create_session]. *)
Record ChatSessionCreateResponse : Type := {
  sn_session_id : UUID;
  sn_title : string;
  sn_role_id : UUID;
  sn_role_name : string;
  sn_role_avatar : option string;
  sn_is_active : bool
}.

(** [SessionStatus] and [ChatSessionResponse] of
    backend/app/models/chat_session.py: the result of [update_session]. *)
Inductive SessionStatus : Type := ACTIVE | INACTIVE | ARCHIVED | DELETED.

Definition SessionStatus_value (s : SessionStatus) : string :=
  match s with
  | ACTIVE => "active"
  | INACTIVE => "inactive"
  | ARCHIVED => "archived"
  | DELETED => "deleted"
  end.

Record ChatSessionResponse : Type := {
  cs_id : UUID;
  cs_title : string;
  cs_role_id : UUID;
  cs_user_id : option UUID;
  cs_is_active : bool;
  cs_status : SessionStatus;
  cs_role_name : option string;
  cs_role_avatar : option string
}.

(** The ["data"] of the messages the handlers build from a response,
    by the keys of the dict (timestamps, response time and metadata left
    out). *)
Record ChatResponseData : Type := {
  rd_session_id : string;
  rd_user_message_id : string;
  rd_ai_message_id : string;
  rd_ai_role_name : string;
  rd_content : string;
  rd_tokens_used : Z
}.

Record SessionCreateData : Type := {
  sd_session_id : string;
  sd_session_token : option string;
  sd_title : string;
  sd_ai_role_id : string;
  sd_ai_role_name : string;
  sd_ai_role_avatar_url : option string
}.

Record SessionUpdateData : Type := {
  ud_session_id : string;
  ud_title : string;
  ud_is_active : bool;
  ud_session_status : string
}.

Record User : Type := { id : UUID; username : string }.

(** The messages the service writes, one constructor per value of
    ["type"]; the [timestamp] member is left out. *)
Inductive Message : Type :=
| connect_message (connection_id : string) (connection_type : ConnectionType)
| pong_message
| chat_stream (data : StreamChatResponse)
| chat_response (data : ChatResponseData)
| chat_error (error : string)
| session_create (data : SessionCreateData)
| session_update (data : SessionUpdateData)
| session_delete (session_id : string)
| error_message (error : string)
| system_message (message : string).

Definition type_of (m : Message) : MessageType :=
  match m with
  | connect_message _ _ => CONNECT
  | pong_message => PONG
  | chat_stream _ => CHAT_STREAM
  | chat_response _ => CHAT_RESPONSE
  | chat_error _ => CHAT_ERROR
  | session_create _ => SESSION_CREATE
  | session_update _ => SESSION_UPDATE
  | session_delete _ => SESSION_DELETE
  | error_message _ => ERROR
  | system_message _ => SYSTEM_MESSAGE
  end.

(** The fields of a [WebSocketConnection]. *)
Record WebSocketConnection : Type := {
  websocket : WebSocket;
  connection_id : string;
  connection_type : ConnectionType;
  user_id : option UUID;
  session_token : option string;
  connected_at : Z;
  last_ping : Z;
  is_active : bool;
  subscribed_sessions : gset string
}.

Definition set_is_active (b : bool) (c : WebSocketConnection) : WebSocketConnection :=
  {| websocket := websocket c; connection_id := connection_id c;
     connection_type := connection_type c; user_id := user_id c;
     session_token := session_token c; connected_at := connected_at c;
     last_ping := last_ping c; is_active := b;
     subscribed_sessions := subscribed_sessions c |}.

Definition set_last_ping (t : Z) (c : WebSocketConnection) : WebSocketConnection :=
  {| websocket := websocket c; connection_id := connection_id c;
     connection_type := connection_type c; user_id := user_id c;
     session_token := session_token c; connected_at := connected_at c;
     last_ping := t; is_active := is_active c;
     subscribed_sessions := subscribed_sessions c |}.

Definition set_subscribed_sessions (f : gset string -> gset string)
    (c : WebSocketConnection) : WebSocketConnection :=
  {| websocket := websocket c; connection_id := connection_id c;
     connection_type := connection_type c; user_id := user_id c;
     session_token := session_token c; connected_at := connected_at c;
     last_ping := last_ping c; is_active := is_active c;
     subscribed_sessions := f (subscribed_sessions c) |}.

(** The methods of a [WebSocketConnection]; [self] is the connection. *)
Module Conn.

(** [send_message(message)] *)
Definition send_message (net : Net Message) (message : Message)
    : Py WebSocketConnection Message bool :=
  try_except
    (let! c := get_self in
     if is_active c
     then ws_send_text net (websocket c) message ;;; ret true
     else ret false)
    (fun _ => update (set_is_active false) ;;; ret false).

(** [close(code)] *)
Definition close (net : Net Message) (code : Z)
    : Py WebSocketConnection Message unit :=
  try_finally
    (try_except
       (let! c := get_self in
        if is_active c then ws_close net (websocket c) code else ret tt)
       (fun _ => ret tt))
    (update (set_is_active false)).

End Conn.

(** The fields of a [WebSocketService]. The keys of [user_connections]
    are [str(user_id)]. *)
Record WebSocketService : Type := {
  connections : gmap string WebSocketConnection;
  user_connections : gmap string (gset string);
  session_connections : gmap string (gset string);
  heartbeat_interval : Z;
  heartbeat_timeout : Z
}.

(** [WebSocketService(chat_service, auth_service)] *)
Definition init : WebSocketService :=
  {| connections := ∅; user_connections := ∅; session_connections := ∅;
     heartbeat_interval := 30; heartbeat_timeout := 60 |}.

Definition set_connections
    (f : gmap string WebSocketConnection -> gmap string WebSocketConnection)
    (s : WebSocketService) : WebSocketService :=
  {| connections := f (connections s);
     user_connections := user_connections s;
     session_connections := session_connections s;
     heartbeat_interval := heartbeat_interval s;
     heartbeat_timeout := heartbeat_timeout s |}.

Definition set_user_connections
    (f : gmap string (gset string) -> gmap string (gset string))
    (s : WebSocketService) : WebSocketService :=
  {| connections := connections s;
     user_connections := f (user_connections s);
     session_connections := session_connections s;
     heartbeat_interval := heartbeat_interval s;
     heartbeat_timeout := heartbeat_timeout s |}.

Definition set_session_connections
    (f : gmap string (gset string) -> gmap string (gset string))
    (s : WebSocketService) : WebSocketService :=
  {| connections := connections s;
     user_connections := user_connections s;
     session_connections := f (session_connections s);
     heartbeat_interval := heartbeat_interval s;
     heartbeat_timeout := heartbeat_timeout s |}.

Definition Run (A : Type) : Type := Py WebSocketService Message A.

(** The collaborators of the service and the validation of inbound
    data: each call either returns or raises. A stream yields its
    responses and may then raise. *)
Record Env : Type := {
  net : Net Message;
  get_current_user : string -> outcome (option User);
  ChatRequest_of : string -> outcome ChatRequest;
  send_message : ChatRequest -> option UUID -> option string -> outcome ChatResponse;
  stream_message : ChatRequest -> option UUID -> option string
                   -> list StreamChatResponse * option exn;
  ChatSessionCreateRequest_of : string -> outcome string;
  create_session : string -> option UUID -> outcome ChatSessionCreateResponse;
  session_update_of : string -> outcome (UUID * string);
  update_session : UUID -> string -> option UUID -> option string
                   -> outcome (option ChatSessionResponse);
  session_delete_of : string -> outcome UUID;
  delete_session : UUID -> option UUID -> option string -> outcome bool
}.

(** An inbound message: its ["type"] and its ["data"], the latter as
    the text the validators of [Env] take. *)
Record Inbound : Type := {
  in_type : option string;
  in_data : string
}.

(** A call into a collaborator. *)
Definition call {A} (o : outcome A) : Run A := fun w => (o, w).

(** A read of the attribute [name] on an object of the class [class],
    which does not define it. *)
Definition no_attribute {A} (class name : string) : Run A :=
  raise (AttributeError class name).

(** A method of the connection registered under [connection_id], run on
    the registry's entry: a handler holds the object it fetched from
    [connections] under that key, and no step of a handler removes or
    replaces the entry. Without an entry nothing runs. *)
Definition on_connection {A} (connection_id : string) (absent : A)
    (m : Py WebSocketConnection Message A) : Run A :=
  fun w =>
    match connections (self w) !! connection_id with
    | Some c =>
        let r := m (World c (wire w)) in
        (fst r,
         World (set_connections <[connection_id := self (snd r)]> (self w))
               (wire (snd r)))
    | None => (Returns absent, w)
    end.

(** [str(chat_request.session_id)] of an [Optional[UUID]] *)
Definition str_session_id (s : option UUID) : string :=
  match s with
  | Some u => u
  | None => "None"
  end.


(** [connect(websocket, connection_id, token, session_token)]: the
    result is the connection object, [None] after a failure. *)
Definition connect (env : Env) (now : Z) (ws : WebSocket) (cid : string)
    (token session_tok : option string) : Run (option WebSocketConnection) :=
  try_except
    (ws_accept (net env) ws ;;;
     let! user :=
       (match token with
        | Some t =>
            if truthy t
            then try_except
                   (let! user := call (get_current_user env t) in
                    ret (id <$> user))
                   (fun _ => ret None)
            else ret None
        | None => ret None
        end) in
     let connection :=
       {| websocket := ws; connection_id := cid;
          connection_type := (if user is Some _ then AUTHENTICATED else GUEST);
          user_id := user; session_token := session_tok;
          connected_at := now; last_ping := now; is_active := true;
          subscribed_sessions := ∅ |} in
     update (set_connections <[cid := connection]>) ;;;
     (match user with
      | Some user_key => update (set_user_connections (index_add user_key cid))
      | None => ret tt
      end) ;;;
     on_connection cid false
       (Conn.send_message (net env)
          (connect_message cid (connection_type connection))) ;;;
     let! s := get_self in
     ret (connections s !! cid))
    (fun _ =>
       try_except (ws_close (net env) ws 1011) (fun _ => ret tt) ;;;
       ret None).

(** [disconnect(connection_id)] *)
Definition disconnect (env : Env) (cid : string) : Run unit :=
  try_except
    (let! s := get_self in
     match connections s !! cid with
     | None => ret tt
     | Some connection =>
         (match user_id connection with
          | Some user_key =>
              update (set_user_connections (index_discard user_key cid))
          | None => ret tt
          end) ;;;
         for_each (elements (subscribed_sessions connection))
           (fun sid => update (set_session_connections (index_discard sid cid))) ;;;
         on_connection cid tt (Conn.close (net env) 1000) ;;;
         update (set_connections (delete cid))
     end)
    (fun _ => ret tt).

(** [_send_error(connection_id, error_message)] *)
Definition _send_error (env : Env) (cid : string) (text : string) : Run unit :=
  on_connection cid false (Conn.send_message (net env) (error_message text)) ;;;
  ret tt.

(** [subscribe_session(connection_id, session_id)] *)
Definition subscribe_session (cid sid : string) : Run bool :=
  try_except
    (let! s := get_self in
     match connections s !! cid with
     | None => ret false
     | Some _ =>
         update (set_session_connections (index_add sid cid)) ;;;
         update (set_connections
                   (alter (set_subscribed_sessions (fun X => X ∪ {[sid]})) cid)) ;;;
         ret true
     end)
    (fun _ => ret false).

(** [unsubscribe_session(connection_id, session_id)] *)
Definition unsubscribe_session (cid sid : string) : Run bool :=
  try_except
    (let! s := get_self in
     match connections s !! cid with
     | None => ret false
     | Some _ =>
         update (set_session_connections (index_discard sid cid)) ;;;
         update (set_connections
                   (alter (set_subscribed_sessions (fun X => X ∖ {[sid]})) cid)) ;;;
         ret true
     end)
    (fun _ => ret false).

(** [if exclude_connection and connection_id == exclude_connection] *)
Definition excluded (exclude_connection : option string) (cid : string) : bool :=
  match exclude_connection with
  | Some e => truthy e && bool_decide (cid = e)
  | None => false
  end.

(** The body of the broadcast loops:
    [connection = self.connections.get(connection_id)] then
    [if connection and connection.is_active: await connection.send_message(message)] *)
Definition send_if_active (env : Env) (message : Message) (cid : string) : Run unit :=
  let! s := get_self in
  match connections s !! cid with
  | Some connection =>
      if is_active connection
      then on_connection cid false (Conn.send_message (net env) message) ;;; ret tt
      else ret tt
  | None => ret tt
  end.

(** [broadcast_to_session(session_id, message, exclude_connection)] *)
Definition broadcast_to_session (env : Env) (sid : string) (message : Message)
    (exclude_connection : option string) : Run unit :=
  try_except
    (let! s := get_self in
     for_each (elements (index_get sid (session_connections s)))
       (fun cid =>
          if excluded exclude_connection cid then ret tt
          else send_if_active env message cid))
    (fun _ => ret tt).

(** [broadcast_to_user(user_id, message)] *)
Definition broadcast_to_user (env : Env) (user : UUID) (message : Message) : Run unit :=
  try_except
    (let! s := get_self in
     for_each (elements (index_get user (user_connections s)))
       (send_if_active env message))
    (fun _ => ret tt).

(** [_handle_ping(connection)] *)
Definition _handle_ping (env : Env) (now : Z) (cid : string) : Run unit :=
  update (set_connections (alter (set_last_ping now) cid)) ;;;
  on_connection cid false (Conn.send_message (net env) pong_message) ;;;
  ret tt.

(** [chat_request.mode and chat_request.mode.value == "STREAM"]: a
    member of [ChatMode] is a non-empty [str], hence true. *)
Definition wants_stream (chat_request : ChatRequest) : bool :=
  truthy (ChatMode_value (rq_mode chat_request))
  && bool_decide (ChatMode_value (rq_mode chat_request) = "STREAM").

(** The stream branch of [_handle_chat_message]: every response the
    stream yields is broadcast; what the stream raises is raised by
    the loop. *)
Definition stream_reply (env : Env) (sid : string)
    (stream : list StreamChatResponse * option exn) : Run unit :=
  for_each (fst stream)
    (fun stream_response =>
       broadcast_to_session env sid (chat_stream stream_response) None) ;;;
  match snd stream with
  | Some e => raise e
  | None => ret tt
  end.

(** [response_message = {...}] of [_handle_chat_message]: the values
    of the dict are read from [chat_response] in the order written. The
    class [ChatResponse] defines no [ai_message_id], [ai_role_name] or
    [timestamp]. *)
Definition response_message (chat_res : ChatResponse) : Run Message :=
  let session_id := cr_session_id chat_res in
  let user_message_id := cr_user_message_id chat_res in
  let! ai_message_id := no_attribute "ChatResponse" "ai_message_id" in
  let! ai_role_name := no_attribute "ChatResponse" "ai_role_name" in
  let content := cr_content chat_res in
  let tokens_used := cr_tokens_used chat_res in
  let! timestamp := no_attribute (A := unit) "ChatResponse" "timestamp" in
  ret (chat_response
         {| rd_session_id := session_id; rd_user_message_id := user_message_id;
            rd_ai_message_id := ai_message_id; rd_ai_role_name := ai_role_name;
            rd_content := content; rd_tokens_used := tokens_used |}).

(** The [try] block of [_handle_chat_message] from the call into the
    chat service on, for a connection with the given user and token. *)
Definition chat_reply (env : Env) (chat_request : ChatRequest)
    (user : option UUID) (session_tok : option string) : Run unit :=
  let sid := str_session_id (rq_session_id chat_request) in
  if wants_stream chat_request
  then stream_reply env sid (stream_message env chat_request user session_tok)
  else
    let! chat_res := call (send_message env chat_request user session_tok) in
    let! message := response_message chat_res in
    broadcast_to_session env sid message None.

(** [_handle_chat_message(connection, message)] *)
Definition _handle_chat_message (env : Env) (cid : string)
    (connection : WebSocketConnection) (message : Inbound) : Run unit :=
  try_except
    (let! chat_request := call (ChatRequest_of env (in_data message)) in
     let sid := str_session_id (rq_session_id chat_request) in
     subscribe_session cid sid ;;;
     chat_reply env chat_request (user_id connection) (session_token connection))
    (fun e =>
       on_connection cid false
         (Conn.send_message (net env) (chat_error (str_exn e))) ;;;
       ret tt).

(** The message [_handle_session_create] builds for the new session:
    the values of the dict are read from [session_response] in the order
    written. The class of [session_response] defines no [session_token]
    and no [ai_role]. *)
Definition session_create_message (session_response : ChatSessionCreateResponse)
  : Run Message :=
  let session_id := sn_session_id session_response in
  let! session_tok := no_attribute "ChatSessionResponse" "session_token" in
  let title := sn_title session_response in
  let! ai_role_id := no_attribute "ChatSessionResponse" "ai_role" in
  let! ai_role_name := no_attribute "ChatSessionResponse" "ai_role" in
  let! ai_role_avatar_url := no_attribute "ChatSessionResponse" "ai_role" in
  ret (session_create
         {| sd_session_id := session_id; sd_session_token := session_tok;
            sd_title := title; sd_ai_role_id := ai_role_id;
            sd_ai_role_name := ai_role_name;
            sd_ai_role_avatar_url := ai_role_avatar_url |}).

(** [_handle_session_create(connection, message)] *)
Definition _handle_session_create (env : Env) (cid : string)
    (connection : WebSocketConnection) (message : Inbound) : Run unit :=
  try_except
    (let! session_data := call (ChatSessionCreateRequest_of env (in_data message)) in
     let! session_response :=
       call (create_session env session_data (user_id connection)) in
     subscribe_session cid (sn_session_id session_response) ;;;
     let! created := session_create_message session_response in
     on_connection cid false (Conn.send_message (net env) created) ;;;
     ret tt)
    (fun e =>
       on_connection cid false
         (Conn.send_message (net env)
            (error_message ("会话创建失败: " +:+ str_exn e))) ;;;
       ret tt).

(** [update_message = {...}] of [_handle_session_update]: the values
    of the dict are read from [updated_session] in the order written. The
    class of [updated_session] defines no [session_status] and no
    [updated_at]. *)
Definition update_message (updated_session : ChatSessionResponse) : Run Message :=
  let session_id := cs_id updated_session in
  let title := cs_title updated_session in
  let is_active := cs_is_active updated_session in
  let! session_status := no_attribute "ChatSessionResponse" "session_status" in
  let! updated_at := no_attribute (A := unit) "ChatSessionResponse" "updated_at" in
  ret (session_update
         {| ud_session_id := session_id; ud_title := title;
            ud_is_active := is_active; ud_session_status := session_status |}).

(** [_handle_session_update(connection, message)] *)
Definition _handle_session_update (env : Env) (cid : string)
    (connection : WebSocketConnection) (message : Inbound) : Run unit :=
  try_except
    (let! parsed := call (session_update_of env (in_data message)) in
     let! updated_session :=
       call (update_session env parsed.1 parsed.2
               (user_id connection) (session_token connection)) in
     match updated_session with
     | Some updated =>
         let! message := update_message updated in
         broadcast_to_session env parsed.1 message None
     | None =>
         on_connection cid false
           (Conn.send_message (net env) (error_message "会话更新失败")) ;;;
         ret tt
     end)
    (fun e =>
       on_connection cid false
         (Conn.send_message (net env)
            (error_message ("会话更新失败: " +:+ str_exn e))) ;;;
       ret tt).

(** [_handle_session_delete(connection, message)] *)
Definition _handle_session_delete (env : Env) (cid : string)
    (connection : WebSocketConnection) (message : Inbound) : Run unit :=
  try_except
    (let! sid := call (session_delete_of env (in_data message)) in
     let! success :=
       call (delete_session env sid (user_id connection) (session_token connection)) in
     if success : bool then
       broadcast_to_session env sid (session_delete sid) None ;;;
       update (set_session_connections (delete sid))
     else
       on_connection cid false
         (Conn.send_message (net env) (error_message "会话删除失败")) ;;;
       ret tt)
    (fun e =>
       on_connection cid false
         (Conn.send_message (net env)
            (error_message ("会话删除失败: " +:+ str_exn e))) ;;;
       ret tt).

(** [handle_message(connection_id, message)] *)
Definition handle_message (env : Env) (now : Z) (cid : string)
    (message : Inbound) : Run unit :=
  try_except
    (let! s := get_self in
     match connections s !! cid with
     | None => ret tt
     | Some connection =>
         if negb (is_active connection) then ret tt
         else
           let message_type := in_type message in
           if bool_decide (message_type = Some (MessageType_value PING)) then
             _handle_ping env now cid
           else if bool_decide (message_type = Some (MessageType_value CHAT_MESSAGE)) then
             _handle_chat_message env cid connection message
           else if bool_decide (message_type = Some (MessageType_value SESSION_CREATE)) then
             _handle_session_create env cid connection message
           else if bool_decide (message_type = Some (MessageType_value SESSION_UPDATE)) then
             _handle_session_update env cid connection message
           else if bool_decide (message_type = Some (MessageType_value SESSION_DELETE)) then
             _handle_session_delete env cid connection message
           else
             on_connection cid false
               (Conn.send_message (net env) (error_message "Unknown message type")) ;;;
             ret tt
     end)
    (fun e => _send_error env cid ("消息处理失败: " +:+ str_exn e)).

(** The connections a sweep finds overdue at [now]. *)
Definition timeout_connections (now : Z) (s : WebSocketService) : list string :=
  List.filter
    (fun cid =>
       match connections s !! cid with
       | Some connection =>
           elapsed_more_than now (last_ping connection) (heartbeat_timeout s)
       | None => false
       end)
    (map_to_list (connections s)).*1.

(** One round of [_heartbeat_monitor] after its
    [asyncio.sleep(self.heartbeat_interval)], with the clock at [now]. *)
Definition heartbeat_sweep (env : Env) (now : Z) : Run unit :=
  try_except
    (let! s := get_self in
     for_each (timeout_connections now s) (disconnect env))
    (fun _ => ret tt).

(** [_heartbeat_monitor()] over the clock readings of its wake-ups. *)
Definition _heartbeat_monitor (env : Env) (wakeups : list Z) : Run unit :=
  for_each wakeups (heartbeat_sweep env).

(** [stop_service()], the heartbeat task apart. *)
Definition stop_service (env : Env) : Run unit :=
  let! s := get_self in
  for_each (map_to_list (connections s)).*1
    (fun cid => on_connection cid tt (Conn.close (net env) 1001)) ;;;
  update (set_connections (fun _ => ∅)) ;;;
  update (set_user_connections (fun _ => ∅)) ;;;
  update (set_session_connections (fun _ => ∅)).

(** The subscribers of a session, [self.session_connections.get(sid, set())]. *)
Definition subscribers (sid : string) (s : WebSocketService) : gset string :=
  index_get sid (session_connections s).

(** The connections of a user. *)
Definition connections_of_user (user : string) (s : WebSocketService) : gset string :=
  index_get user (user_connections s).

(** The user [connect] finds for a token: the id of the user the
    authentication service returns, none when there is no token, when the
    service knows no user for it or when it raises. *)
Definition authenticated (env : Env) (token : option string) : option UUID :=
  match token with
  | Some t =>
      if truthy t
      then match get_current_user env t with
           | Returns user => id <$> user
           | Raises _ => None
           end
      else None
  | None => None
  end.

(** The connection object [connect] creates. *)
Definition new_connection (env : Env) (now : Z) (ws : WebSocket) (cid : string)
    (token session_tok : option string) : WebSocketConnection :=
  {| websocket := ws; connection_id := cid;
     connection_type :=
       (if authenticated env token is Some _ then AUTHENTICATED else GUEST);
     user_id := authenticated env token; session_token := session_tok;
     connected_at := now; last_ping := now; is_active := true;
     subscribed_sessions := ∅ |}.

(** The service with [connection] registered under [cid], as [connect]
    leaves it before the greeting is sent. *)
Definition registered (cid : string) (connection : WebSocketConnection)
    (s : WebSocketService) : WebSocketService :=
  {| connections := <[cid := connection]> (connections s);
     user_connections :=
       match user_id connection with
       | Some user_key => index_add user_key cid (user_connections s)
       | None => user_connections s
       end;
     session_connections := session_connections s;
     heartbeat_interval := heartbeat_interval s;
     heartbeat_timeout := heartbeat_timeout s |}.

(** The service that a successful [subscribe_session] leaves. *)
Definition subscribed (cid sid : string) (s : WebSocketService) : WebSocketService :=
  set_connections (alter (set_subscribed_sessions (fun X => X ∪ {[sid]})) cid)
    (set_session_connections (index_add sid cid) s).

(** The service that a successful [unsubscribe_session] leaves. *)
Definition unsubscribed (cid sid : string) (s : WebSocketService) : WebSocketService :=
  set_connections (alter (set_subscribed_sessions (fun X => X ∖ {[sid]})) cid)
    (set_session_connections (index_discard sid cid) s).

(** The service that [disconnect] leaves when it finds [connection]
    under [cid]. *)
Definition unregistered (cid : string) (connection : WebSocketConnection)
    (s : WebSocketService) : WebSocketService :=
  {| connections := delete cid (connections s);
     user_connections :=
       match user_id connection with
       | Some user_key => index_discard user_key cid (user_connections s)
       | None => user_connections s
       end;
     session_connections :=
       foldl (fun d sid => index_discard sid cid d) (session_connections s)
         (elements (subscribed_sessions connection));
     heartbeat_interval := heartbeat_interval s;
     heartbeat_timeout := heartbeat_timeout s |}.

(** What [close(code)] writes for a connection. *)
Definition closing (env : Env) (code : Z) (connection : WebSocketConnection)
  : list (io Message) :=
  if is_active connection
  then [io_close (websocket connection) code
          (close_ok (net env) (websocket connection))]
  else [].

(** What [send_message(message)] writes for a connection, and what it
    leaves of it. *)
Definition sending (env : Env) (message : Message) (connection : WebSocketConnection)
  : list (io Message) :=
  if is_active connection
  then [io_send_text (websocket connection) message
          (send_ok (net env) (websocket connection) message)]
  else [].

Definition after_send (env : Env) (message : Message)
    (connection : WebSocketConnection) : WebSocketConnection :=
  if is_active connection && negb (send_ok (net env) (websocket connection) message)
  then set_is_active false connection
  else connection.

(** What a broadcast loop over the connection ids [l] writes, and the
    service it leaves: each registered, active connection of [l] is sent
    the message once. *)
Definition deliveries (env : Env) (message : Message) (s : WebSocketService)
    (l : list string) : list (io Message) :=
  flat_map
    (fun cid =>
       match connections s !! cid with
       | Some connection => sending env message connection
       | None => []
       end) l.

Definition after_deliveries (env : Env) (message : Message) (s : WebSocketService)
    (l : list string) : WebSocketService :=
  foldl
    (fun s cid =>
       match connections s !! cid with
       | Some connection =>
           set_connections <[cid := after_send env message connection]> s
       | None => s
       end) s l.

(** What the stream branch writes for the responses a stream yields:
    each response is broadcast, in the order yielded, to the subscribers
    that are registered and active when its turn comes. *)
Fixpoint stream_deliveries (env : Env) (sid : string)
    (responses : list StreamChatResponse) (s : WebSocketService)
  : list (io Message) :=
  match responses with
  | [] => []
  | response :: later =>
      let audience := elements (subscribers sid s) in
      deliveries env (chat_stream response) s audience
      ++ stream_deliveries env sid later
           (after_deliveries env (chat_stream response) s audience)
  end.

(** Both index maps are free of empty entries. *)
Definition no_empty_entries (s : WebSocketService) : Prop :=
  no_empty_entry (session_connections s) /\ no_empty_entry (user_connections s).

(** Every member of an index is a registered connection that knows of
    it: a subscriber of a session holds the session in its
    [subscribed_sessions], a connection listed for a user is that user's. *)
Definition consistent (s : WebSocketService) : Prop :=
  (forall sid cid, cid ∈ subscribers sid s ->
     exists connection, connections s !! cid = Some connection
                        /\ sid ∈ subscribed_sessions connection)
  /\ (forall user cid, cid ∈ connections_of_user user s ->
        exists connection, connections s !! cid = Some connection
                           /\ user_id connection = Some user).

(** Connection [cid] is a subscriber of session [sid] and holds it in
    its [subscribed_sessions]. *)
Definition sender_subscribed (cid sid : string) (s : WebSocketService) : Prop :=
  cid ∈ subscribers sid s
  /\ exists c, connections s !! cid = Some c /\ sid ∈ subscribed_sessions c.

(** The heartbeat settings of [__init__]. *)
Definition configured (s : WebSocketService) : Prop :=
  heartbeat_interval s = 30 /\ heartbeat_timeout s = 60.

(** The states of a service: built from a new service by the methods
    above, each connection under an identifier not in use (the route
    draws a [uuid4] for each). *)
Inductive reachable : world WebSocketService Message -> Prop :=
| reach_init : reachable (World init [])
| reach_connect w env now ws cid token tok :
    reachable w -> connections (self w) !! cid = None ->
    reachable (world_of (connect env now ws cid token tok w))
| reach_disconnect w env cid :
    reachable w -> reachable (world_of (disconnect env cid w))
| reach_handle w env now cid msg :
    reachable w -> reachable (world_of (handle_message env now cid msg w))
| reach_subscribe w cid sid :
    reachable w -> reachable (world_of (subscribe_session cid sid w))
| reach_unsubscribe w cid sid :
    reachable w -> reachable (world_of (unsubscribe_session cid sid w))
| reach_broadcast w env sid msg ex :
    reachable w -> reachable (world_of (broadcast_to_session env sid msg ex w))
| reach_broadcast_user w env user msg :
    reachable w -> reachable (world_of (broadcast_to_user env user msg w))
| reach_monitor w env wakeups :
    reachable w -> reachable (world_of (_heartbeat_monitor env wakeups w))
| reach_stop w env :
    reachable w -> reachable (world_of (stop_service env w)).

End Service.

(** ** The validators of the request models (backend/app/models/chat.py) *)

Module ChatModels.

(** A [str] as the sequence of its code points. *)
Definition str : Type := list Z.

(** [c.isspace()] for one character: the code points that [str.strip()]
    removes. *)
Definition isspace (c : Z) : bool :=
  ((9 <=? c) && (c <=? 13)) || ((28 <=? c) && (c <=? 32))
  || (c =? 133) || (c =? 160) || (c =? 5760)
  || ((8192 <=? c) && (c <=? 8202))
  || (c =? 8232) || (c =? 8233) || (c =? 8239) || (c =? 8287) || (c =? 12288).

(** [v.lstrip()], [v.rstrip()] and [v.strip()] *)
Fixpoint lstrip (v : str) : str :=
  match v with
  | [] => []
  | c :: rest => if isspace c then lstrip rest else v
  end.

Definition rstrip (v : str) : str := reverse (lstrip (reverse v)).

Definition strip (v : str) : str := rstrip (lstrip v).

(** The truth value of a [str]. *)
Definition nonempty (v : str) : bool :=
  match v with
  | [] => false
  | _ :: _ => true
  end.

(** [ChatRequest.validate_message(cls, v)] *)
Definition validate_message (v : str) : outcome str :=
  if negb (nonempty (strip v))
  then Raises (Exception "消息内容不能为空")
  else Returns (strip v).

(** [ChatSessionCreate.validate_title(cls, v)] *)
Definition validate_title (v : option str) : outcome (option str) :=
  match v with
  | Some raw =>
      let v := strip raw in
      if negb (nonempty v) then Returns None
      else if (200 <? length v)%nat
           then Raises (Exception "会话标题长度不能超过200字符")
           else Returns (Some v)
  | None => Returns None
  end.

(** A value of a context message: a [str], or something else. *)
Inductive value : Type :=
| a_str (s : string)
| not_a_str.

(** An element of [context_messages]: a [dict] with [str] keys, or
    something else. *)
Inductive entry : Type :=
| a_dict (d : gmap string value)
| not_a_dict.

(** [msg['role'] in ['user', 'assistant', 'system']] *)
Definition known_role (r : value) : bool :=
  match r with
  | a_str s =>
      bool_decide (s = "user") || bool_decide (s = "assistant")
      || bool_decide (s = "system")
  | not_a_str => false
  end.

(** The body of the loop of [validate_context_messages] for one
    message, and the loop. *)
Definition check_message (msg : entry) : outcome unit :=
  match msg with
  | not_a_dict => Raises (Exception "上下文消息必须是字典格式")
  | a_dict d =>
      match d !! "role", d !! "content" with
      | Some role, Some _ =>
          if negb (known_role role)
          then Raises (Exception "上下文消息role必须是user、assistant或system")
          else Returns tt
      | _, _ => Raises (Exception "上下文消息必须包含role和content字段")
      end
  end.

Fixpoint check_messages (v : list entry) : outcome unit :=
  match v with
  | [] => Returns tt
  | msg :: rest =>
      match check_message msg with
      | Returns _ => check_messages rest
      | Raises e => Raises e
      end
  end.

(** [ChatRequest.validate_context_messages(cls, v)] *)
Definition validate_context_messages (v : option (list entry))
  : outcome (option (list entry)) :=
  match v with
  | Some l =>
      if (20 <? length l)%nat
      then Raises (Exception "上下文消息数量不能超过20条")
      else match check_messages l with
           | Returns _ => Returns v
           | Raises e => Raises e
           end
  | None => Returns v
  end.

(** A context message that the validator lets through. *)
Definition well_formed (msg : entry) : Prop :=
  exists d role content,
    msg = a_dict d /\ d !! "role" = Some (a_str role) /\ d !! "content" = Some content
    /\ (role = "user" \/ role = "assistant" \/ role = "system").

End ChatModels.

(** ** The administrative methods of [WebSocketService] *)

Module Admin.





End Admin.

(** ** The queries of [ConnectionManager] *)

Module ManagerInfo.

(** [get_connection_count()] *)
Definition get_connection_count (m : Manager.ConnectionManager) : nat :=
  size (Manager.active_connections m).

(** [get_connection_info(connection_id)] *)
Definition get_connection_info (connection_id : string) (m : Manager.ConnectionManager)
  : option Manager.Metadata :=
  Manager.connection_metadata m !! connection_id.

End ManagerInfo.

(** ** Concrete peers, collaborators and runs *)

Module Example.

(** A network on which every transport call goes through. *)
Definition up {M} : Net M :=
  {| accept_ok := fun _ => true; send_ok := fun _ _ => true;
     close_ok := fun _ => true |}.

(** A network on which handshakes go through and every write raises. *)
Definition mute {M} : Net M :=
  {| accept_ok := fun _ => true; send_ok := fun _ _ => false;
     close_ok := fun _ => true |}.

(** A network on which the handshake raises. *)
Definition refusing {M} : Net M :=
  {| accept_ok := fun _ => false; send_ok := fun _ _ => true;
     close_ok := fun _ => true |}.

Definition request : Service.ChatRequest :=
  {| Service.rq_session_id := Some "S1"; Service.rq_role_id := "R1";
     Service.rq_message := "hi"; Service.rq_mode := Service.NORMAL |}.

Definition reply : Service.ChatResponse :=
  {| Service.cr_session_id := "S1"; Service.cr_message_id := "M2";
     Service.cr_user_message_id := "M1"; Service.cr_content := "hello";
     Service.cr_role_id := "R1"; Service.cr_role_name := "guide";
     Service.cr_tokens_used := 2 |}.

(** Collaborators that know no user, validate every chat message as
    [request] and answer a turn with [answer]. *)
Definition env (n : Net Service.Message) (answer : outcome Service.ChatResponse)
  : Service.Env :=
  {| Service.net := n;
     Service.get_current_user := fun _ => Returns None;
     Service.ChatRequest_of := fun _ => Returns request;
     Service.send_message := fun _ _ _ => answer;
     Service.stream_message := fun _ _ _ => ([], None);
     Service.ChatSessionCreateRequest_of := fun data => Returns data;
     Service.create_session := fun _ _ => Raises (Exception "no database");
     Service.session_update_of := fun _ => Raises (Exception "invalid");
     Service.update_session := fun _ _ _ _ => Returns None;
     Service.session_delete_of := fun _ => Raises (Exception "invalid");
     Service.delete_session := fun _ _ _ => Returns false |}.

Definition chat : Service.Inbound :=
  {| Service.in_type := Some "chat_message"; Service.in_data := "hi" |}.

(** Two guests: [c1] on socket 1, [c2] on socket 2, [c2] subscribed to
    session [S1]. *)
Definition two_tabs : world Service.WebSocketService Service.Message :=
  world_of (Service.subscribe_session "c2" "S1"
    (world_of (Service.connect (env up (Returns reply)) 0 2%nat "c2" None None
      (world_of (Service.connect (env up (Returns reply)) 0 1%nat "c1" None None
        (World Service.init [])))))).

(** The same after a system message to [S1] that the socket of [c2]
    refused: [c2] is marked inactive and still subscribed. *)
Definition one_tab_dead : world Service.WebSocketService Service.Message :=
  world_of (Service.broadcast_to_session (env mute (Returns reply)) "S1"
              (Service.system_message "maintenance") None two_tabs).

(** A manager with one connection [c1] on socket 1 for session [S1]. *)
Definition one_socket : world Manager.ConnectionManager Manager.Message :=
  world_of (Manager.connect up 0 1%nat "c1" "S1" None (World Manager.init [])).


End Example.

(** ** Notions for the handlers of the service *)

(** The run [r] of a handler from [w] answered the connection
    [connection], registered under [cid], with the single message
    [answer]: it returned, wrote that one message on the connection's
    socket and nothing else, and changed nothing of the registry but, when
    the write failed, the connection's active flag. *)
Definition answered_to_sender (env : Service.Env) (cid : string)
    (connection : Service.WebSocketConnection)
    (w : world Service.WebSocketService Service.Message)
    (r : outcome unit * world Service.WebSocketService Service.Message)
    (answer : Service.Message) : Prop :=
  result_of r = Returns tt
  /\ wire (world_of r)
     = (wire w ++ [io_send_text (Service.websocket connection) answer
                     (send_ok (Service.net env) (Service.websocket connection)
                        answer)])%list
  /\ Service.connections (self (world_of r))
     = <[cid := Service.after_send env answer connection]>
         (Service.connections (self w))
  /\ Service.session_connections (self (world_of r))
     = Service.session_connections (self w)
  /\ Service.user_connections (self (world_of r)) = Service.user_connections (self w).

(** [cid] is registered, marked inactive, with liveness timestamp [t]. *)
Definition inactive_since (cid : string) (t : Z) (s : Service.WebSocketService) : Prop :=
  exists c, Service.connections s !! cid = Some c
            /\ Service.is_active c = false /\ Service.last_ping c = t.

(** ** Collaborators that serve session requests *)

Module Scenario.

(** A chat service that creates, renames and deletes what it is asked
    to; the data of a create or an update request is the title, that of
    a delete request the session id, and an update names session [S1]. *)
Definition env (n : Net Service.Message) : Service.Env :=
  {| Service.net := n;
     Service.get_current_user :=
       fun t => Returns (Some {| Service.id := t; Service.username := t |});
     Service.ChatRequest_of := fun _ => Returns Example.request;
     Service.send_message := fun _ _ _ => Returns Example.reply;
     Service.stream_message := fun _ _ _ => ([], None);
     Service.ChatSessionCreateRequest_of := fun data => Returns data;
     Service.create_session :=
       fun title _ =>
         Returns {| Service.sn_session_id := "S2"; Service.sn_title := title;
                    Service.sn_role_id := "R1"; Service.sn_role_name := "guide";
                    Service.sn_role_avatar := None; Service.sn_is_active := true |};
     Service.session_update_of := fun data => Returns ("S1", data);
     Service.update_session :=
       fun sid title _ _ =>
         Returns (Some {| Service.cs_id := sid; Service.cs_title := title;
                          Service.cs_role_id := "R1"; Service.cs_user_id := None;
                          Service.cs_is_active := true;
                          Service.cs_status := Service.ACTIVE;
                          Service.cs_role_name := None;
                          Service.cs_role_avatar := None |});
     Service.session_delete_of := fun data => Returns data;
     Service.delete_session := fun _ _ _ => Returns true |}.

Definition create_trip : Service.Inbound :=
  {| Service.in_type := Some "session_create"; Service.in_data := "trip" |}.

Definition rename_S1 : Service.Inbound :=
  {| Service.in_type := Some "session_update"; Service.in_data := "trip" |}.


End Scenario.

(** ** Notions for the shutdown of the service *)

(** What closing, with [code], the connections registered in [s] under
    the ids [l] writes: one close per active connection, in the order of
    [l]. *)
Definition closings (env : Service.Env) (code : Z) (s : Service.WebSocketService)
    (l : list string) : list (io Service.Message) :=
  flat_map
    (fun cid =>
       match Service.connections s !! cid with
       | Some connection => Service.closing env code connection
       | None => []
       end) l.

(** ** Notions for the broadcasts of the service *)

(** The subscribers of session [sid] that a broadcast with
    [exclude_connection] visits. *)
Definition audience (sid : string) (exclude_connection : option string)
    (s : Service.WebSocketService) : list string :=
  List.filter (fun cid => negb (Service.excluded exclude_connection cid))
    (elements (Service.subscribers sid s)).




(** ** Notions for the registry of the connection manager *)

(** The manager as [connect] leaves it after the handshake, before the
    greeting is sent. *)
Definition manager_registered (now : Z) (websocket : WebSocket)
    (connection_id session : string) (user : option string)
    (m : Manager.ConnectionManager) : Manager.ConnectionManager :=
  {| Manager.active_connections := <[connection_id := websocket]> (Manager.active_connections m);
     Manager.session_subscriptions :=
       index_add session connection_id (Manager.session_subscriptions m);
     Manager.connection_metadata :=
       <[connection_id := {| Manager.session_id := session; Manager.user_id := user;
                             Manager.connected_at := now;
                             Manager.last_heartbeat := now |}]>
         (Manager.connection_metadata m);
     Manager.heartbeat_tasks := Manager.heartbeat_tasks m ∪ {[connection_id]} |}.

(** The three dictionaries keyed by connection id have the same keys. *)
Definition same_keys (m : Manager.ConnectionManager) : Prop :=
  forall c,
    (is_Some (Manager.active_connections m !! c)
     <-> is_Some (Manager.connection_metadata m !! c))
    /\ (c ∈ Manager.heartbeat_tasks m
        <-> is_Some (Manager.connection_metadata m !! c)).

(** Every connection with metadata is a subscriber of the session its
    metadata names. *)
Definition subscribed_to_own_session (m : Manager.ConnectionManager) : Prop :=
  forall c md,
    Manager.connection_metadata m !! c = Some md ->
    c ∈ Manager.subscribers (Manager.session_id md) m.

(** What a broadcast of [message] over the connection ids [l] writes:
    one text frame per id that has a socket in [m]. *)
Definition manager_deliveries (net : Net Manager.Message) (message : Manager.Message)
    (m : Manager.ConnectionManager) (l : list string) : list (io Manager.Message) :=
  flat_map
    (fun cid =>
       match Manager.active_connections m !! cid with
       | Some ws => [io_send_text ws message (send_ok net ws message)]
       | None => []
       end) l.

(** The subscribers of [session] that a broadcast of the manager with
    [exclude_connection] visits. *)
Definition manager_audience (session : string) (exclude_connection : option string)
    (m : Manager.ConnectionManager) : list string :=
  List.filter (fun cid => negb (Manager.excluded exclude_connection cid))
    (elements (Manager.subscribers session m)).

(** * Properties *)

(** ** Running Python computations *)

Ltac py_unfold :=
  unfold try_except, try_finally, bind, ret, raise, get_self, update, emit,
    ws_send_text, ws_accept, ws_close, result_of, world_of in *.

Lemma for_each_update {R M X} (f : X -> R -> R) (l : list X) (w : world R M) :
  for_each l (fun x => update (f x)) w
  = (Returns tt, World (foldl (fun s x => f x s) (self w) l) (wire w)).
Proof.
  revert w. induction l as [|x l IH]; intros [s t]; simpl.
  - reflexivity.
  - unfold bind, update at 1. simpl. rewrite IH. reflexivity.
Qed.

Lemma for_each_app {R M X} (l1 l2 : list X) (body : X -> Py R M unit) (w : world R M) :
  for_each (l1 ++ l2) body w = (for_each l1 body ;;; for_each l2 body) w.
Proof.
  revert w. induction l1 as [|x l1 IH]; intros w; simpl.
  - reflexivity.
  - unfold bind. destruct (body x w) as [[[]|e] w']; [|reflexivity].
    rewrite IH. reflexivity.
Qed.

(** ** The index maps *)

Lemma index_get_add k c k' (d : gmap string (gset string)) c' :
  c' ∈ index_get k' (index_add k c d)
  <-> c' ∈ index_get k' d \/ (k' = k /\ c' = c).
Proof.
  unfold index_get, index_add.
  destruct (decide (k = k')) as [->|Hne].
  - rewrite lookup_insert_eq. simpl. set_solver.
  - rewrite lookup_insert_ne by done. naive_solver.
Qed.

Lemma index_get_discard k c k' (d : gmap string (gset string)) c' :
  c' ∈ index_get k' (index_discard k c d)
  <-> c' ∈ index_get k' d /\ ~ (k' = k /\ c' = c).
Proof.
  unfold index_get, index_discard.
  destruct (d !! k) as [X|] eqn:E.
  - destruct (decide (X ∖ {[c]} = ∅)) as [Hemp|Hne].
    + destruct (decide (k = k')) as [->|Hk].
      * rewrite lookup_delete_eq, E. simpl. set_solver.
      * rewrite lookup_delete_ne by done. naive_solver.
    + destruct (decide (k = k')) as [->|Hk].
      * rewrite lookup_insert_eq, E. simpl. set_solver.
      * rewrite lookup_insert_ne by done. naive_solver.
  - destruct (decide (k = k')) as [->|Hk].
    + rewrite E. simpl. set_solver.
    + naive_solver.
Qed.

Lemma no_empty_entry_empty : no_empty_entry ∅.
Proof. intros k X H. rewrite lookup_empty in H. discriminate. Qed.

Lemma no_empty_entry_add k c d : no_empty_entry d -> no_empty_entry (index_add k c d).
Proof.
  intros H k' X. unfold index_add.
  destruct (decide (k = k')) as [->|Hne].
  - rewrite lookup_insert_eq. intros [= <-]. set_solver.
  - rewrite lookup_insert_ne by done. apply H.
Qed.

Lemma no_empty_entry_discard k c d :
  no_empty_entry d -> no_empty_entry (index_discard k c d).
Proof.
  intros H k' X. unfold index_discard.
  destruct (d !! k) as [Y|] eqn:E; [|apply H].
  destruct (decide (Y ∖ {[c]} = ∅)) as [Hemp|Hne].
  - destruct (decide (k = k')) as [->|Hk].
    + rewrite lookup_delete_eq. discriminate.
    + rewrite lookup_delete_ne by done. apply H.
  - destruct (decide (k = k')) as [->|Hk].
    + rewrite lookup_insert_eq. intros [= <-]. exact Hne.
    + rewrite lookup_insert_ne by done. apply H.
Qed.

Lemma no_empty_entry_delete k d : no_empty_entry d -> no_empty_entry (delete k d).
Proof.
  intros H k' X. destruct (decide (k = k')) as [->|Hk].
  - rewrite lookup_delete_eq. discriminate.
  - rewrite lookup_delete_ne by done. apply H.
Qed.

(** Once the last member of a key is discarded the key has no entry. *)
Lemma index_discard_last k c d :
  no_empty_entry d -> index_get k (index_discard k c d) = ∅ ->
  index_discard k c d !! k = None.
Proof.
  intros H Hget. pose proof (no_empty_entry_discard k c d H) as H'.
  unfold index_get in Hget.
  destruct (index_discard k c d !! k) as [X|] eqn:E; [|reflexivity].
  simpl in Hget. subst X. exfalso. exact (H' k ∅ E eq_refl).
Qed.

Lemma index_discard_absent k c d :
  c ∉ index_get k d -> no_empty_entry d -> index_discard k c d = d.
Proof.
  unfold index_get, index_discard. intros Hc H.
  destruct (d !! k) as [X|] eqn:E; [|reflexivity]. simpl in Hc.
  assert (X ∖ {[c]} = X) as -> by set_solver.
  rewrite decide_False by exact (H k X E). apply insert_id. exact E.
Qed.

(** ** The connection manager *)

Lemma manager_disconnect_run c w :
  Manager.disconnect c w
  = (Returns tt, World (Manager.unregistered c (self w)) (wire w)).
Proof.
  destruct w as [m t]. unfold Manager.disconnect, Manager.unregistered.
  py_unfold. simpl.
  assert (Manager.heartbeat_tasks
            (self ((if decide (c ∈ Manager.heartbeat_tasks m)
                    then fun w => (Returns tt, World (Manager.set_heartbeat_tasks
                                    (fun t => t ∖ {[c]}) (self w)) (wire w))
                    else fun w => (Returns tt, w)) (World m t)).2)
          = Manager.heartbeat_tasks m ∖ {[c]}) as Hhb.
  { destruct (decide _); simpl; [reflexivity | set_solver]. }
  destruct (decide (c ∈ Manager.heartbeat_tasks m)) as [Hin|Hout]; simpl in *;
    destruct (Manager.connection_metadata m !! c) as [md|]; simpl;
    try destruct (truthy (Manager.session_id md)); simpl;
    unfold Manager.set_connection_metadata, Manager.set_active_connections,
      Manager.set_session_subscriptions, Manager.set_heartbeat_tasks; simpl;
    rewrite <- ?Hhb; destruct m; reflexivity.
Qed.

Lemma manager_send_run net c msg w :
  Manager.send_personal_message net c msg w
  = match Manager.active_connections (self w) !! c with
    | Some ws =>
        if send_ok net ws msg
        then (Returns tt, World (self w) (wire w ++ [io_send_text ws msg true]))
        else (Returns tt,
              World (Manager.unregistered c (self w))
                    (wire w ++ [io_send_text ws msg false]))
    | None => (Returns tt, w)
    end.
Proof.
  unfold Manager.send_personal_message. unfold bind at 1, get_self.
  destruct (Manager.active_connections (self w) !! c) as [ws|]; [|reflexivity].
  unfold try_except, ws_send_text, bind, emit. simpl.
  destruct (send_ok net ws msg); simpl; [reflexivity|].
  unfold raise. rewrite manager_disconnect_run. reflexivity.
Qed.

(** The manager a successful handshake leaves, before the greeting. *)
Lemma manager_connect_run net now ws c sid uid w :
  Manager.connect net now ws c sid uid w
  = if accept_ok net ws
    then (Returns true,
          world_of (Manager.send_personal_message net c
            (Manager.connection_established c sid)
            (World
               {| Manager.active_connections :=
                    <[c := ws]> (Manager.active_connections (self w));
                  Manager.session_subscriptions :=
                    index_add sid c (Manager.session_subscriptions (self w));
                  Manager.connection_metadata :=
                    <[c := {| Manager.session_id := sid; Manager.user_id := uid;
                              Manager.connected_at := now;
                              Manager.last_heartbeat := now |}]>
                      (Manager.connection_metadata (self w));
                  Manager.heartbeat_tasks :=
                    Manager.heartbeat_tasks (self w) ∪ {[c]} |}
               (wire w ++ [io_accept ws true]))))
    else (Returns false, World (self w) (wire w ++ [io_accept ws false])).
Proof.
  unfold Manager.connect. unfold try_except, ws_accept.
  unfold bind at 1. unfold bind at 1. unfold emit at 1. simpl.
  destruct (accept_ok net ws); [|reflexivity].
  unfold ret at 1. unfold bind, update, world_of. simpl.
  rewrite !manager_send_run. simpl.
  rewrite !lookup_insert_eq.
  destruct (send_ok net ws _); reflexivity.
Qed.

Lemma manager_unregistered_twice c m :
  Manager.unregistered c (Manager.unregistered c m) = Manager.unregistered c m.
Proof.
  unfold Manager.unregistered at 1 2. simpl.
  rewrite lookup_delete_eq, !delete_delete_eq.
  unfold Manager.unregistered. f_equal. set_solver.
Qed.

Lemma manager_unregistered_no_empty c m :
  no_empty_entry (Manager.session_subscriptions m) ->
  no_empty_entry (Manager.session_subscriptions (Manager.unregistered c m)).
Proof.
  intros H. unfold Manager.unregistered. simpl.
  destruct (Manager.connection_metadata m !! c) as [md|]; [|exact H].
  destruct (truthy _); [|exact H]. apply no_empty_entry_discard, H.
Qed.

(** ** Properties kept by a computation *)

Section Preserves.
Context {R M : Type} (P : R -> Prop).

Lemma preserves_ret {A} (a : A) : preserves P (@ret R M A a).
Proof. intros w H. exact H. Qed.

Lemma preserves_raise {A} e : preserves P (@raise R M A e).
Proof. intros w H. exact H. Qed.

Lemma preserves_get_self : preserves P (@get_self R M).
Proof. intros w H. exact H. Qed.

Lemma preserves_emit e : preserves P (@emit R M e).
Proof. intros w H. exact H. Qed.

Lemma preserves_update (f : R -> R) :
  (forall s, P s -> P (f s)) -> preserves P (@update R M f).
Proof. intros Hf w H. apply Hf, H. Qed.

Lemma preserves_bind {A B} (m : Py R M A) (k : A -> Py R M B) :
  preserves P m -> (forall a, preserves P (k a)) -> preserves P (bind m k).
Proof.
  intros Hm Hk w H. specialize (Hm w H). unfold bind, world_of in *.
  destruct (m w) as [[a|e] w']; simpl in *; [apply Hk, Hm | exact Hm].
Qed.

Lemma preserves_try_except {A} (m : Py R M A) (h : exn -> Py R M A) :
  preserves P m -> (forall e, preserves P (h e)) -> preserves P (try_except m h).
Proof.
  intros Hm Hh w H. specialize (Hm w H). unfold try_except, world_of in *.
  destruct (m w) as [[a|e] w']; simpl in *; [exact Hm | apply Hh, Hm].
Qed.

Lemma preserves_try_finally {A} (m : Py R M A) (f : Py R M unit) :
  preserves P m -> preserves P f -> preserves P (try_finally m f).
Proof.
  intros Hm Hf w H. specialize (Hm w H). unfold try_finally, world_of in *.
  destruct (m w) as [r w']; simpl in *. specialize (Hf w' Hm).
  destruct (f w') as [[[]|e] w'']; exact Hf.
Qed.

Lemma preserves_for_each {X} (l : list X) (body : X -> Py R M unit) :
  (forall x, preserves P (body x)) -> preserves P (for_each l body).
Proof.
  intros Hb. induction l as [|x l IH]; simpl.
  - apply preserves_ret.
  - apply preserves_bind; [apply Hb | intros _; exact IH].
Qed.

Lemma preserves_ws_send_text net ws (m : M) : preserves P (@ws_send_text R M net ws m).
Proof.
  apply preserves_bind; [apply preserves_emit|]. intros _.
  destruct (send_ok net ws m); [apply preserves_ret | apply preserves_raise].
Qed.

Lemma preserves_ws_accept (net : Net M) ws : preserves P (@ws_accept R M net ws).
Proof.
  apply preserves_bind; [apply preserves_emit|]. intros _.
  destruct (accept_ok net ws); [apply preserves_ret | apply preserves_raise].
Qed.

Lemma preserves_ws_close (net : Net M) ws code : preserves P (@ws_close R M net ws code).
Proof.
  apply preserves_bind; [apply preserves_emit|]. intros _.
  destruct (close_ok net ws); [apply preserves_ret | apply preserves_raise].
Qed.

End Preserves.

Lemma never_raises_try_except {R M A} (m : Py R M A) (h : exn -> Py R M A) :
  (forall e, never_raises (h e)) -> never_raises (try_except m h).
Proof.
  intros Hh w. unfold try_except, result_of.
  destruct (m w) as [[a|e] w']; simpl; [eauto | apply Hh].
Qed.

Lemma never_raises_ret {R M A} (a : A) : never_raises (@ret R M A a).
Proof. intros w. exists a. reflexivity. Qed.

Lemma never_raises_bind {R M A B} (m : Py R M A) (k : A -> Py R M B) :
  never_raises m -> (forall a, never_raises (k a)) -> never_raises (bind m k).
Proof.
  intros Hm Hk w. destruct (Hm w) as [a Ha]. unfold bind, result_of in *.
  destruct (m w) as [r w']; simpl in *. subst r. apply Hk.
Qed.

Lemma never_raises_for_each {R M X} (l : list X) (body : X -> Py R M unit) :
  (forall x, never_raises (body x)) -> never_raises (for_each l body).
Proof.
  intros Hb. induction l as [|x l IH]; simpl.
  - apply never_raises_ret.
  - apply never_raises_bind; [apply Hb | intros _; exact IH].
Qed.

Ltac keeps_step :=
  lazymatch goal with
  | |- preserves _ (ret _) => apply preserves_ret
  | |- preserves _ (raise _) => apply preserves_raise
  | |- preserves _ get_self => apply preserves_get_self
  | |- preserves _ (emit _) => apply preserves_emit
  | |- preserves _ (ws_send_text _ _ _) => apply preserves_ws_send_text
  | |- preserves _ (ws_accept _ _) => apply preserves_ws_accept
  | |- preserves _ (ws_close _ _ _) => apply preserves_ws_close
  | |- preserves _ (bind _ _) => apply preserves_bind; [|intros ?]
  | |- preserves _ (try_except _ _) => apply preserves_try_except; [|intros ?]
  | |- preserves _ (try_finally _ _) => apply preserves_try_finally
  | |- preserves _ (for_each _ _) => apply preserves_for_each; intros ?
  end.

Ltac keeps := repeat keeps_step.

(** ** The connection manager: what its methods keep *)

Lemma manager_disconnect_preserves (P : Manager.ConnectionManager -> Prop) c :
  (forall m, P m -> P (Manager.unregistered c m)) ->
  preserves P (Manager.disconnect c).
Proof. intros H w Hw. rewrite manager_disconnect_run. apply H, Hw. Qed.

Lemma manager_send_preserves (P : Manager.ConnectionManager -> Prop) net c msg :
  (forall m, P m -> P (Manager.unregistered c m)) ->
  preserves P (Manager.send_personal_message net c msg).
Proof.
  intros H. unfold Manager.send_personal_message.
  apply preserves_bind; [apply preserves_get_self|]. intros m.
  destruct (Manager.active_connections m !! c); keeps.
  apply manager_disconnect_preserves, H.
Qed.

Lemma manager_broadcast_preserves (P : Manager.ConnectionManager -> Prop) net sid msg ex :
  (forall c m, P m -> P (Manager.unregistered c m)) ->
  preserves P (Manager.broadcast_to_session net sid msg ex).
Proof.
  intros H. unfold Manager.broadcast_to_session.
  apply preserves_bind; [apply preserves_get_self|]. intros m.
  destruct (Manager.session_subscriptions m !! sid); keeps.
  destruct (Manager.excluded ex _); keeps.
  apply manager_send_preserves, H.
Qed.

Lemma manager_heartbeat_preserves (P : Manager.ConnectionManager -> Prop) net wakeups c :
  (forall c m, P m -> P (Manager.unregistered c m)) ->
  preserves P (Manager._heartbeat_loop net wakeups c).
Proof.
  intros H. unfold Manager._heartbeat_loop. keeps.
  induction wakeups as [|now later IH]; simpl; keeps.
  destruct (decide _); keeps.
  - unfold Manager.heartbeat_round. keeps.
    destruct (Manager.connection_metadata _ !! c); keeps.
    destruct (elapsed_more_than _ _ _); keeps.
    + apply manager_disconnect_preserves, H.
    + apply manager_send_preserves, H.
  - match goal with r : Manager.round |- _ => destruct r end; keeps. exact IH.
Qed.

Lemma manager_consistent_unregistered c m :
  Manager.consistent m -> Manager.consistent (Manager.unregistered c m).
Proof.
  intros [H1 H2]. split.
  - intros s c'. unfold Manager.subscribers, Manager.unregistered. simpl.
    destruct (Manager.connection_metadata m !! c) as [md|] eqn:E.
    + rewrite (H2 c md E). rewrite index_get_discard. intros [Hin Hne].
      destruct (H1 s c' Hin) as (md' & Hmd' & Hs).
      destruct (decide (c = c')) as [->|Hc].
      * exfalso. apply Hne. split; [|reflexivity]. congruence.
      * exists md'. rewrite lookup_delete_ne by done. eauto.
    + intros Hin. destruct (H1 s c' Hin) as (md' & Hmd' & Hs).
      exists md'. split; [|exact Hs].
      rewrite lookup_delete_ne by congruence. exact Hmd'.
  - intros c' md. unfold Manager.unregistered. simpl.
    intros H. apply lookup_delete_Some in H as [_ H]. eauto.
Qed.

Lemma manager_reachable_consistent w :
  Manager.reachable w -> Manager.consistent (self w).
Proof.
  induction 1 as [|w net now ws cid sid uid Hr IH Hact Hmeta Hsid
                  |w cid Hr IH|w net cid msg Hr IH|w net sid msg ex Hr IH
                  |w net now cid msg Hr IH|w net wakeups cid Hr IH].
  - split.
    + intros s c. unfold Manager.subscribers, index_get. simpl.
      rewrite lookup_empty. simpl. set_solver.
    + intros c md. simpl. rewrite lookup_empty. discriminate.
  - rewrite manager_connect_run.
    destruct (accept_ok net ws); unfold world_of at 1; simpl; [|exact IH].
    apply manager_send_preserves; [intros m; apply manager_consistent_unregistered|].
    simpl. destruct IH as [H1 H2]. split.
    + intros s c'. unfold Manager.subscribers. simpl.
      rewrite index_get_add. intros [Hin|[-> ->]].
      * destruct (H1 s c' Hin) as (md & Hmd & Hs).
        exists md. split; [|exact Hs].
        rewrite lookup_insert_ne by congruence. exact Hmd.
      * eexists. rewrite lookup_insert_eq. split; reflexivity.
    + intros c' md H. simpl in H.
      apply lookup_insert_Some in H as [[_ <-]|[_ H]]; eauto.
  - apply manager_disconnect_preserves; [|exact IH].
    intros m. apply manager_consistent_unregistered.
  - apply manager_send_preserves; [|exact IH].
    intros m. apply manager_consistent_unregistered.
  - apply manager_broadcast_preserves; [|exact IH].
    intros c m. apply manager_consistent_unregistered.
  - revert IH. generalize w. change (preserves Manager.consistent
      (Manager.handle_message net now cid msg)).
    unfold Manager.handle_message. keeps.
    destruct msg as [|ty]; keeps.
    repeat case_bool_decide; keeps.
    + apply preserves_update. intros m [H1 H2]. split.
      * intros s c Hin. destruct (H1 s c Hin) as (md & Hmd & Hs).
        simpl. rewrite lookup_alter.
        destruct (decide (cid = c)) as [->|]; rewrite Hmd; simpl; eauto.
      * intros c md. simpl. rewrite lookup_alter.
        destruct (decide (cid = c)) as [->|]; [|apply H2].
        destruct (Manager.connection_metadata m !! c) as [md'|] eqn:E';
          simpl; [|discriminate]. intros [= <-]. simpl. eauto.
    + apply manager_send_preserves. intros m. apply manager_consistent_unregistered.
    + apply manager_send_preserves. intros m. apply manager_consistent_unregistered.
  - apply manager_heartbeat_preserves; [|exact IH].
    intros c m. apply manager_consistent_unregistered.
Qed.

(** ** The service: what a run of each method is *)

Lemma set_is_active_same c : Service.set_is_active (Service.is_active c) c = c.
Proof. destruct c; reflexivity. Qed.

Lemma conn_send_run env msg c t :
  Service.Conn.send_message (Service.net env) msg (World c t)
  = (Returns (Service.is_active c
              && send_ok (Service.net env) (Service.websocket c) msg),
     World (Service.after_send env msg c) (t ++ Service.sending env msg c)).
Proof.
  unfold Service.Conn.send_message, Service.after_send, Service.sending.
  py_unfold. simpl.
  destruct (Service.is_active c); simpl.
  - destruct (send_ok _ _ _); reflexivity.
  - rewrite app_nil_r. reflexivity.
Qed.

Lemma conn_close_run env code c t :
  Service.Conn.close (Service.net env) code (World c t)
  = (Returns tt, World (Service.set_is_active false c)
                       (t ++ Service.closing env code c)).
Proof.
  unfold Service.Conn.close, Service.closing. py_unfold. simpl.
  destruct (Service.is_active c); simpl.
  - destruct (close_ok _ _); reflexivity.
  - rewrite app_nil_r. reflexivity.
Qed.

Lemma on_connection_send_run env cid absent msg w :
  Service.on_connection cid absent
    (Service.Conn.send_message (Service.net env) msg) w
  = match Service.connections (self w) !! cid with
    | Some c =>
        (Returns (Service.is_active c
                  && send_ok (Service.net env) (Service.websocket c) msg),
         World (Service.set_connections
                  <[cid := Service.after_send env msg c]> (self w))
               (wire w ++ Service.sending env msg c))
    | None => (Returns absent, w)
    end.
Proof.
  unfold Service.on_connection.
  destruct (Service.connections (self w) !! cid) as [c|]; [|reflexivity].
  rewrite conn_send_run. reflexivity.
Qed.

Lemma on_connection_close_run env cid code w :
  Service.on_connection cid tt (Service.Conn.close (Service.net env) code) w
  = match Service.connections (self w) !! cid with
    | Some c =>
        (Returns tt,
         World (Service.set_connections
                  <[cid := Service.set_is_active false c]> (self w))
               (wire w ++ Service.closing env code c))
    | None => (Returns tt, w)
    end.
Proof.
  unfold Service.on_connection.
  destruct (Service.connections (self w) !! cid) as [c|]; [|reflexivity].
  rewrite conn_close_run. reflexivity.
Qed.

Lemma service_disconnect_run env cid w :
  Service.disconnect env cid w
  = match Service.connections (self w) !! cid with
    | Some c =>
        (Returns tt,
         World (Service.unregistered cid c (self w))
               (wire w ++ Service.closing env 1000 c))
    | None => (Returns tt, w)
    end.
Proof.
  destruct w as [s t]. unfold Service.disconnect.
  unfold try_except, bind at 1, get_self. simpl.
  destruct (Service.connections s !! cid) as [c|] eqn:E; [|reflexivity].
  unfold bind at 1.
  assert (Huser :
    (match Service.user_id c with
     | Some user_key =>
         update (Service.set_user_connections (index_discard user_key cid))
     | None => ret tt
     end) (World s t)
    = (Returns tt,
       World (Service.set_user_connections
                (fun d => match Service.user_id c with
                          | Some user_key => index_discard user_key cid d
                          | None => d
                          end) s) t)).
  { destruct (Service.user_id c); [reflexivity|]. destruct s; reflexivity. }
  rewrite Huser. unfold bind at 1.
  rewrite (for_each_update
             (fun sid => Service.set_session_connections (index_discard sid cid))).
  unfold bind at 1. rewrite on_connection_close_run. simpl.
  assert (Hfold : forall l s0,
    foldl (fun s1 x => Service.set_session_connections (index_discard x cid) s1) s0 l
    = Service.set_session_connections
        (fun d => foldl (fun d sid => index_discard sid cid d) d l) s0).
  { induction l as [|x l IH]; intros s0; simpl.
    - destruct s0; reflexivity.
    - rewrite IH. destruct s0; reflexivity. }
  rewrite Hfold. simpl. rewrite E. unfold update. simpl.
  unfold Service.unregistered, Service.set_connections. simpl.
  rewrite delete_insert_eq. reflexivity.
Qed.

Lemma service_subscribe_run cid sid w :
  Service.subscribe_session cid sid w
  = match Service.connections (self w) !! cid with
    | Some _ => (Returns true, World (Service.subscribed cid sid (self w)) (wire w))
    | None => (Returns false, w)
    end.
Proof.
  unfold Service.subscribe_session. py_unfold. simpl.
  destruct (Service.connections (self w) !! cid); reflexivity.
Qed.

Lemma service_unsubscribe_run cid sid w :
  Service.unsubscribe_session cid sid w
  = match Service.connections (self w) !! cid with
    | Some _ => (Returns true, World (Service.unsubscribed cid sid (self w)) (wire w))
    | None => (Returns false, w)
    end.
Proof.
  unfold Service.unsubscribe_session. py_unfold. simpl.
  destruct (Service.connections (self w) !! cid); reflexivity.
Qed.

Lemma service_send_if_active_run env msg cid w :
  Service.send_if_active env msg cid w
  = match Service.connections (self w) !! cid with
    | Some c =>
        (Returns tt,
         World (Service.set_connections
                  <[cid := Service.after_send env msg c]> (self w))
               (wire w ++ Service.sending env msg c))
    | None => (Returns tt, w)
    end.
Proof.
  destruct w as [s t].
  unfold Service.send_if_active. unfold bind at 1, get_self. simpl.
  destruct (Service.connections s !! cid) as [c|] eqn:E; [|reflexivity].
  destruct (Service.is_active c) eqn:Ha.
  - unfold bind. rewrite on_connection_send_run. simpl. rewrite E. reflexivity.
  - unfold ret, Service.after_send, Service.sending, Service.set_connections.
    rewrite Ha. simpl.
    rewrite app_nil_r, insert_id by exact E. destruct s; reflexivity.
Qed.

(** ** The service: properties kept by every method *)

Lemma preserves_call {A} (P : Service.WebSocketService -> Prop) (o : outcome A) :
  preserves P (Service.call o).
Proof. intros w H. exact H. Qed.

Section ServiceKeeps.
Context (P : Service.WebSocketService -> Prop).
Hypothesis P_mark : forall s cid c,
  P s -> Service.connections s !! cid = Some c ->
  P (Service.set_connections <[cid := Service.set_is_active false c]> s).
Hypothesis P_ping : forall s cid t,
  P s -> P (Service.set_connections (alter (Service.set_last_ping t) cid) s).
Hypothesis P_subscribed : forall s cid sid c,
  P s -> Service.connections s !! cid = Some c -> P (Service.subscribed cid sid s).
Hypothesis P_unsubscribed : forall s cid sid c,
  P s -> Service.connections s !! cid = Some c -> P (Service.unsubscribed cid sid s).
Hypothesis P_unregistered : forall s cid c,
  P s -> Service.connections s !! cid = Some c -> P (Service.unregistered cid c s).
Hypothesis P_session_deleted : forall s sid,
  P s -> P (Service.set_session_connections (delete sid) s).
Hypothesis P_cleared : forall s,
  P s ->
  P (Service.set_session_connections (fun _ => ∅)
       (Service.set_user_connections (fun _ => ∅)
          (Service.set_connections (fun _ => ∅) s))).

Lemma P_after_send env msg s cid c :
  P s -> Service.connections s !! cid = Some c ->
  P (Service.set_connections <[cid := Service.after_send env msg c]> s).
Proof.
  intros H E. unfold Service.after_send.
  destruct (_ && _); [apply P_mark; assumption|].
  unfold Service.set_connections. rewrite insert_id by exact E.
  destruct s; exact H.
Qed.

Lemma keeps_on_send env cid absent msg :
  preserves P (Service.on_connection cid absent
                 (Service.Conn.send_message (Service.net env) msg)).
Proof.
  intros w H. rewrite on_connection_send_run.
  destruct (Service.connections (self w) !! cid) as [c|] eqn:E; [|exact H].
  apply P_after_send; assumption.
Qed.

Lemma keeps_on_close env cid code :
  preserves P (Service.on_connection cid tt
                 (Service.Conn.close (Service.net env) code)).
Proof.
  intros w H. rewrite on_connection_close_run.
  destruct (Service.connections (self w) !! cid) as [c|] eqn:E; [|exact H].
  apply P_mark; assumption.
Qed.

Lemma keeps_send_if_active env msg cid :
  preserves P (Service.send_if_active env msg cid).
Proof.
  intros w H. rewrite service_send_if_active_run.
  destruct (Service.connections (self w) !! cid) as [c|] eqn:E; [|exact H].
  apply P_after_send; assumption.
Qed.

Lemma keeps_subscribe cid sid : preserves P (Service.subscribe_session cid sid).
Proof.
  intros w H. rewrite service_subscribe_run.
  destruct (Service.connections (self w) !! cid) as [c|] eqn:E; [|exact H].
  eapply P_subscribed; eassumption.
Qed.

Lemma keeps_unsubscribe cid sid : preserves P (Service.unsubscribe_session cid sid).
Proof.
  intros w H. rewrite service_unsubscribe_run.
  destruct (Service.connections (self w) !! cid) as [c|] eqn:E; [|exact H].
  eapply P_unsubscribed; eassumption.
Qed.

Lemma keeps_disconnect env cid : preserves P (Service.disconnect env cid).
Proof.
  intros w H. rewrite service_disconnect_run.
  destruct (Service.connections (self w) !! cid) as [c|] eqn:E; [|exact H].
  apply P_unregistered; assumption.
Qed.

Lemma keeps_broadcast_to_session env sid msg ex :
  preserves P (Service.broadcast_to_session env sid msg ex).
Proof.
  unfold Service.broadcast_to_session. keeps.
  destruct (Service.excluded ex _); keeps. apply keeps_send_if_active.
Qed.

Lemma keeps_broadcast_to_user env user msg :
  preserves P (Service.broadcast_to_user env user msg).
Proof.
  unfold Service.broadcast_to_user. keeps. apply keeps_send_if_active.
Qed.

Lemma keeps_chat_reply env req user tok :
  preserves P (Service.chat_reply env req user tok).
Proof.
  unfold Service.chat_reply.
  destruct (Service.wants_stream req).
  - unfold Service.stream_reply. keeps.
    + apply keeps_broadcast_to_session.
    + destruct (Service.stream_message env req user tok).2; keeps.
  - unfold Service.response_message, Service.no_attribute.
    keeps; first [apply preserves_call | apply keeps_broadcast_to_session].
Qed.

Lemma keeps_handle_chat_message env cid c msg :
  preserves P (Service._handle_chat_message env cid c msg).
Proof.
  unfold Service._handle_chat_message. keeps.
  - apply preserves_call.
  - apply keeps_subscribe.
  - apply keeps_chat_reply.
  - apply keeps_on_send.
Qed.

Lemma keeps_handle_session_create env cid c msg :
  preserves P (Service._handle_session_create env cid c msg).
Proof.
  unfold Service._handle_session_create, Service.session_create_message,
    Service.no_attribute.
  keeps; first [apply preserves_call | apply keeps_subscribe | apply keeps_on_send].
Qed.

Lemma keeps_handle_session_update env cid c msg :
  preserves P (Service._handle_session_update env cid c msg).
Proof.
  unfold Service._handle_session_update, Service.update_message,
    Service.no_attribute.
  keeps; try first [apply preserves_call | apply keeps_on_send].
  match goal with o : option Service.ChatSessionResponse |- _ => destruct o end; keeps;
    first [apply keeps_broadcast_to_session | apply keeps_on_send].
Qed.

Lemma keeps_handle_session_delete env cid c msg :
  preserves P (Service._handle_session_delete env cid c msg).
Proof.
  unfold Service._handle_session_delete. keeps;
    try first [apply preserves_call | apply keeps_on_send].
  match goal with b : bool |- _ => destruct b end; keeps;
    try first [apply keeps_broadcast_to_session | apply keeps_on_send].
  apply preserves_update. intros s. apply P_session_deleted.
Qed.

Lemma keeps_handle_message env now cid msg :
  preserves P (Service.handle_message env now cid msg).
Proof.
  unfold Service.handle_message. keeps.
  - match goal with s : Service.WebSocketService |- _ =>
      destruct (Service.connections s !! cid) as [c|] end; keeps.
    destruct (negb _); keeps.
    repeat case_bool_decide.
    + unfold Service._handle_ping. keeps; [|apply keeps_on_send].
      apply preserves_update. intros s'. apply P_ping.
    + apply keeps_handle_chat_message.
    + apply keeps_handle_session_create.
    + apply keeps_handle_session_update.
    + apply keeps_handle_session_delete.
    + keeps. apply keeps_on_send.
  - unfold Service._send_error. keeps. apply keeps_on_send.
Qed.

Lemma keeps_heartbeat_monitor env wakeups :
  preserves P (Service._heartbeat_monitor env wakeups).
Proof.
  unfold Service._heartbeat_monitor. keeps.
  unfold Service.heartbeat_sweep. keeps. apply keeps_disconnect.
Qed.

Lemma keeps_stop_service env : preserves P (Service.stop_service env).
Proof.
  unfold Service.stop_service.
  apply preserves_bind; [apply preserves_get_self|]. intros s.
  intros w H.
  assert (Hloop : preserves P
            (for_each (map_to_list (Service.connections s)).*1
               (fun cid => Service.on_connection cid tt
                             (Service.Conn.close (Service.net env) 1001)))).
  { keeps. apply keeps_on_close. }
  specialize (Hloop w H). unfold bind, update, world_of in *.
  destruct (for_each _ _ w) as [[[]|e] w']; simpl in *; [|exact Hloop].
  apply P_cleared, Hloop.
Qed.

End ServiceKeeps.

Lemma service_connect_run env now ws cid token tok w :
  Service.connect env now ws cid token tok w
  = if accept_ok (Service.net env) ws
    then
      let c := Service.new_connection env now ws cid token tok in
      let greeting := Service.connect_message cid (Service.connection_type c) in
      (Returns (Some (Service.after_send env greeting c)),
       World (Service.set_connections
                <[cid := Service.after_send env greeting c]>
                (Service.registered cid c (self w)))
             ((wire w ++ [io_accept ws true]) ++ Service.sending env greeting c))
    else
      (Returns None,
       World (self w)
             ((wire w ++ [io_accept ws false])
              ++ [io_close ws 1011 (close_ok (Service.net env) ws)])).
Proof.
  destruct w as [s t]. unfold Service.connect.
  set (auth := match token with Some t0 => _ | None => _ end).
  assert (Hauth : forall w0, auth w0 = (Returns (Service.authenticated env token), w0)).
  { intros w0. subst auth. unfold Service.authenticated.
    destruct token as [t0|]; [|reflexivity].
    destruct (truthy t0); [|reflexivity].
    unfold try_except, bind, Service.call, ret.
    destruct (Service.get_current_user env t0); reflexivity. }
  clearbody auth.
  unfold try_except, ws_accept. unfold bind at 1. unfold bind at 1.
  unfold emit at 1. simpl.
  destruct (accept_ok (Service.net env) ws).
  - unfold ret at 1. unfold bind at 1. rewrite Hauth. clear Hauth.
    unfold Service.new_connection.
    set (u := Service.authenticated env token).
    unfold bind at 1. unfold update at 1. simpl.
    unfold bind at 1.
    assert (Huser : forall s0 t0,
      (match u with
       | Some user_key =>
           update (Service.set_user_connections (index_add user_key cid))
       | None => ret tt
       end) (World s0 t0 : world Service.WebSocketService Service.Message)
      = (Returns tt,
         World (Service.set_user_connections
                  (fun d => match u with
                            | Some user_key => index_add user_key cid d
                            | None => d
                            end) s0) t0)).
    { intros s0 t0. destruct u; [reflexivity|]. destruct s0; reflexivity. }
    rewrite Huser. clear Huser.
    unfold bind at 1. rewrite on_connection_send_run. simpl.
    rewrite lookup_insert_eq. unfold bind, get_self, ret. simpl.
    rewrite lookup_insert_eq. unfold Service.registered, Service.set_connections.
    simpl. rewrite insert_insert_eq. reflexivity.
  - unfold raise at 1. unfold bind, try_except, ws_close, emit, ret, raise. simpl.
    destruct (close_ok (Service.net env) ws); reflexivity.
Qed.

(** *** No empty entry in the index maps *)

Lemma no_empty_entry_discard_all cid l d :
  no_empty_entry d ->
  no_empty_entry (foldl (fun d sid => index_discard sid cid d) d l).
Proof.
  revert d. induction l as [|x l IH]; intros d H; simpl; [exact H|].
  apply IH, no_empty_entry_discard, H.
Qed.

Lemma service_no_empty_registered cid c s :
  Service.no_empty_entries s -> Service.no_empty_entries (Service.registered cid c s).
Proof.
  intros [H1 H2]. split; simpl; [exact H1|].
  destruct (Service.user_id c); [apply no_empty_entry_add|]; exact H2.
Qed.

Lemma service_no_empty_unregistered cid c s :
  Service.no_empty_entries s -> Service.no_empty_entries (Service.unregistered cid c s).
Proof.
  intros [H1 H2]. split; simpl.
  - apply no_empty_entry_discard_all, H1.
  - destruct (Service.user_id c); [apply no_empty_entry_discard|]; exact H2.
Qed.

Lemma service_no_empty_subscribed cid sid s :
  Service.no_empty_entries s -> Service.no_empty_entries (Service.subscribed cid sid s).
Proof. intros [H1 H2]. split; simpl; [apply no_empty_entry_add, H1 | exact H2]. Qed.

Lemma service_no_empty_unsubscribed cid sid s :
  Service.no_empty_entries s -> Service.no_empty_entries (Service.unsubscribed cid sid s).
Proof. intros [H1 H2]. split; simpl; [apply no_empty_entry_discard, H1 | exact H2]. Qed.

Ltac no_empty_side :=
  let H := fresh "H" in
  first
    [ intros ? ? ? H _; exact H
    | intros ? ? ? H; exact H
    | intros ? ? ? ? H _; apply service_no_empty_subscribed, H
    | intros ? ? ? ? H _; apply service_no_empty_unsubscribed, H
    | intros ? ? ? H _; apply service_no_empty_unregistered, H
    | intros ? ? [? ?]; split; simpl; [apply no_empty_entry_delete; assumption | assumption]
    | intros ? _; split; simpl; apply no_empty_entry_empty ].

Lemma service_reachable_no_empty w :
  Service.reachable w -> Service.no_empty_entries (self w).
Proof.
  induction 1 as [|w env now ws cid token tok Hr IH Hfresh|w env cid Hr IH
                  |w env now cid msg Hr IH|w cid sid Hr IH|w cid sid Hr IH
                  |w env sid msg ex Hr IH|w env user msg Hr IH
                  |w env wakeups Hr IH|w env Hr IH].
  - split; simpl; apply no_empty_entry_empty.
  - rewrite service_connect_run.
    destruct (accept_ok _ ws); unfold world_of; simpl; [|exact IH].
    apply (service_no_empty_registered cid
             (Service.new_connection env now ws cid token tok)) in IH.
    exact IH.
  - apply keeps_disconnect; [no_empty_side | exact IH].
  - apply keeps_handle_message; try no_empty_side. exact IH.
  - apply keeps_subscribe; [no_empty_side | exact IH].
  - apply keeps_unsubscribe; [|exact IH].
    intros s0 cid0 sid0 c0 H0 _. exact (service_no_empty_unsubscribed cid0 sid0 s0 H0).
  - apply keeps_broadcast_to_session; [no_empty_side | exact IH].
  - apply keeps_broadcast_to_user; [no_empty_side | exact IH].
  - apply keeps_heartbeat_monitor; [no_empty_side | exact IH].
  - apply keeps_stop_service; try no_empty_side. exact IH.
Qed.

(** *** The index maps name registered connections only *)

Lemma index_get_discard_all cid l d sid' cid' :
  cid' ∈ index_get sid' (foldl (fun d sid => index_discard sid cid d) d l)
  <-> cid' ∈ index_get sid' d /\ ~ (cid' = cid /\ sid' ∈ l).
Proof.
  revert d. induction l as [|x l IH]; intros d; simpl.
  - split; [intros H; split; [exact H|] | intros [H _]; exact H].
    intros [_ Hin]. inversion Hin.
  - rewrite IH, index_get_discard. split.
    + intros [[Hin Hx] Hl]. split; [exact Hin|].
      intros [-> Hmem]. apply elem_of_cons in Hmem as [->|Hmem]; [apply Hx|apply Hl]; auto.
    + intros [Hin Hno]. repeat split; [exact Hin| |].
      * intros [-> ->]. apply Hno. split; [reflexivity|]. apply elem_of_cons. auto.
      * intros [-> Hmem]. apply Hno. split; [reflexivity|]. apply elem_of_cons. auto.
Qed.

Lemma index_get_delete k k' (d : gmap string (gset string)) c :
  c ∈ index_get k' (delete k d) -> c ∈ index_get k' d.
Proof.
  unfold index_get. destruct (decide (k = k')) as [->|Hne].
  - rewrite lookup_delete_eq. simpl. set_solver.
  - rewrite lookup_delete_ne by done. auto.
Qed.

Lemma service_consistent_mark s cid c (f : Service.WebSocketConnection -> Service.WebSocketConnection) :
  (forall x, Service.subscribed_sessions (f x) = Service.subscribed_sessions x) ->
  (forall x, Service.user_id (f x) = Service.user_id x) ->
  Service.consistent s -> Service.connections s !! cid = Some c ->
  Service.consistent (Service.set_connections <[cid := f c]> s).
Proof.
  intros Hs Hu [H1 H2] E. split.
  - intros sid cid' Hin. destruct (H1 sid cid' Hin) as (c' & Hc' & Hsub).
    simpl. destruct (decide (cid = cid')) as [->|Hne].
    + rewrite lookup_insert_eq. eexists. split; [reflexivity|].
      rewrite Hs. congruence.
    + rewrite lookup_insert_ne by done. eauto.
  - intros user cid' Hin. destruct (H2 user cid' Hin) as (c' & Hc' & Huser).
    simpl. destruct (decide (cid = cid')) as [->|Hne].
    + rewrite lookup_insert_eq. eexists. split; [reflexivity|].
      rewrite Hu. congruence.
    + rewrite lookup_insert_ne by done. eauto.
Qed.

Lemma service_consistent_alter s cid (f : Service.WebSocketConnection -> Service.WebSocketConnection) :
  (forall x, Service.subscribed_sessions (f x) = Service.subscribed_sessions x) ->
  (forall x, Service.user_id (f x) = Service.user_id x) ->
  Service.consistent s ->
  Service.consistent (Service.set_connections (alter f cid) s).
Proof.
  intros Hs Hu H.
  destruct (Service.connections s !! cid) as [c|] eqn:E.
  - assert (alter f cid (Service.connections s) = <[cid := f c]> (Service.connections s)) as Heq.
    { apply map_eq. intros k. rewrite lookup_alter.
      destruct (decide (cid = k)) as [->|Hne].
      - rewrite lookup_insert_eq, E. reflexivity.
      - rewrite lookup_insert_ne by done. reflexivity. }
    unfold Service.set_connections. rewrite Heq.
    apply (service_consistent_mark s cid c f Hs Hu H E).
  - assert (alter f cid (Service.connections s) = Service.connections s) as Heq.
    { apply map_eq. intros k. rewrite lookup_alter.
      destruct (decide (cid = k)) as [->|Hne]; [rewrite E|]; reflexivity. }
    unfold Service.set_connections. rewrite Heq. destruct s; exact H.
Qed.

Lemma service_consistent_subscribed s cid sid c :
  Service.consistent s -> Service.connections s !! cid = Some c ->
  Service.consistent (Service.subscribed cid sid s).
Proof.
  intros [H1 H2] E. split.
  - intros sid' cid'. unfold Service.subscribers, Service.subscribed. simpl.
    rewrite index_get_add, lookup_alter. intros [Hin|[-> ->]].
    + destruct (H1 sid' cid' Hin) as (c' & Hc' & Hsub).
      destruct (decide (cid = cid')) as [->|Hne]; rewrite Hc'; simpl.
      * eexists. split; [reflexivity|]. simpl. set_solver.
      * eauto.
    + rewrite decide_True by done. rewrite E. simpl.
      eexists. split; [reflexivity|]. simpl. set_solver.
  - intros user cid' Hin. destruct (H2 user cid' Hin) as (c' & Hc' & Huser).
    unfold Service.subscribed. simpl. rewrite lookup_alter.
    destruct (decide (cid = cid')) as [->|Hne]; rewrite Hc'; simpl; eauto.
Qed.

Lemma service_consistent_unsubscribed s cid sid c :
  Service.consistent s -> Service.connections s !! cid = Some c ->
  Service.consistent (Service.unsubscribed cid sid s).
Proof.
  intros [H1 H2] E. split.
  - intros sid' cid'. unfold Service.subscribers, Service.unsubscribed. simpl.
    rewrite index_get_discard, lookup_alter. intros [Hin Hno].
    destruct (H1 sid' cid' Hin) as (c' & Hc' & Hsub).
    destruct (decide (cid = cid')) as [->|Hne]; rewrite Hc'; simpl.
    + eexists. split; [reflexivity|]. simpl.
      apply elem_of_difference. split; [exact Hsub|].
      intros Heq%elem_of_singleton. apply Hno. auto.
    + eauto.
  - intros user cid' Hin. destruct (H2 user cid' Hin) as (c' & Hc' & Huser).
    unfold Service.unsubscribed. simpl. rewrite lookup_alter.
    destruct (decide (cid = cid')) as [->|Hne]; rewrite Hc'; simpl; eauto.
Qed.

Lemma service_consistent_unregistered s cid c :
  Service.consistent s -> Service.connections s !! cid = Some c ->
  Service.consistent (Service.unregistered cid c s).
Proof.
  intros [H1 H2] E. split.
  - intros sid' cid'. unfold Service.subscribers, Service.unregistered. simpl.
    rewrite index_get_discard_all. intros [Hin Hno].
    destruct (H1 sid' cid' Hin) as (c' & Hc' & Hsub).
    destruct (decide (cid = cid')) as [->|Hne].
    + exfalso. apply Hno. split; [reflexivity|].
      apply elem_of_elements. congruence.
    + rewrite lookup_delete_ne by done. eauto.
  - intros user cid'. unfold Service.connections_of_user, Service.unregistered. simpl.
    intros Hin.
    assert (cid' ∈ index_get user (Service.user_connections s)
            /\ (cid' = cid -> Service.user_id c <> Some user)) as [Hold Hne].
    { destruct (Service.user_id c) as [u|] eqn:Eu.
      - apply index_get_discard in Hin as [Hin Hno]. split; [exact Hin|].
        intros -> [= ->]. apply Hno. auto.
      - split; [exact Hin | discriminate]. }
    destruct (H2 user cid' Hold) as (c' & Hc' & Huser).
    destruct (decide (cid = cid')) as [->|Hc].
    + exfalso. apply Hne; [reflexivity | congruence].
    + rewrite lookup_delete_ne by done. eauto.
Qed.

Lemma service_consistent_registered s cid c :
  Service.consistent s -> Service.connections s !! cid = None ->
  Service.consistent (Service.registered cid c s).
Proof.
  intros [H1 H2] E. split.
  - intros sid' cid' Hin. destruct (H1 sid' cid' Hin) as (c' & Hc' & Hsub).
    simpl. rewrite lookup_insert_ne by congruence. eauto.
  - intros user cid'. unfold Service.connections_of_user, Service.registered. simpl.
    intros Hin.
    assert (cid' ∈ index_get user (Service.user_connections s)
            \/ (cid' = cid /\ Service.user_id c = Some user)) as [Hold|[-> Hu]].
    { destruct (Service.user_id c) as [u|] eqn:Eu.
      - apply index_get_add in Hin as [Hin|[-> ->]]; auto.
      - auto. }
    + destruct (H2 user cid' Hold) as (c' & Hc' & Huser).
      rewrite lookup_insert_ne by congruence. eauto.
    + rewrite lookup_insert_eq. eauto.
Qed.

Lemma service_consistent_after_send env msg s cid c :
  Service.consistent s -> Service.connections s !! cid = Some c ->
  Service.consistent
    (Service.set_connections <[cid := Service.after_send env msg c]> s).
Proof.
  intros H E. apply (service_consistent_mark s cid c (Service.after_send env msg)); auto.
  - intros x. unfold Service.after_send. destruct (_ && _); reflexivity.
  - intros x. unfold Service.after_send. destruct (_ && _); reflexivity.
Qed.

Ltac consistent_side :=
  let H := fresh "H" in
  let E := fresh "E" in
  first
    [ intros ? ? ? H E;
      exact (service_consistent_mark _ _ _ (Service.set_is_active false)
               (fun _ => eq_refl) (fun _ => eq_refl) H E)
    | intros ? ? ? H;
      exact (service_consistent_alter _ _ (Service.set_last_ping _)
               (fun _ => eq_refl) (fun _ => eq_refl) H)
    | intros ? ? ? ? H E; exact (service_consistent_subscribed _ _ _ _ H E)
    | intros ? ? ? ? H E; exact (service_consistent_unsubscribed _ _ _ _ H E)
    | intros ? ? ? H E; exact (service_consistent_unregistered _ _ _ H E)
    | intros ? ? [? ?]; split;
      [ intros ? ? ?%index_get_delete; eauto | assumption ]
    | intros ? _; split; intros ? ?; unfold Service.subscribers,
        Service.connections_of_user, index_get; simpl;
      rewrite lookup_empty; simpl; set_solver ].

Lemma service_reachable_consistent w :
  Service.reachable w -> Service.consistent (self w).
Proof.
  induction 1 as [|w env now ws cid token tok Hr IH Hfresh|w env cid Hr IH
                  |w env now cid msg Hr IH|w cid sid Hr IH|w cid sid Hr IH
                  |w env sid msg ex Hr IH|w env user msg Hr IH
                  |w env wakeups Hr IH|w env Hr IH].
  - split; intros ? ?; unfold Service.subscribers, Service.connections_of_user,
      index_get; simpl; rewrite lookup_empty; simpl; set_solver.
  - rewrite service_connect_run.
    destruct (accept_ok _ ws); unfold world_of; simpl; [|exact IH].
    apply service_consistent_after_send.
    + apply service_consistent_registered; assumption.
    + simpl. apply lookup_insert_eq.
  - apply keeps_disconnect; [consistent_side | exact IH].
  - apply keeps_handle_message; try consistent_side. exact IH.
  - apply keeps_subscribe; [consistent_side | exact IH].
  - apply keeps_unsubscribe; [|exact IH].
    intros s0 cid0 sid0 c0 H0 E0. exact (service_consistent_unsubscribed s0 cid0 sid0 c0 H0 E0).
  - apply keeps_broadcast_to_session; [consistent_side | exact IH].
  - apply keeps_broadcast_to_user; [consistent_side | exact IH].
  - apply keeps_heartbeat_monitor; [consistent_side | exact IH].
  - apply keeps_stop_service; try consistent_side. exact IH.
Qed.

Lemma service_reachable_configured w :
  Service.reachable w -> Service.configured (self w).
Proof.
  induction 1 as [|w env now ws cid token tok Hr IH Hfresh|w env cid Hr IH
                  |w env now cid msg Hr IH|w cid sid Hr IH|w cid sid Hr IH
                  |w env sid msg ex Hr IH|w env user msg Hr IH
                  |w env wakeups Hr IH|w env Hr IH].
  - split; reflexivity.
  - rewrite service_connect_run.
    destruct (accept_ok _ ws); unfold world_of; simpl; exact IH.
  - apply keeps_disconnect; [|exact IH]. intros ? ? ? H _; exact H.
  - apply keeps_handle_message; try exact IH; try (intros; assumption).
  - apply keeps_subscribe; [|exact IH]. intros; assumption.
  - apply keeps_unsubscribe; [|exact IH]. intros; assumption.
  - apply keeps_broadcast_to_session; [|exact IH]. intros; assumption.
  - apply keeps_broadcast_to_user; [|exact IH]. intros; assumption.
  - apply keeps_heartbeat_monitor; [|exact IH]. intros; assumption.
  - apply keeps_stop_service; try exact IH; intros; assumption.
Qed.

(** ** The service: a broadcast loop *)

Lemma service_deliveries_frame env msg s cid c l :
  cid ∉ l ->
  Service.deliveries env msg (Service.set_connections <[cid := c]> s) l
  = Service.deliveries env msg s l.
Proof.
  induction l as [|x l IH]; intros Hnot; simpl; [reflexivity|].
  apply not_elem_of_cons in Hnot as [Hne Hnot].
  rewrite lookup_insert_ne by done. rewrite IH by exact Hnot. reflexivity.
Qed.

Lemma service_for_each_send_run env msg l w :
  NoDup l ->
  for_each l (Service.send_if_active env msg) w
  = (Returns tt,
     World (Service.after_deliveries env msg (self w) l)
           (wire w ++ Service.deliveries env msg (self w) l)).
Proof.
  intros Hnd. revert w. induction Hnd as [|x l Hx Hnd IH]; intros [s t]; simpl.
  - rewrite app_nil_r. reflexivity.
  - unfold bind. rewrite service_send_if_active_run. simpl.
    destruct (Service.connections s !! x) as [c|] eqn:E.
    + rewrite IH. simpl. rewrite service_deliveries_frame by exact Hx.
      rewrite <- app_assoc. reflexivity.
    + rewrite IH. reflexivity.
Qed.

Lemma service_broadcast_run env sid msg w :
  Service.broadcast_to_session env sid msg None w
  = (Returns tt,
     World (Service.after_deliveries env msg (self w)
              (elements (Service.subscribers sid (self w))))
           (wire w ++ Service.deliveries env msg (self w)
                        (elements (Service.subscribers sid (self w))))).
Proof.
  unfold Service.broadcast_to_session. unfold try_except, bind at 1, get_self.
  simpl. change (fun cid : string => Service.send_if_active env msg cid)
    with (Service.send_if_active env msg).
  unfold Service.subscribers.
  rewrite service_for_each_send_run by apply NoDup_elements. reflexivity.
Qed.

Lemma service_deliveries_elem env msg s l cid c :
  cid ∈ l -> Service.connections s !! cid = Some c -> Service.is_active c = true ->
  io_send_text (Service.websocket c) msg
    (send_ok (Service.net env) (Service.websocket c) msg)
  ∈ Service.deliveries env msg s l.
Proof.
  intros Hin E Ha. unfold Service.deliveries. apply list_elem_of_In, in_flat_map.
  exists cid. split; [apply list_elem_of_In, Hin|].
  rewrite E. unfold Service.sending. rewrite Ha. left. reflexivity.
Qed.

Lemma service_deliveries_inactive env msg s l ws :
  (forall cid c, cid ∈ l -> Service.connections s !! cid = Some c ->
     Service.is_active c = true -> Service.websocket c <> ws) ->
  written_to ws (Service.deliveries env msg s l) = [].
Proof.
  induction l as [|x l IH]; intros H; simpl; [reflexivity|].
  assert (Hl : written_to ws (Service.deliveries env msg s l) = []).
  { apply IH. intros cid c Hin. apply H. apply elem_of_cons. auto. }
  destruct (Service.connections s !! x) as [c|] eqn:E; [|exact Hl].
  unfold Service.sending. destruct (Service.is_active c) eqn:Ha; [|exact Hl].
  simpl. rewrite decide_False; [exact Hl|].
  apply (H x c); [apply elem_of_cons; auto | exact E | exact Ha].
Qed.


(** The stream test of [_handle_chat_message] holds for no request: the
    values of [ChatMode] are lower-case. *)
Lemma wants_stream_never req : Service.wants_stream req = false.
Proof.
  unfold Service.wants_stream. destruct (Service.rq_mode req); reflexivity.
Qed.

Lemma service_stream_reply_wire env sid responses err w :
  wire (world_of (Service.stream_reply env sid (responses, err) w))
  = (wire w ++ Service.stream_deliveries env sid responses (self w))%list.
Proof.
  unfold Service.stream_reply. simpl. revert w.
  induction responses as [|x l IH]; intros w; simpl.
  - unfold bind, ret, world_of. simpl. rewrite app_nil_r.
    destruct err; reflexivity.
  - unfold bind, world_of in *. rewrite service_broadcast_run.
    specialize (IH (World
      (Service.after_deliveries env (Service.chat_stream x) (self w)
         (elements (Service.subscribers sid (self w))))
      (wire w ++ Service.deliveries env (Service.chat_stream x) (self w)
                   (elements (Service.subscribers sid (self w)))))).
    simpl in IH. rewrite <- app_assoc in IH.
    destruct (for_each l _ _) as [[[]|e] w']; simpl in *; [|exact IH].
    destruct err; exact IH.
Qed.

(** ** The service: a chat turn *)

(** What the [except] clause of [_handle_chat_message] does. *)
Lemma service_chat_failure_run env cid e w c :
  Service.connections (self w) !! cid = Some c ->
  (Service.on_connection cid false
     (Service.Conn.send_message (Service.net env) (Service.chat_error (str_exn e))) ;;;
   ret tt) w
  = (Returns tt,
     World (Service.set_connections
              <[cid := Service.after_send env (Service.chat_error (str_exn e)) c]>
              (self w))
           (wire w ++ Service.sending env (Service.chat_error (str_exn e)) c)).
Proof.
  intros E. unfold bind. rewrite on_connection_send_run, E. reflexivity.
Qed.

Lemma service_handle_chat_dispatch env now cid msg w c :
  Service.connections (self w) !! cid = Some c ->
  Service.is_active c = true ->
  Service.in_type msg = Some "chat_message" ->
  Service.handle_message env now cid msg w
  = Service._handle_chat_message env cid c msg w.
Proof.
  intros E Ha Ht. unfold Service.handle_message.
  unfold try_except at 1. unfold bind at 1, get_self. rewrite E, Ha. simpl.
  rewrite Ht. simpl.
  assert (Hnr : never_raises (Service._handle_chat_message env cid c msg)).
  { apply never_raises_try_except. intros e w0. unfold bind, result_of.
    rewrite on_connection_send_run.
    destruct (Service.connections (self w0) !! cid); eexists; reflexivity. }
  destruct (Hnr w) as [a Ha']. unfold result_of in Ha'.
  destruct (Service._handle_chat_message env cid c msg w) as [r w']; simpl in *.
  subst r. reflexivity.
Qed.

(** The handler reads [chat_response.ai_message_id] before any other
    attribute that [ChatResponse] lacks, and raises there. *)
Lemma service_response_message_run res w :
  Service.response_message res w
  = (Raises (AttributeError "ChatResponse" "ai_message_id"), w).
Proof. reflexivity. Qed.

(** What a chat turn comes to: whether the chat service raises or hands
    back its response, the [except] clause of the handler runs, from the
    state [subscribe_session] leaves. *)
Lemma service_handle_chat_run env cid msg w c req :
  Service.connections (self w) !! cid = Some c ->
  Service.ChatRequest_of env (Service.in_data msg) = Returns req ->
  let sid := Service.str_session_id (Service.rq_session_id req) in
  let w1 := World (Service.subscribed cid sid (self w)) (wire w) in
  Service._handle_chat_message env cid c msg w
  = match Service.send_message env req (Service.user_id c) (Service.session_token c) with
    | Returns res =>
        (Service.on_connection cid false
           (Service.Conn.send_message (Service.net env)
              (Service.chat_error
                 (str_exn (AttributeError "ChatResponse" "ai_message_id")))) ;;;
         ret tt) w1
    | Raises e =>
        (Service.on_connection cid false
           (Service.Conn.send_message (Service.net env)
              (Service.chat_error (str_exn e))) ;;; ret tt) w1
    end.
Proof.
  intros E Hreq sid w1. unfold Service._handle_chat_message.
  unfold try_except at 1. unfold bind at 1, Service.call at 1. rewrite Hreq.
  unfold bind at 1. rewrite service_subscribe_run, E. fold sid. fold w1.
  unfold Service.chat_reply. rewrite wants_stream_never. fold sid.
  unfold bind at 1, Service.call at 1.
  destruct (Service.send_message env req _ _) as [res|e]; reflexivity.
Qed.

(** * The properties of the specification *)

(** C4: [unregister] is idempotent. In both managers, [disconnect] never
    raises, and a second [disconnect] of the same identifier, right after
    the first, returns without changing anything: neither the registry nor
    the wire. This holds in every state, for identifiers that are
    registered and for those that are not. *)
Theorem unregister_idempotent env cid w cid' m :
  let w1 := world_of (Service.disconnect env cid w) in
  let m1 := world_of (Manager.disconnect cid' m) in
  result_of (Service.disconnect env cid w) = Returns tt
  /\ Service.disconnect env cid w1 = (Returns tt, w1)
  /\ result_of (Manager.disconnect cid' m) = Returns tt
  /\ Manager.disconnect cid' m1 = (Returns tt, m1).
Proof.
  simpl. repeat split.
  - rewrite service_disconnect_run.
    destruct (Service.connections (self w) !! cid); reflexivity.
  - rewrite (service_disconnect_run env cid w).
    destruct (Service.connections (self w) !! cid) as [c|] eqn:E;
      unfold world_of; simpl.
    + rewrite service_disconnect_run. simpl. rewrite lookup_delete_eq. reflexivity.
    + rewrite service_disconnect_run, E. reflexivity.
  - rewrite manager_disconnect_run. reflexivity.
  - rewrite !manager_disconnect_run. unfold world_of. simpl.
    rewrite manager_unregistered_twice. reflexivity.
Qed.

(** C10: a message for a connection identifier that is not registered,
    or whose connection is marked inactive, is dropped by
    [handle_message]: it returns, nothing is dispatched, nothing is
    written to any socket and the registry is as it was. *)
Theorem handle_message_drops_unknown_and_inactive env now cid msg w :
  (Service.connections (self w) !! cid = None
   \/ exists c, Service.connections (self w) !! cid = Some c
                /\ Service.is_active c = false) ->
  Service.handle_message env now cid msg w = (Returns tt, w).
Proof.
  intros H. unfold Service.handle_message, try_except, bind, get_self. simpl.
  destruct H as [E|(c & E & Ha)]; rewrite E; [reflexivity|].
  rewrite Ha. reflexivity.
Qed.

Lemma handle_message_drops_witness :
  Service.handle_message (Example.env Example.up (Returns Example.reply)) 0 "c2"
    Example.chat Example.one_tab_dead
  = (Returns tt, Example.one_tab_dead).
Proof.
  apply handle_message_drops_unknown_and_inactive.
  right. eexists. split; [vm_compute; reflexivity | reflexivity].
Defined.

Lemma no_empty_entry_last k (d : gmap string (gset string)) :
  no_empty_entry d -> index_get k d = ∅ -> d !! k = None.
Proof.
  intros H Hget. unfold index_get in Hget.
  destruct (d !! k) as [X|] eqn:E; [|reflexivity].
  simpl in Hget. subst X. exfalso. exact (H k ∅ E eq_refl).
Qed.

(** C7: neither index ever maps a key to the empty set. From a state
    where [session_connections] and [user_connections] (in the manager:
    [session_subscriptions]) have no empty entry, every registry operation
    (register, unregister, subscribe, unsubscribe, session delete, and
    with them every message handled) leaves a state with no empty entry;
    so a key whose last member was just removed has no entry left. *)
Theorem index_maps_keep_no_empty_entry
    (w : world Service.WebSocketService Service.Message)
    (m : world Manager.ConnectionManager Manager.Message)
    (Hw : Service.no_empty_entries (self w))
    (Hm : no_empty_entry (Manager.session_subscriptions (self m))) :
  (forall env now ws cid token tok,
     Service.no_empty_entries
       (self (world_of (Service.connect env now ws cid token tok w))))
  /\ (forall env cid,
        Service.no_empty_entries (self (world_of (Service.disconnect env cid w))))
  /\ (forall cid sid,
        Service.no_empty_entries (self (world_of (Service.subscribe_session cid sid w))))
  /\ (forall cid sid,
        Service.no_empty_entries
          (self (world_of (Service.unsubscribe_session cid sid w))))
  /\ (forall env cid c msg,
        Service.no_empty_entries
          (self (world_of (Service._handle_session_delete env cid c msg w))))
  /\ (forall env now cid msg,
        Service.no_empty_entries
          (self (world_of (Service.handle_message env now cid msg w))))
  /\ (forall cid sid,
        let w' := world_of (Service.unsubscribe_session cid sid w) in
        Service.subscribers sid (self w') = ∅ ->
        Service.session_connections (self w') !! sid = None)
  /\ (forall env cid sid user,
        let w' := world_of (Service.disconnect env cid w) in
        (Service.subscribers sid (self w') = ∅ ->
         Service.session_connections (self w') !! sid = None)
        /\ (Service.connections_of_user user (self w') = ∅ ->
            Service.user_connections (self w') !! user = None))
  /\ (forall net now ws cid sid uid,
        no_empty_entry
          (Manager.session_subscriptions
             (self (world_of (Manager.connect net now ws cid sid uid m)))))
  /\ (forall cid,
        let m' := world_of (Manager.disconnect cid m) in
        no_empty_entry (Manager.session_subscriptions (self m'))
        /\ forall sid, Manager.subscribers sid (self m') = ∅ ->
                       Manager.session_subscriptions (self m') !! sid = None).
Proof.
  assert (Hdis : forall env cid,
    Service.no_empty_entries (self (world_of (Service.disconnect env cid w)))).
  { intros env cid. apply keeps_disconnect; [no_empty_side | exact Hw]. }
  assert (Hunsub : forall cid sid,
    Service.no_empty_entries (self (world_of (Service.unsubscribe_session cid sid w)))).
  { intros cid sid. apply keeps_unsubscribe; [|exact Hw].
    intros s0 cid0 sid0 c0 H0 _. exact (service_no_empty_unsubscribed cid0 sid0 s0 H0). }
  assert (Hmdis : forall cid,
    no_empty_entry (Manager.session_subscriptions
                      (self (world_of (Manager.disconnect cid m))))).
  { intros cid. rewrite manager_disconnect_run. unfold world_of. simpl.
    apply manager_unregistered_no_empty, Hm. }
  split.
  { intros env now ws cid token tok. rewrite service_connect_run.
    destruct (accept_ok _ ws); unfold world_of; simpl; [|apply Hw].
    apply (service_no_empty_registered cid
             (Service.new_connection env now ws cid token tok) _ Hw). }
  split; [exact Hdis|].
  split.
  { intros cid sid. apply keeps_subscribe; [no_empty_side | exact Hw]. }
  split; [exact Hunsub|].
  split.
  { intros env cid c msg.
    apply keeps_handle_session_delete; try no_empty_side. exact Hw. }
  split.
  { intros env now cid msg.
    apply keeps_handle_message; try no_empty_side. exact Hw. }
  split.
  { intros cid sid. simpl. apply no_empty_entry_last, Hunsub. }
  split.
  { intros env cid sid user. simpl.
    split; apply no_empty_entry_last, Hdis. }
  split.
  { intros net now ws cid sid uid. rewrite manager_connect_run.
    destruct (accept_ok net ws); unfold world_of at 1; simpl; [|exact Hm].
    apply (manager_send_preserves
             (fun x => no_empty_entry (Manager.session_subscriptions x))).
    - intros x. apply manager_unregistered_no_empty.
    - simpl. apply no_empty_entry_add, Hm. }
  intros cid. simpl. split; [apply Hmdis|].
  intros sid. apply no_empty_entry_last, Hmdis.
Qed.

Lemma index_maps_no_empty_witness :
  Service.session_connections
    (self (world_of (Service.unsubscribe_session "c2" "S1" Example.two_tabs)))
  !! "S1" = None
  /\ Manager.session_subscriptions
       (self (world_of (Manager.disconnect "c1" Example.one_socket)))
     !! "S1" = None.
Proof.
  assert (Hw : Service.no_empty_entries (self Example.two_tabs)).
  { apply service_reachable_no_empty. unfold Example.two_tabs.
    apply Service.reach_subscribe, Service.reach_connect;
      [apply Service.reach_connect; [apply Service.reach_init | reflexivity]
      | vm_compute; reflexivity]. }
  assert (Hm : no_empty_entry (Manager.session_subscriptions (self Example.one_socket))).
  { intros k X. vm_compute. intros H.
    destruct (decide (k = "S1")) as [->|Hne].
    - vm_compute in H. injection H as <-. discriminate.
    - revert H. change (<[ "S1" := ({[ "c1" ]} : gset string) ]> (∅ : gmap string (gset string)) !! k = Some X -> X <> ∅).
      rewrite lookup_insert_ne by congruence. rewrite lookup_empty. discriminate. }
  pose proof (index_maps_keep_no_empty_entry
                Example.two_tabs Example.one_socket Hw Hm) as H.
  split.
  - apply (proj1 (proj2 (proj2 (proj2 (proj2 (proj2 (proj2 H)))))) "c2" "S1").
    vm_compute. reflexivity.
  - apply (proj2 (proj2 (proj2 (proj2 (proj2 (proj2 (proj2 (proj2 (proj2 (proj2 H))))))))
                    "c1") "S1").
    vm_compute. reflexivity.
Defined.

Lemma written_to_app {M} ws (a b : list (io M)) :
  written_to ws (a ++ b) = (written_to ws a ++ written_to ws b)%list.
Proof.
  induction a as [|x a IH]; simpl; [reflexivity|].
  destruct x; try exact IH. destruct (decide _); simpl; rewrite IH; reflexivity.
Qed.

Lemma service_subscribed_lookup cid sid s cid' :
  Service.connections (Service.subscribed cid sid s) !! cid'
  = (if decide (cid = cid')
     then Service.set_subscribed_sessions (fun X => X ∪ {[sid]})
          <$> Service.connections s !! cid'
     else Service.connections s !! cid').
Proof.
  unfold Service.subscribed. simpl. rewrite lookup_alter.
  destruct (decide (cid = cid')) as [->|]; reflexivity.
Qed.

Lemma sender_subscribed_mark cid sid s cid' c :
  Service.sender_subscribed cid sid s -> Service.connections s !! cid' = Some c ->
  Service.sender_subscribed cid sid
    (Service.set_connections <[cid' := Service.set_is_active false c]> s).
Proof.
  intros [Hin (c0 & E0 & Hs)] E. split; [exact Hin|]. simpl.
  destruct (decide (cid' = cid)) as [->|Hne].
  - rewrite lookup_insert_eq. eexists. split; [reflexivity|]. simpl. congruence.
  - rewrite lookup_insert_ne by done. eauto.
Qed.

(** C9: handling a [chat_message] subscribes the sender to the
    message's session before the chat service is called. For a registered,
    active connection and a message that validates as a chat request, the
    rest of the turn (the call into the chat service, the broadcast of its
    reply, the error path) runs from the state [subscribe_session] leaves,
    in which the sender is in the session's subscriber set and holds the
    session in its [subscribed_sessions]; both still hold when the handler
    returns. No earlier subscribe request is assumed. *)
Theorem chat_message_subscribes_sender env now cid msg w c req :
  Service.connections (self w) !! cid = Some c ->
  Service.is_active c = true ->
  Service.in_type msg = Some "chat_message" ->
  Service.ChatRequest_of env (Service.in_data msg) = Returns req ->
  let sid := Service.str_session_id (Service.rq_session_id req) in
  let w1 := world_of (Service.subscribe_session cid sid w) in
  let w' := world_of (Service.handle_message env now cid msg w) in
  Service.sender_subscribed cid sid (self w1)
  /\ Service.handle_message env now cid msg w
     = try_except
         (Service.chat_reply env req (Service.user_id c) (Service.session_token c))
         (fun e =>
            Service.on_connection cid false
              (Service.Conn.send_message (Service.net env)
                 (Service.chat_error (str_exn e))) ;;; ret tt) w1
  /\ Service.sender_subscribed cid sid (self w').
Proof.
  intros E Ha Ht Hreq sid w1 w'.
  assert (H1 : Service.sender_subscribed cid sid (self w1)).
  { subst w1. rewrite service_subscribe_run, E. unfold world_of. simpl. split.
    - unfold Service.subscribers, Service.subscribed. simpl.
      apply index_get_add. auto.
    - rewrite service_subscribed_lookup, decide_True by done. rewrite E. simpl.
      eexists. split; [reflexivity|]. simpl. set_solver. }
  assert (Hrun : Service.handle_message env now cid msg w
     = try_except
         (Service.chat_reply env req (Service.user_id c) (Service.session_token c))
         (fun e =>
            Service.on_connection cid false
              (Service.Conn.send_message (Service.net env)
                 (Service.chat_error (str_exn e))) ;;; ret tt) w1).
  { rewrite (service_handle_chat_dispatch env now cid msg w c E Ha Ht).
    unfold Service._handle_chat_message.
    unfold try_except at 1. unfold bind at 1, Service.call at 1. rewrite Hreq.
    unfold bind at 1. subst w1. fold sid.
    destruct (Service.subscribe_session cid sid w) as [[b|e] w0] eqn:Es.
    - reflexivity.
    - rewrite service_subscribe_run, E in Es. discriminate. }
  split; [exact H1|]. split; [exact Hrun|].
  subst w'. rewrite Hrun.
  apply (preserves_try_except (Service.sender_subscribed cid sid)); [| |exact H1].
  - apply keeps_chat_reply. intros s cid' c'. apply sender_subscribed_mark.
  - intros e. keeps. apply keeps_on_send.
    intros s cid' c'. apply sender_subscribed_mark.
Qed.

Lemma chat_message_subscribes_witness :
  Service.sender_subscribed "c1" "S1"
    (self (world_of
       (Service.handle_message (Example.env Example.up (Returns Example.reply)) 0
          "c1" Example.chat Example.two_tabs))).
Proof.
  eapply (chat_message_subscribes_sender
            (Example.env Example.up (Returns Example.reply)) 0 "c1"
            Example.chat Example.two_tabs _ Example.request).
  - vm_compute. reflexivity.
  - reflexivity.
  - reflexivity.
  - reflexivity.
Defined.

(** C6: a failure of the chat service stays with the connection that
    asked. When [send_message] of the chat service raises during the turn
    of a registered, active connection [c1], [handle_message] returns and
    the turn writes exactly one message: one [chat_error] on the socket of
    [c1]. Nothing is written to any other socket, so a second subscriber
    [c2] of the session receives nothing: the error is not broadcast.
    (Every turn goes through [send_message]: see [wants_stream_never].) *)
Theorem chat_failure_reaches_originator_only env now c1 msg w conn req e :
  Service.connections (self w) !! c1 = Some conn ->
  Service.is_active conn = true ->
  Service.in_type msg = Some "chat_message" ->
  Service.ChatRequest_of env (Service.in_data msg) = Returns req ->
  Service.send_message env req (Service.user_id conn) (Service.session_token conn)
  = Raises e ->
  let r := Service.handle_message env now c1 msg w in
  let failure := Service.chat_error (str_exn e) in
  result_of r = Returns tt
  /\ wire (world_of r)
     = (wire w ++ [io_send_text (Service.websocket conn) failure
                     (send_ok (Service.net env) (Service.websocket conn) failure)])%list
  /\ written_to (Service.websocket conn) (wire (world_of r))
     = (written_to (Service.websocket conn) (wire w) ++ [failure])%list
  /\ (forall c2 conn2,
        Service.connections (self w) !! c2 = Some conn2 ->
        Service.websocket conn2 <> Service.websocket conn ->
        written_to (Service.websocket conn2) (wire (world_of r))
        = written_to (Service.websocket conn2) (wire w)).
Proof.
  intros E Ha Ht Hreq Hfail r failure.
  assert (Hr : r = (Returns tt,
    World (Service.set_connections
             <[c1 := Service.after_send env failure
                       (Service.set_subscribed_sessions
                          (fun X => X ∪ {[Service.str_session_id
                                            (Service.rq_session_id req)]}) conn)]>
             (Service.subscribed c1
                (Service.str_session_id (Service.rq_session_id req)) (self w)))
          (wire w ++ [io_send_text (Service.websocket conn) failure
                        (send_ok (Service.net env) (Service.websocket conn) failure)]))).
  { subst r. rewrite (service_handle_chat_dispatch env now c1 msg w conn E Ha Ht).
    rewrite (service_handle_chat_run env c1 msg w conn req E Hreq). rewrite Hfail.
    erewrite service_chat_failure_run; cycle 1.
    { cbn [self]. rewrite service_subscribed_lookup, decide_True by done.
      rewrite E. reflexivity. }
    unfold Service.sending. simpl. rewrite Ha. reflexivity. }
  rewrite Hr. unfold result_of, world_of. simpl.
  split; [reflexivity|]. split; [reflexivity|]. split.
  - rewrite written_to_app. simpl. rewrite decide_True by done. reflexivity.
  - intros c2 conn2 _ Hne. rewrite written_to_app. simpl.
    rewrite decide_False by congruence. apply app_nil_r.
Qed.

Lemma chat_failure_witness :
  written_to 1%nat
    (wire (world_of
       (Service.handle_message
          (Example.env Example.up (Raises (Exception "no such session"))) 0
          "c1" Example.chat Example.two_tabs)))
  = (written_to 1%nat (wire Example.two_tabs)
     ++ [Service.chat_error "no such session"])%list
  /\ written_to 2%nat
       (wire (world_of
          (Service.handle_message
             (Example.env Example.up (Raises (Exception "no such session"))) 0
             "c1" Example.chat Example.two_tabs)))
     = written_to 2%nat (wire Example.two_tabs).
Proof.
  pose proof (chat_failure_reaches_originator_only
                (Example.env Example.up (Raises (Exception "no such session"))) 0
                "c1" Example.chat Example.two_tabs
                (Service.new_connection
                   (Example.env Example.up (Returns Example.reply)) 0 1%nat "c1"
                   None None)
                Example.request (Exception "no such session")) as H.
  destruct H as (_ & _ & H1 & H2);
    [vm_compute; reflexivity | reflexivity | reflexivity | reflexivity
    | reflexivity |].
  split; [exact H1|].
  destruct (Service.connections (self Example.two_tabs) !! "c2") as [conn2|] eqn:E2;
    [|vm_compute in E2; discriminate].
  pose proof (H2 "c2" conn2 E2) as H3.
  vm_compute in E2. injection E2 as <-. apply H3. simpl. discriminate.
Defined.




(** ** The heartbeat sweeps *)

Lemma service_disconnect_each env l w :
  let w' := world_of (for_each l (Service.disconnect env) w) in
  result_of (for_each l (Service.disconnect env) w) = Returns tt
  /\ (forall cid,
        Service.connections (self w') !! cid
        = if decide (cid ∈ l) then None else Service.connections (self w) !! cid)
  /\ Service.heartbeat_timeout (self w') = Service.heartbeat_timeout (self w).
Proof.
  revert w. induction l as [|x l IH]; intros w; simpl.
  - split; [reflexivity|]. split; [|reflexivity]. intros cid.
    destruct (decide (cid ∈ [])) as [H|H]; [inversion H | reflexivity].
  - unfold bind, result_of, world_of. rewrite service_disconnect_run.
    destruct (Service.connections (self w) !! x) as [c|] eqn:E.
    + match goal with |- context [for_each l _ ?w0] =>
        destruct (IH w0) as (Hres & Hlook & Ht) end.
      unfold result_of, world_of in *.
      split; [exact Hres|]. split; [|rewrite Ht; reflexivity].
      intros cid. rewrite Hlook. simpl.
      destruct (decide (cid ∈ l)) as [Hin|Hout].
      * rewrite decide_True by (apply elem_of_cons; auto). reflexivity.
      * destruct (decide (cid = x)) as [->|Hne].
        -- rewrite decide_True by (apply elem_of_cons; auto).
           apply lookup_delete_eq.
        -- rewrite decide_False by (rewrite elem_of_cons; tauto).
           apply lookup_delete_ne. congruence.
    + destruct (IH w) as (Hres & Hlook & Ht). unfold result_of, world_of in *.
      split; [exact Hres|]. split; [|exact Ht].
      intros cid. rewrite Hlook.
      destruct (decide (cid ∈ l)) as [Hin|Hout].
      * rewrite decide_True by (apply elem_of_cons; auto). reflexivity.
      * destruct (decide (cid = x)) as [->|Hne].
        -- rewrite decide_True by (apply elem_of_cons; auto). exact E.
        -- rewrite decide_False by (rewrite elem_of_cons; tauto). reflexivity.
Qed.

Lemma service_timeout_connections_elem now s cid :
  cid ∈ Service.timeout_connections now s
  <-> exists c, Service.connections s !! cid = Some c
                /\ elapsed_more_than now (Service.last_ping c)
                     (Service.heartbeat_timeout s) = true.
Proof.
  unfold Service.timeout_connections.
  rewrite list_elem_of_In, filter_In, <- list_elem_of_In. split.
  - intros [_ H]. destruct (Service.connections s !! cid) as [c|]; [eauto|discriminate].
  - intros (c & E & H). split.
    + apply list_elem_of_fmap. exists (cid, c). split; [reflexivity|].
      apply elem_of_map_to_list. exact E.
    + rewrite E. exact H.
Qed.

Lemma service_sweep_run env now w :
  Service.heartbeat_sweep env now w
  = for_each (Service.timeout_connections now (self w)) (Service.disconnect env) w.
Proof.
  unfold Service.heartbeat_sweep, try_except, bind, get_self.
  pose proof (service_disconnect_each env
                (Service.timeout_connections now (self w)) w) as (Hres & _).
  unfold result_of in Hres.
  destruct (for_each _ _ w) as [r w']. simpl in *. subst r. reflexivity.
Qed.

(** One sweep: the overdue connections are gone, the others are left as
    they were. *)
Lemma service_sweep_lookup env now w cid :
  let w' := world_of (Service.heartbeat_sweep env now w) in
  result_of (Service.heartbeat_sweep env now w) = Returns tt
  /\ Service.heartbeat_timeout (self w') = Service.heartbeat_timeout (self w)
  /\ Service.connections (self w') !! cid
     = match Service.connections (self w) !! cid with
       | Some c =>
           if elapsed_more_than now (Service.last_ping c)
                (Service.heartbeat_timeout (self w))
           then None else Some c
       | None => None
       end.
Proof.
  simpl. rewrite service_sweep_run.
  destruct (service_disconnect_each env
              (Service.timeout_connections now (self w)) w) as (Hres & Hlook & Ht).
  split; [exact Hres|]. split; [exact Ht|]. rewrite Hlook.
  destruct (decide (cid ∈ Service.timeout_connections now (self w))) as [Hin|Hout].
  - apply service_timeout_connections_elem in Hin as (c & E & Hel).
    rewrite E, Hel. reflexivity.
  - destruct (Service.connections (self w) !! cid) as [c|] eqn:E; [|reflexivity].
    destruct (elapsed_more_than now (Service.last_ping c) _) eqn:Hel; [|reflexivity].
    exfalso. apply Hout, service_timeout_connections_elem. eauto.
Qed.

Lemma elapsed_more_than_spec now last n :
  elapsed_more_than now last n = true <-> seconds n < now - last.
Proof. unfold elapsed_more_than. apply Z.ltb_lt. Qed.

Lemma service_monitor_quiet env quiet w cid c :
  Service.connections (self w) !! cid = Some c ->
  Forall (fun t => t - Service.last_ping c
                   <= seconds (Service.heartbeat_timeout (self w))) quiet ->
  let w' := world_of (Service._heartbeat_monitor env quiet w) in
  result_of (Service._heartbeat_monitor env quiet w) = Returns tt
  /\ Service.heartbeat_timeout (self w') = Service.heartbeat_timeout (self w)
  /\ Service.connections (self w') !! cid = Some c.
Proof.
  intros E Hq. revert w E Hq. unfold Service._heartbeat_monitor.
  induction quiet as [|t quiet IH]; intros w E Hq; simpl.
  - auto.
  - apply Forall_cons in Hq as [Ht Hq].
    destruct (service_sweep_lookup env t w cid) as (Hres & Hto & Hlook).
    unfold bind, result_of, world_of in *.
    destruct (Service.heartbeat_sweep env t w) as [r w1]. simpl in *. subst r.
    rewrite E in Hlook.
    destruct (elapsed_more_than t (Service.last_ping c) _) eqn:Hel.
    { apply elapsed_more_than_spec in Hel. lia. }
    destruct (IH w1 Hlook) as (Hres' & Hto' & Hlook').
    { rewrite Hto. exact Hq. }
    split; [exact Hres'|]. split; [congruence | exact Hlook'].
Qed.

Lemma manager_heartbeat_round_run net now cid w md :
  Manager.connection_metadata (self w) !! cid = Some md ->
  Manager.heartbeat_round net now cid w
  = if elapsed_more_than now (Manager.last_heartbeat md) Manager.heartbeat_timeout
    then (Returns Manager.round_break,
          World (Manager.unregistered cid (self w)) (wire w))
    else (Returns Manager.round_next,
          world_of (Manager.send_personal_message net cid
                      Manager.heartbeat_request w)).
Proof.
  intros E. unfold Manager.heartbeat_round. unfold bind at 1, get_self. rewrite E.
  destruct (elapsed_more_than _ _ _).
  - unfold bind. rewrite manager_disconnect_run. reflexivity.
  - unfold bind, world_of. rewrite manager_send_run.
    destruct (Manager.active_connections (self w) !! cid) as [ws|]; [|reflexivity].
    destruct (send_ok net ws _); reflexivity.
Qed.

(** C2, as the code has it: a connection whose liveness timestamp is
    no longer updated is evicted by the first sweep that finds
    [now - last] above the timeout. In the service no sweep evicts it
    before: through any run of sweeps at which
    [now - last_ping <= heartbeat_timeout] the connection stays
    registered, unchanged, whatever its socket does, and the sweep after
    them at which [now - last_ping > heartbeat_timeout] unregisters it. In
    the manager a round of the connection's heartbeat loop disconnects it
    on account of the timeout exactly when [now - last_heartbeat > 60s];
    below that the round sends the heartbeat request instead, and the
    connection stays registered if its socket takes the request but is
    disconnected at once, within the timeout, if the write fails. Both are
    configured with an interval of 30 seconds and a timeout of 60, twice
    the interval, in every state the service reaches. *)
Theorem heartbeat_evicts_after_timeout
    env (w : world Service.WebSocketService Service.Message) cid c quiet late
    net (m : world Manager.ConnectionManager Manager.Message) mc md now :
  Service.connections (self w) !! cid = Some c ->
  Forall (fun t => t - Service.last_ping c
                   <= seconds (Service.heartbeat_timeout (self w))) quiet ->
  seconds (Service.heartbeat_timeout (self w)) < late - Service.last_ping c ->
  Manager.connection_metadata (self m) !! mc = Some md ->
  Service.connections (self (world_of (Service._heartbeat_monitor env quiet w))) !! cid
  = Some c
  /\ Service.connections
       (self (world_of (Service._heartbeat_monitor env (quiet ++ [late]) w))) !! cid
     = None
  /\ (seconds Manager.heartbeat_timeout < now - Manager.last_heartbeat md ->
      Manager.heartbeat_round net now mc m
      = (Returns Manager.round_break, world_of (Manager.disconnect mc m))
      /\ Manager.active_connections (self (world_of (Manager.disconnect mc m))) !! mc
         = None
      /\ Manager.connection_metadata (self (world_of (Manager.disconnect mc m))) !! mc
         = None)
  /\ (now - Manager.last_heartbeat md <= seconds Manager.heartbeat_timeout ->
      Manager.heartbeat_round net now mc m
      = (Returns Manager.round_next,
         world_of (Manager.send_personal_message net mc Manager.heartbeat_request m))
      /\ (forall ws, Manager.active_connections (self m) !! mc = Some ws ->
            send_ok net ws Manager.heartbeat_request = true ->
            self (world_of (Manager.heartbeat_round net now mc m)) = self m)
      /\ (forall ws, Manager.active_connections (self m) !! mc = Some ws ->
            send_ok net ws Manager.heartbeat_request = false ->
            self (world_of (Manager.heartbeat_round net now mc m))
            = Manager.unregistered mc (self m)
            /\ Manager.active_connections
                 (self (world_of (Manager.heartbeat_round net now mc m))) !! mc
               = None
            /\ Manager.connection_metadata
                 (self (world_of (Manager.heartbeat_round net now mc m))) !! mc
               = None))
  /\ Service.heartbeat_interval Service.init = 30
  /\ Service.heartbeat_timeout Service.init = 60
  /\ (Service.reachable w -> Service.configured (self w))
  /\ Manager.heartbeat_interval = 30
  /\ Manager.heartbeat_timeout = 60
  /\ 2 * Manager.heartbeat_interval <= Manager.heartbeat_timeout
  /\ 2 * Service.heartbeat_interval Service.init
     <= Service.heartbeat_timeout Service.init.
Proof.
  intros E Hq Hlate Emd.
  destruct (service_monitor_quiet env quiet w cid c E Hq) as (Hres & Hto & Hlook).
  split; [exact Hlook|]. split.
  { unfold Service._heartbeat_monitor in *. rewrite for_each_app.
    unfold bind, result_of, world_of in *.
    destruct (for_each quiet (Service.heartbeat_sweep env) w) as [r w1].
    simpl in *. subst r. unfold bind.
    destruct (service_sweep_lookup env late w1 cid) as (Hres1 & _ & Hlook1).
    unfold result_of, world_of in *.
    destruct (Service.heartbeat_sweep env late w1) as [r w2]. simpl in *. subst r.
    simpl. rewrite Hlook1, Hlook, Hto.
    rewrite (proj2 (elapsed_more_than_spec late (Service.last_ping c) _) Hlate).
    reflexivity. }
  split.
  { intros Hover. rewrite (manager_heartbeat_round_run net now mc m md Emd).
    rewrite (proj2 (elapsed_more_than_spec now _ _) Hover).
    rewrite manager_disconnect_run. unfold world_of. simpl.
    rewrite !lookup_delete_eq. auto. }
  split.
  { intros Hunder. rewrite (manager_heartbeat_round_run net now mc m md Emd).
    destruct (elapsed_more_than now (Manager.last_heartbeat md) _) eqn:Hel.
    { apply elapsed_more_than_spec in Hel. lia. }
    split; [reflexivity|]. split.
    - intros ws Ews Hok. unfold world_of. simpl.
      rewrite manager_send_run, Ews, Hok. reflexivity.
    - intros ws Ews Hok. unfold world_of. simpl.
      rewrite manager_send_run, Ews, Hok. simpl. rewrite !lookup_delete_eq. auto. }
  split; [reflexivity|]. split; [reflexivity|].
  split; [apply service_reachable_configured|].
  split; [reflexivity|]. split; [reflexivity|].
  split; [vm_compute; discriminate | vm_compute; discriminate].
Qed.

Lemma heartbeat_evicts_witness :
  Service.connections
    (self (world_of
       (Service._heartbeat_monitor (Example.env Example.up (Returns Example.reply))
          [seconds 30; seconds 60] Example.two_tabs))) !! "c1"
  = Some (Service.new_connection (Example.env Example.up (Returns Example.reply))
            0 1%nat "c1" None None)
  /\ Service.connections
       (self (world_of
          (Service._heartbeat_monitor (Example.env Example.up (Returns Example.reply))
             ([seconds 30; seconds 60] ++ [seconds 90]) Example.two_tabs))) !! "c1"
     = None.
Proof.
  pose proof (heartbeat_evicts_after_timeout
                (Example.env Example.up (Returns Example.reply)) Example.two_tabs "c1"
                (Service.new_connection
                   (Example.env Example.up (Returns Example.reply)) 0 1%nat "c1"
                   None None)
                [seconds 30; seconds 60] (seconds 90)
                Example.up Example.one_socket "c1"
                {| Manager.session_id := "S1"; Manager.user_id := None;
                   Manager.connected_at := 0; Manager.last_heartbeat := 0 |}
                (seconds 90)) as H.
  destruct H as (H1 & H2 & _).
  - vm_compute. reflexivity.
  - repeat constructor; vm_compute; discriminate.
  - vm_compute. reflexivity.
  - vm_compute. reflexivity.
  - split; [exact H1 | exact H2].
Defined.

(** C2 as stated fails for the manager: [c1] sent its last heartbeat
    at 0 and its socket no longer takes writes; the round of its heartbeat
    loop that wakes at 30 seconds, within the timeout of 60, disconnects
    it, since the heartbeat request cannot be written. *)
Lemma heartbeat_request_evicts_within_timeout :
  let r := Manager.heartbeat_round Example.mute (seconds 30) "c1" Example.one_socket in
  (Manager.last_heartbeat <$> Manager.connection_metadata (self Example.one_socket) !! "c1")
  = Some 0
  /\ seconds 30 - 0 <= seconds Manager.heartbeat_timeout
  /\ Manager.active_connections (self Example.one_socket) !! "c1" = Some 1%nat
  /\ result_of r = Returns Manager.round_next
  /\ Manager.active_connections (self (world_of r)) !! "c1" = None
  /\ Manager.connection_metadata (self (world_of r)) !! "c1" = None.
Proof. vm_compute. repeat split; first [reflexivity | discriminate]. Qed.

(** ** Failed sends and failed handshakes *)




(** C8, as the code has it: a failed handshake is reported by the value
    [connect] returns, never by an exception. [ConnectionManager.connect]
    returns [False] exactly when [accept] raises, and then changes nothing
    in the manager; after a handshake and a greeting that both go through,
    the connection is in [active_connections], [connection_metadata], the
    subscriber set of its session and [heartbeat_tasks], under the
    identifier the caller passed; after a handshake that goes through and
    a greeting that cannot be written, [connect] still returns [True] and
    the connection has been disconnected again: it is in neither
    [active_connections], [connection_metadata] nor [heartbeat_tasks].
    [WebSocketService.connect] returns
    [None] exactly when [accept] raises, changes nothing and tries to close
    the socket; otherwise it returns the connection object, registered in
    [connections] under the caller's identifier and, for an authenticated
    user, in that user's set of [user_connections]. *)
Theorem connect_reports_failure_by_value
    net now ws mc sid uid (m : world Manager.ConnectionManager Manager.Message)
    env cid token tok (w : world Service.WebSocketService Service.Message) :
  let rm := Manager.connect net now ws mc sid uid m in
  let rs := Service.connect env now ws cid token tok w in
  result_of rm = Returns (accept_ok net ws)
  /\ (accept_ok net ws = false ->
      world_of rm = World (self m) (wire m ++ [io_accept ws false]))
  /\ (accept_ok net ws = true ->
      send_ok net ws (Manager.connection_established mc sid) = true ->
      Manager.active_connections (self (world_of rm)) !! mc = Some ws
      /\ Manager.connection_metadata (self (world_of rm)) !! mc
         = Some {| Manager.session_id := sid; Manager.user_id := uid;
                   Manager.connected_at := now; Manager.last_heartbeat := now |}
      /\ mc ∈ Manager.subscribers sid (self (world_of rm))
      /\ mc ∈ Manager.heartbeat_tasks (self (world_of rm)))
  /\ (accept_ok net ws = true ->
      send_ok net ws (Manager.connection_established mc sid) = false ->
      result_of rm = Returns true
      /\ Manager.active_connections (self (world_of rm)) !! mc = None
      /\ Manager.connection_metadata (self (world_of rm)) !! mc = None
      /\ mc ∉ Manager.heartbeat_tasks (self (world_of rm)))
  /\ (accept_ok (Service.net env) ws = false ->
      result_of rs = Returns None
      /\ self (world_of rs) = self w
      /\ wire (world_of rs)
         = (wire w ++ [io_accept ws false;
                       io_close ws 1011 (close_ok (Service.net env) ws)])%list)
  /\ (accept_ok (Service.net env) ws = true ->
      exists c,
        result_of rs = Returns (Some c)
        /\ Service.connections (self (world_of rs)) !! cid = Some c
        /\ Service.websocket c = ws
        /\ Service.connection_id c = cid
        /\ Service.user_id c = Service.authenticated env token
        /\ Service.subscribed_sessions c = ∅
        /\ (forall user, Service.user_id c = Some user ->
              cid ∈ Service.connections_of_user user (self (world_of rs))))
  /\ never_raises (Manager.connect net now ws mc sid uid)
  /\ never_raises (Service.connect env now ws cid token tok).
Proof.
  simpl. split.
  { rewrite manager_connect_run. destruct (accept_ok net ws); reflexivity. }
  split.
  { intros Hacc. rewrite manager_connect_run, Hacc. reflexivity. }
  split.
  { intros Hacc Hgreet. rewrite manager_connect_run, Hacc.
    unfold world_of. simpl. rewrite manager_send_run. simpl.
    rewrite lookup_insert_eq, Hgreet. simpl. rewrite !lookup_insert_eq.
    repeat split.
    - unfold Manager.subscribers. simpl. apply index_get_add. auto.
    - set_solver. }
  split.
  { intros Hacc Hgreet. rewrite manager_connect_run, Hacc.
    unfold result_of, world_of. simpl. rewrite manager_send_run. simpl.
    rewrite lookup_insert_eq, Hgreet. simpl. rewrite !lookup_delete_eq.
    split; [reflexivity|]. split; [reflexivity|]. split; [reflexivity|]. set_solver. }
  split.
  { intros Hacc. rewrite service_connect_run, Hacc. unfold result_of, world_of.
    simpl. rewrite <- app_assoc. auto. }
  split.
  { intros Hacc. rewrite service_connect_run, Hacc. unfold result_of, world_of.
    simpl. eexists. split; [reflexivity|]. rewrite lookup_insert_eq.
    split; [reflexivity|].
    unfold Service.after_send.
    destruct (_ && _); simpl; repeat split; try reflexivity.
    all: intros user Hu; unfold Service.connections_of_user; simpl; rewrite Hu;
      apply index_get_add; auto. }
  split.
  { intros w0. rewrite manager_connect_run. unfold result_of.
    destruct (accept_ok net ws); eexists; reflexivity. }
  intros w0. rewrite service_connect_run. unfold result_of.
  destruct (accept_ok (Service.net env) ws); eexists; reflexivity.
Qed.

Lemma connect_reports_failure_witness :
  result_of (Manager.connect Example.refusing 0 1%nat "c1" "S1" None
               (World Manager.init [])) = Returns false
  /\ result_of (Service.connect (Example.env Example.refusing (Returns Example.reply))
                  0 1%nat "c1" None None (World Service.init [])) = Returns None.
Proof.
  pose proof (connect_reports_failure_by_value
                Example.refusing 0 1%nat "c1" "S1" None (World Manager.init [])
                (Example.env Example.refusing (Returns Example.reply))
                "c1" None None (World Service.init [])) as H.
  destruct H as (H1 & _ & _ & _ & H2 & _).
  split; [exact H1 | apply H2; reflexivity].
Defined.

(** C8 as stated fails: when the handshake raises, neither [connect]
    raises; the manager's returns [False] and the service's [None]. *)
Lemma failed_handshake_is_returned_not_raised :
  (forall e,
     result_of (Manager.connect Example.refusing 0 1%nat "c1" "S1" None
                  (World Manager.init [])) <> Raises e)
  /\ (forall e,
        result_of (Service.connect
                     (Example.env Example.refusing (Returns Example.reply))
                     0 1%nat "c1" None None (World Service.init [])) <> Raises e)
  /\ result_of (Manager.connect Example.refusing 0 1%nat "c1" "S1" None
                  (World Manager.init [])) = Returns false
  /\ result_of (Service.connect (Example.env Example.refusing (Returns Example.reply))
                  0 1%nat "c1" None None (World Service.init [])) = Returns None.
Proof. vm_compute. repeat split; first [discriminate | reflexivity]. Qed.

(** ** After [unregister] *)






(** * Further properties of the service *)

(** ** The service: dispatch of an inbound message *)

Lemma never_raises_on_send env cid msg :
  never_raises
    (Service.on_connection cid false
       (Service.Conn.send_message (Service.net env) msg) ;;; ret tt).
Proof.
  intros w. unfold bind, result_of. rewrite on_connection_send_run.
  destruct (Service.connections (self w) !! cid); eexists; reflexivity.
Qed.

Lemma try_except_returns {R M A} (m : Py R M A) h :
  never_raises m -> forall w, try_except m h w = m w.
Proof.
  intros H w. destruct (H w) as [a Ha]. unfold try_except, result_of in *.
  destruct (m w) as [r w']. simpl in Ha. subst r. reflexivity.
Qed.

(** What [handle_message] runs for a registered, active connection. *)
Lemma service_handle_message_active env now cid msg w c :
  Service.connections (self w) !! cid = Some c ->
  Service.is_active c = true ->
  Service.handle_message env now cid msg w
  = (if bool_decide (Service.in_type msg = Some "ping") then
       Service._handle_ping env now cid
     else if bool_decide (Service.in_type msg = Some "chat_message") then
       Service._handle_chat_message env cid c msg
     else if bool_decide (Service.in_type msg = Some "session_create") then
       Service._handle_session_create env cid c msg
     else if bool_decide (Service.in_type msg = Some "session_update") then
       Service._handle_session_update env cid c msg
     else if bool_decide (Service.in_type msg = Some "session_delete") then
       Service._handle_session_delete env cid c msg
     else
       Service.on_connection cid false
         (Service.Conn.send_message (Service.net env)
            (Service.error_message "Unknown message type")) ;;;
       ret tt) w.
Proof.
  intros E Ha. unfold Service.handle_message.
  rewrite try_except_returns.
  - unfold bind at 1, get_self. rewrite E, Ha. reflexivity.
  - intros w0. unfold bind at 1, get_self.
    destruct (Service.connections (self w0) !! cid) as [c0|]; [|eexists; reflexivity].
    destruct (negb (Service.is_active c0)); [eexists; reflexivity|].
    simpl. repeat case_bool_decide.
    + unfold Service._handle_ping. unfold bind at 1, update.
      apply never_raises_on_send.
    + apply never_raises_try_except. intros e. apply never_raises_on_send.
    + apply never_raises_try_except. intros e. apply never_raises_on_send.
    + apply never_raises_try_except. intros e. apply never_raises_on_send.
    + apply never_raises_try_except. intros e. apply never_raises_on_send.
    + apply never_raises_on_send.
Qed.

(** What [handle_message] keeps, with the ping branch counted only for
    a ping and only at the sender. *)
Lemma keeps_handle_message_by (P : Service.WebSocketService -> Prop) env now cid msg :
  (forall s cid' c, P s -> Service.connections s !! cid' = Some c ->
     P (Service.set_connections <[cid' := Service.set_is_active false c]> s)) ->
  (forall s cid' sid c, P s -> Service.connections s !! cid' = Some c ->
     P (Service.subscribed cid' sid s)) ->
  (forall s sid, P s -> P (Service.set_session_connections (delete sid) s)) ->
  (Service.in_type msg = Some "ping" ->
   forall s t, P s ->
     P (Service.set_connections (alter (Service.set_last_ping t) cid) s)) ->
  preserves P (Service.handle_message env now cid msg).
Proof.
  intros Hmark Hsub Hdel Hping. unfold Service.handle_message. keeps.
  - match goal with s : Service.WebSocketService |- _ =>
      destruct (Service.connections s !! cid) as [c|] end; keeps.
    destruct (negb _); keeps.
    simpl. repeat case_bool_decide.
    + unfold Service._handle_ping. keeps; [|apply keeps_on_send, Hmark].
      apply preserves_update. intros s'. apply Hping. assumption.
    + apply keeps_handle_chat_message; assumption.
    + apply keeps_handle_session_create; assumption.
    + apply keeps_handle_session_update; assumption.
    + apply keeps_handle_session_delete; assumption.
    + keeps. apply keeps_on_send, Hmark.
  - unfold Service._send_error. keeps. apply keeps_on_send, Hmark.
Qed.

(** [cid] is registered with the given liveness timestamp. *)
Lemma last_ping_kept_mark cid T s cid' c :
  (exists c0, Service.connections s !! cid = Some c0 /\ Service.last_ping c0 = T) ->
  Service.connections s !! cid' = Some c ->
  exists c0,
    Service.connections
      (Service.set_connections <[cid' := Service.set_is_active false c]> s) !! cid
    = Some c0 /\ Service.last_ping c0 = T.
Proof.
  intros (c0 & E0 & HT) E. simpl. destruct (decide (cid' = cid)) as [->|Hne].
  - rewrite lookup_insert_eq. eexists. split; [reflexivity|]. simpl. congruence.
  - rewrite lookup_insert_ne by done. eauto.
Qed.

Lemma last_ping_kept_subscribed cid T s cid' sid :
  (exists c0, Service.connections s !! cid = Some c0 /\ Service.last_ping c0 = T) ->
  exists c0,
    Service.connections (Service.subscribed cid' sid s) !! cid = Some c0
    /\ Service.last_ping c0 = T.
Proof.
  intros (c0 & E0 & HT). rewrite service_subscribed_lookup.
  destruct (decide (cid' = cid)); rewrite E0; simpl; eauto.
Qed.

(** X1: Only a ping refreshes liveness. Handling a message of any other
    type, from any connection, leaves every registered connection
    registered with the [last_ping] it had; so a connection that goes on
    sending chat messages without a ping is unregistered by the sweep that
    finds its last ping older than the timeout. *)
Theorem only_ping_refreshes_liveness env now cid msg w cid' c' :
  Service.in_type msg <> Some "ping" ->
  Service.connections (self w) !! cid' = Some c' ->
  let w1 := world_of (Service.handle_message env now cid msg w) in
  (exists c1, Service.connections (self w1) !! cid' = Some c1
              /\ Service.last_ping c1 = Service.last_ping c')
  /\ Service.heartbeat_timeout (self w1) = Service.heartbeat_timeout (self w)
  /\ (forall env' late,
        seconds (Service.heartbeat_timeout (self w)) < late - Service.last_ping c' ->
        Service.connections
          (self (world_of (Service.heartbeat_sweep env' late w1))) !! cid' = None).
Proof.
  intros Hty E w1.
  assert (H1 : exists c1, Service.connections (self w1) !! cid' = Some c1
                          /\ Service.last_ping c1 = Service.last_ping c').
  { apply (keeps_handle_message_by
             (fun s => exists c0, Service.connections s !! cid' = Some c0
                                  /\ Service.last_ping c0 = Service.last_ping c')).
    - intros s x c. apply last_ping_kept_mark.
    - intros s x sid c H _. apply last_ping_kept_subscribed, H.
    - intros s sid H. exact H.
    - intros Hp. contradiction.
    - eauto. }
  assert (H2 : Service.heartbeat_timeout (self w1) = Service.heartbeat_timeout (self w)).
  { apply (keeps_handle_message_by
             (fun s => Service.heartbeat_timeout s = Service.heartbeat_timeout (self w)));
      try (intros; assumption). reflexivity. }
  split; [exact H1|]. split; [exact H2|].
  intros env' late Hlate. destruct H1 as (c1 & E1 & HT).
  destruct (service_sweep_lookup env' late w1 cid') as (_ & _ & Hlook).
  rewrite Hlook, E1, H2, HT.
  rewrite (proj2 (elapsed_more_than_spec late _ _) Hlate). reflexivity.
Qed.

Lemma only_ping_refreshes_witness :
  Service.connections
    (self (world_of
       (Service.heartbeat_sweep (Example.env Example.up (Returns Example.reply))
          (seconds 61)
          (world_of
             (Service.handle_message (Example.env Example.up (Returns Example.reply))
                (seconds 59) "c1" Example.chat Example.two_tabs))))) !! "c1"
  = None.
Proof.
  pose proof (only_ping_refreshes_liveness
                (Example.env Example.up (Returns Example.reply)) (seconds 59) "c1"
                Example.chat Example.two_tabs "c1"
                (Service.new_connection
                   (Example.env Example.up (Returns Example.reply)) 0 1%nat "c1"
                   None None)) as H.
  destruct H as (_ & _ & H).
  - discriminate.
  - vm_compute. reflexivity.
  - apply H. vm_compute. reflexivity.
Defined.

(** X2: A ping refreshes liveness and is answered to the sender. For a
    registered, active connection, [handle_message] sets [last_ping] to
    the time of the ping and writes one [pong] on the connection's socket,
    nothing else; the index maps are untouched, and no sweep within the
    timeout after the ping unregisters the connection. *)
Theorem ping_refreshes_liveness env now cid msg w c :
  Service.connections (self w) !! cid = Some c ->
  Service.is_active c = true ->
  Service.in_type msg = Some "ping" ->
  let r := Service.handle_message env now cid msg w in
  let c1 := Service.after_send env Service.pong_message (Service.set_last_ping now c) in
  result_of r = Returns tt
  /\ wire (world_of r)
     = (wire w ++ [io_send_text (Service.websocket c) Service.pong_message
                     (send_ok (Service.net env) (Service.websocket c)
                        Service.pong_message)])%list
  /\ Service.connections (self (world_of r))
     = <[cid := c1]> (Service.connections (self w))
  /\ Service.last_ping c1 = now
  /\ Service.session_connections (self (world_of r))
     = Service.session_connections (self w)
  /\ Service.user_connections (self (world_of r)) = Service.user_connections (self w)
  /\ (forall env' t,
        t - now <= seconds (Service.heartbeat_timeout (self w)) ->
        Service.connections
          (self (world_of (Service.heartbeat_sweep env' t (world_of r)))) !! cid
        = Some c1).
Proof.
  intros E Ha Ht r c1.
  assert (Hr : r = (Returns tt,
    World (Service.set_connections (fun _ => <[cid := c1]> (Service.connections (self w)))
             (self w))
          (wire w ++ [io_send_text (Service.websocket c) Service.pong_message
                        (send_ok (Service.net env) (Service.websocket c)
                           Service.pong_message)]))).
  { subst r. rewrite (service_handle_message_active env now cid msg w c E Ha).
    rewrite Ht. simpl. unfold Service._handle_ping.
    unfold bind at 1, update. unfold bind. rewrite on_connection_send_run. simpl.
    rewrite lookup_alter, decide_True by done. rewrite E. simpl.
    unfold Service.sending. simpl. rewrite Ha.
    unfold Service.set_connections. simpl. f_equal. f_equal. f_equal.
    apply map_eq. intros k. destruct (decide (cid = k)) as [->|Hne].
    - rewrite !lookup_insert_eq. reflexivity.
    - rewrite !lookup_insert_ne by done. rewrite lookup_alter_ne by done. reflexivity. }
  assert (Hlp : Service.last_ping c1 = now).
  { subst c1. unfold Service.after_send. destruct (_ && _); reflexivity. }
  rewrite Hr. unfold result_of, world_of. cbn [fst snd].
  repeat (split; [reflexivity|]). split; [exact Hlp|].
  repeat (split; [reflexivity|]).
  intros env' t Hle.
  match goal with |- context [Service.heartbeat_sweep env' t ?w0] =>
    destruct (service_sweep_lookup env' t w0 cid) as (_ & _ & Hlook) end.
  unfold world_of in Hlook. rewrite Hlook. simpl. rewrite lookup_insert_eq, Hlp.
  destruct (elapsed_more_than t now _) eqn:Hel; [|reflexivity].
  apply elapsed_more_than_spec in Hel. lia.
Qed.

Lemma ping_refreshes_witness :
  (Service.last_ping
   <$> Service.connections
         (self (world_of
            (Service.heartbeat_sweep (Example.env Example.up (Returns Example.reply))
               (seconds 110)
               (world_of
                  (Service.handle_message
                     (Example.env Example.up (Returns Example.reply)) (seconds 50)
                     "c1" {| Service.in_type := Some "ping"; Service.in_data := "" |}
                     Example.two_tabs))))) !! "c1")
  = Some (seconds 50).
Proof.
  pose proof (ping_refreshes_liveness
                (Example.env Example.up (Returns Example.reply)) (seconds 50) "c1"
                {| Service.in_type := Some "ping"; Service.in_data := "" |}
                Example.two_tabs
                (Service.new_connection
                   (Example.env Example.up (Returns Example.reply)) 0 1%nat "c1"
                   None None)) as H.
  destruct H as (_ & _ & _ & _ & _ & _ & H);
    [vm_compute; reflexivity | reflexivity | reflexivity |].
  rewrite (H (Example.env Example.up (Returns Example.reply)) (seconds 110)).
  - reflexivity.
  - vm_compute. discriminate.
Defined.

(** X3: A message of an unknown type, or with no type, is answered with one
    [error] event to its sender and nothing else: the turn of a
    registered, active connection writes one "Unknown message type" on
    that connection's socket, nothing on any other, and leaves the index
    maps as they were. *)
Theorem unknown_type_is_answered_to_sender_only env now cid msg w c :
  Service.connections (self w) !! cid = Some c ->
  Service.is_active c = true ->
  Service.in_type msg
  ∉ [Some "ping"; Some "chat_message"; Some "session_create";
     Some "session_update"; Some "session_delete"] ->
  let r := Service.handle_message env now cid msg w in
  let answer := Service.error_message "Unknown message type" in
  result_of r = Returns tt
  /\ wire (world_of r)
     = (wire w ++ [io_send_text (Service.websocket c) answer
                     (send_ok (Service.net env) (Service.websocket c) answer)])%list
  /\ Service.connections (self (world_of r))
     = <[cid := Service.after_send env answer c]> (Service.connections (self w))
  /\ Service.session_connections (self (world_of r))
     = Service.session_connections (self w)
  /\ Service.user_connections (self (world_of r)) = Service.user_connections (self w).
Proof.
  intros E Ha Hty r answer. subst r.
  rewrite (service_handle_message_active env now cid msg w c E Ha).
  assert (forall x, x ∈ [Some "ping"; Some "chat_message"; Some "session_create";
                         Some "session_update"; Some "session_delete"] ->
                    Service.in_type msg <> x) as Hne.
  { intros x Hx Heq. apply Hty. rewrite Heq. exact Hx. }
  rewrite !bool_decide_eq_false_2 by (apply Hne; set_solver).
  unfold bind. rewrite on_connection_send_run, E.
  unfold result_of, world_of, Service.sending. simpl. rewrite Ha. auto.
Qed.

Lemma unknown_type_witness :
  written_to 1%nat
    (wire (world_of
       (Service.handle_message (Example.env Example.up (Returns Example.reply)) 0
          "c1" {| Service.in_type := None; Service.in_data := "" |}
          Example.two_tabs)))
  = (written_to 1%nat (wire Example.two_tabs)
     ++ [Service.error_message "Unknown message type"])%list.
Proof.
  pose proof (unknown_type_is_answered_to_sender_only
                (Example.env Example.up (Returns Example.reply)) 0 "c1"
                {| Service.in_type := None; Service.in_data := "" |}
                Example.two_tabs
                (Service.new_connection
                   (Example.env Example.up (Returns Example.reply)) 0 1%nat "c1"
                   None None)) as H.
  destruct H as (_ & H & _).
  - vm_compute. reflexivity.
  - reflexivity.
  - set_solver.
  - rewrite H, written_to_app. reflexivity.
Defined.

(** ** The service: a connection marked inactive *)

Lemma inactive_since_mark cid t s cid' c :
  inactive_since cid t s -> Service.connections s !! cid' = Some c ->
  inactive_since cid t
    (Service.set_connections <[cid' := Service.set_is_active false c]> s).
Proof.
  intros (c0 & E0 & Ha & HT) E. unfold inactive_since. simpl.
  destruct (decide (cid' = cid)) as [->|Hne].
  - rewrite lookup_insert_eq. eexists. split; [reflexivity|]. simpl.
    split; [reflexivity | congruence].
  - rewrite lookup_insert_ne by done. eauto.
Qed.

Lemma inactive_since_alter cid t s cid' f :
  (forall c, Service.is_active (f c) = Service.is_active c) ->
  (forall c, Service.last_ping (f c) = Service.last_ping c) ->
  inactive_since cid t s ->
  inactive_since cid t (Service.set_connections (alter f cid') s).
Proof.
  intros Hf1 Hf2 (c0 & E0 & Ha & HT). unfold inactive_since. simpl.
  rewrite lookup_alter. destruct (decide (cid' = cid)) as [->|Hne]; rewrite E0; simpl.
  - eexists. split; [reflexivity|]. rewrite Hf1, Hf2. auto.
  - eauto.
Qed.

Lemma inactive_since_alter_other cid t s cid' f :
  cid' <> cid -> inactive_since cid t s ->
  inactive_since cid t (Service.set_connections (alter f cid') s).
Proof.
  intros Hne (c0 & E0 & H). unfold inactive_since. simpl.
  rewrite lookup_alter_ne by done. eauto.
Qed.

(** X4: A connection marked inactive is never made active again. Once a
    send to it has failed, a registered connection stays registered and
    inactive, with the [last_ping] it had, whatever message is handled
    (its own messages are dropped, a ping included), whoever subscribes or
    unsubscribes and whatever is broadcast; and a send on it writes
    nothing and returns [False]. Only [disconnect], the heartbeat sweep
    and [stop_service] end this, by removing it. *)
Theorem inactive_connection_stays_inactive cid0 c0
    (w : world Service.WebSocketService Service.Message) :
  Service.connections (self w) !! cid0 = Some c0 ->
  Service.is_active c0 = false ->
  (forall env now cid msg,
     inactive_since cid0 (Service.last_ping c0)
       (self (world_of (Service.handle_message env now cid msg w))))
  /\ (forall cid sid,
        inactive_since cid0 (Service.last_ping c0)
          (self (world_of (Service.subscribe_session cid sid w))))
  /\ (forall cid sid,
        inactive_since cid0 (Service.last_ping c0)
          (self (world_of (Service.unsubscribe_session cid sid w))))
  /\ (forall env sid msg ex,
        inactive_since cid0 (Service.last_ping c0)
          (self (world_of (Service.broadcast_to_session env sid msg ex w))))
  /\ (forall env user msg,
        inactive_since cid0 (Service.last_ping c0)
          (self (world_of (Service.broadcast_to_user env user msg w))))
  /\ (forall env msg t,
        Service.Conn.send_message (Service.net env) msg (World c0 t)
        = (Returns false, World c0 t)).
Proof.
  intros E Ha.
  assert (H0 : inactive_since cid0 (Service.last_ping c0) (self w)).
  { exists c0. auto. }
  split.
  { intros env now cid msg. destruct (decide (cid = cid0)) as [->|Hne].
    - unfold Service.handle_message, try_except, bind, get_self. rewrite E, Ha.
      exact H0.
    - apply keeps_handle_message_by; [| | | |exact H0].
      + intros s x c. apply inactive_since_mark.
      + intros s x sid c H _. unfold Service.subscribed.
        apply inactive_since_alter; [reflexivity | reflexivity |].
        destruct H as (c1 & E1 & H1). exists c1. auto.
      + intros s sid H. exact H.
      + intros _ s t H. apply inactive_since_alter_other; assumption. }
  split.
  { intros cid sid. apply keeps_subscribe; [|exact H0].
    intros s x sid' c H _. unfold Service.subscribed.
    apply inactive_since_alter; [reflexivity | reflexivity |].
    destruct H as (c1 & E1 & H1). exists c1. auto. }
  split.
  { intros cid sid. apply keeps_unsubscribe; [|exact H0].
    intros s x sid' c H _. unfold Service.unsubscribed.
    apply inactive_since_alter; [reflexivity | reflexivity |].
    destruct H as (c1 & E1 & H1). exists c1. auto. }
  split.
  { intros env sid msg ex. apply keeps_broadcast_to_session; [|exact H0].
    intros s x c. apply inactive_since_mark. }
  split.
  { intros env user msg. apply keeps_broadcast_to_user; [|exact H0].
    intros s x c. apply inactive_since_mark. }
  intros env msg t. rewrite conn_send_run.
  unfold Service.after_send, Service.sending. rewrite Ha. simpl.
  rewrite app_nil_r. reflexivity.
Qed.

Lemma inactive_connection_witness :
  inactive_since "c2" 0
    (self (world_of
       (Service.handle_message (Example.env Example.up (Returns Example.reply))
          (seconds 5) "c2" {| Service.in_type := Some "ping"; Service.in_data := "" |}
          Example.one_tab_dead))).
Proof.
  destruct (Service.connections (self Example.one_tab_dead) !! "c2") as [c2|] eqn:E2;
    [|vm_compute in E2; discriminate].
  pose proof (inactive_connection_stays_inactive "c2" c2 Example.one_tab_dead E2) as H.
  vm_compute in E2. injection E2 as <-.
  destruct H as (H & _); [reflexivity|]. apply H.
Defined.

(** ** The service: the session handlers *)

Lemma answered_to_sender_run env cid c w answer :
  Service.connections (self w) !! cid = Some c ->
  Service.is_active c = true ->
  answered_to_sender env cid c w
    ((Service.on_connection cid false
        (Service.Conn.send_message (Service.net env) answer) ;;; ret tt) w)
    answer.
Proof.
  intros E Ha. unfold answered_to_sender, bind.
  rewrite on_connection_send_run, E. unfold result_of, world_of, Service.sending.
  simpl. rewrite Ha. auto.
Qed.




Lemma try_except_call {A B} (o : outcome A) (k : A -> Service.Run B) h w :
  try_except (let! x := Service.call o in k x) h w
  = match o with
    | Returns a => try_except (k a) h w
    | Raises e => h e w
    end.
Proof. destruct o; reflexivity. Qed.

(** What a session create comes to: when the chat service hands back
    its response the sender is subscribed and the handler then raises,
    reading [session_response.session_token]. *)
Lemma service_handle_session_create_run env cid c msg w :
  Service.connections (self w) !! cid = Some c ->
  Service._handle_session_create env cid c msg w
  = match Service.ChatSessionCreateRequest_of env (Service.in_data msg) with
    | Returns session_data =>
        match Service.create_session env session_data (Service.user_id c) with
        | Returns response =>
            (Service.on_connection cid false
               (Service.Conn.send_message (Service.net env)
                  (Service.error_message
                     ("会话创建失败: "
                      +:+ str_exn (AttributeError "ChatSessionResponse"
                                     "session_token")))) ;;;
             ret tt)
              (World (Service.subscribed cid (Service.sn_session_id response) (self w))
                     (wire w))
        | Raises e =>
            (Service.on_connection cid false
               (Service.Conn.send_message (Service.net env)
                  (Service.error_message ("会话创建失败: " +:+ str_exn e))) ;;;
             ret tt) w
        end
    | Raises e =>
        (Service.on_connection cid false
           (Service.Conn.send_message (Service.net env)
              (Service.error_message ("会话创建失败: " +:+ str_exn e))) ;;;
         ret tt) w
    end.
Proof.
  intros E. unfold Service._handle_session_create. rewrite try_except_call.
  destruct (Service.ChatSessionCreateRequest_of env (Service.in_data msg)) as [d|e];
    [|reflexivity].
  rewrite try_except_call.
  destruct (Service.create_session env d _) as [response|e]; [|reflexivity].
  unfold try_except at 1. unfold bind at 1. rewrite service_subscribe_run, E.
  reflexivity.
Qed.

(** X6: A session create is never confirmed. When the chat service
    serves the create, the handler subscribes the sender to the new
    session and then fails to build the confirmation: it reads
    [session_token] from the response, an attribute the response class
    does not define. The sender is sent one [error] event with the text
    of the [AttributeError], and stays subscribed to the new session;
    nothing else is written, and every other connection, every other
    session's subscriber set and the user index are as before. A create
    that the chat service fails (invalid data, an exception of the chat
    service) is answered with one [error] event to the sender alone and
    subscribes nobody. *)
Theorem session_create_handling env now cid msg w c :
  Service.connections (self w) !! cid = Some c ->
  Service.is_active c = true ->
  Service.in_type msg = Some "session_create" ->
  let r := Service.handle_message env now cid msg w in
  match Service.ChatSessionCreateRequest_of env (Service.in_data msg) with
  | Returns session_data =>
      match Service.create_session env session_data (Service.user_id c) with
      | Returns response =>
          let sid := Service.sn_session_id response in
          let answer :=
            Service.error_message
              ("会话创建失败: "
               +:+ str_exn (AttributeError "ChatSessionResponse" "session_token")) in
          result_of r = Returns tt
          /\ wire (world_of r)
             = (wire w ++ [io_send_text (Service.websocket c) answer
                             (send_ok (Service.net env) (Service.websocket c)
                                answer)])%list
          /\ Service.sender_subscribed cid sid (self (world_of r))
          /\ Service.subscribers sid (self (world_of r))
             = Service.subscribers sid (self w) ∪ {[cid]}
          /\ (forall sid', sid' <> sid ->
                Service.subscribers sid' (self (world_of r))
                = Service.subscribers sid' (self w))
          /\ (forall cid', cid' <> cid ->
                Service.connections (self (world_of r)) !! cid'
                = Service.connections (self w) !! cid')
          /\ Service.user_connections (self (world_of r))
             = Service.user_connections (self w)
      | Raises e =>
          answered_to_sender env cid c w r
            (Service.error_message ("会话创建失败: " +:+ str_exn e))
      end
  | Raises e =>
      answered_to_sender env cid c w r
        (Service.error_message ("会话创建失败: " +:+ str_exn e))
  end.
Proof.
  intros E Ha Ht r. subst r.
  rewrite (service_handle_message_active env now cid msg w c E Ha).
  rewrite Ht. simpl. rewrite (service_handle_session_create_run env cid c msg w E).
  destruct (Service.ChatSessionCreateRequest_of env (Service.in_data msg)) as [d|e];
    [|apply answered_to_sender_run; assumption].
  destruct (Service.create_session env d _) as [response|e];
    [|apply answered_to_sender_run; assumption].
  cbn zeta. set (sid := Service.sn_session_id response).
  set (answer := Service.error_message _).
  assert (Hrun :
    (Service.on_connection cid false
       (Service.Conn.send_message (Service.net env) answer) ;;; ret tt)
      (World (Service.subscribed cid sid (self w)) (wire w))
    = (Returns tt,
       World (Service.set_connections
                <[cid := Service.after_send env answer
                           (Service.set_subscribed_sessions (fun X => X ∪ {[sid]}) c)]>
                (Service.subscribed cid sid (self w)))
             (wire w ++ [io_send_text (Service.websocket c) answer
                           (send_ok (Service.net env) (Service.websocket c)
                              answer)])%list)).
  { unfold bind. rewrite on_connection_send_run. cbn [self wire].
    rewrite service_subscribed_lookup, E. rewrite decide_True by reflexivity.
    cbn [fmap option_fmap option_map]. unfold Service.sending.
    cbn [Service.set_subscribed_sessions Service.is_active Service.websocket].
    rewrite Ha. reflexivity. }
  rewrite Hrun. clear Hrun. unfold result_of, world_of. cbn [fst snd self wire].
  split; [reflexivity|]. split; [reflexivity|].
  assert (Hsubs : forall sid',
            Service.subscribers sid'
              (Service.set_connections
                 <[cid := Service.after_send env answer
                            (Service.set_subscribed_sessions (fun X => X ∪ {[sid]}) c)]>
                 (Service.subscribed cid sid (self w)))
            = Service.subscribers sid' (Service.set_session_connections
                                          (index_add sid cid) (self w)))
    by reflexivity.
  split; [|split; [|split; [|split]]].
  - split.
    + rewrite Hsubs. unfold Service.subscribers. cbn [Service.session_connections
        Service.set_session_connections]. apply index_get_add. right. auto.
    + cbn [Service.connections Service.set_connections]. rewrite lookup_insert_eq.
      eexists. split; [reflexivity|].
      unfold Service.after_send. destruct (_ && _); simpl; set_solver.
  - rewrite Hsubs. apply set_eq. intros x. unfold Service.subscribers.
    cbn [Service.session_connections Service.set_session_connections].
    rewrite index_get_add. set_solver.
  - intros sid' Hne. rewrite Hsubs. apply set_eq. intros x. unfold Service.subscribers.
    cbn [Service.session_connections Service.set_session_connections].
    rewrite index_get_add. split; [intros [?|[? ?]]; [assumption|congruence]|auto].
  - intros cid' Hne. cbn [Service.connections Service.set_connections].
    rewrite lookup_insert_ne by congruence.
    change (Service.connections (Service.subscribed cid sid (self w)) !! cid'
            = Service.connections (self w) !! cid').
    rewrite service_subscribed_lookup. rewrite decide_False by congruence. reflexivity.
  - reflexivity.
Qed.


Lemma session_create_witness :
  let r := Service.handle_message (Scenario.env Example.up) 0 "c1" Scenario.create_trip
             Example.two_tabs in
  result_of r = Returns tt
  /\ written_to 1%nat (wire (world_of r))
     = (written_to 1%nat (wire Example.two_tabs)
        ++ [Service.error_message
              ("会话创建失败: "
               +:+ "'ChatSessionResponse' object has no attribute 'session_token'")])%list
  /\ Service.sender_subscribed "c1" "S2" (self (world_of r))
  /\ Service.subscribers "S1" (self (world_of r))
     = Service.subscribers "S1" (self Example.two_tabs).
Proof.
  destruct (Service.connections (self Example.two_tabs) !! "c1") as [c1|] eqn:E1;
    [|vm_compute in E1; discriminate].
  pose proof (session_create_handling (Scenario.env Example.up) 0 "c1"
                Scenario.create_trip Example.two_tabs c1 E1) as H.
  vm_compute in E1. injection E1 as <-.
  specialize (H eq_refl eq_refl). cbn zeta in H.
  simpl Service.ChatSessionCreateRequest_of in H. cbn iota in H.
  simpl Service.create_session in H. cbn iota in H.
  destruct H as (H1 & H2 & H3 & _ & H5 & _).
  cbn zeta. split; [exact H1|]. split; [|split; [exact H3|apply H5; discriminate]].
  rewrite H2, written_to_app. f_equal.
Defined.

(** What a session update comes to: when the chat service hands back
    the updated session the handler raises, reading
    [updated_session.session_status]. *)
Lemma service_handle_session_update_run env cid c msg w :
  Service._handle_session_update env cid c msg w
  = (Service.on_connection cid false
       (Service.Conn.send_message (Service.net env)
          (Service.error_message
             match Service.session_update_of env (Service.in_data msg) with
             | Returns parsed =>
                 match Service.update_session env parsed.1 parsed.2 (Service.user_id c)
                         (Service.session_token c) with
                 | Returns (Some updated) =>
                     "会话更新失败: "
                     +:+ str_exn (AttributeError "ChatSessionResponse" "session_status")
                 | Returns None => "会话更新失败"
                 | Raises e => "会话更新失败: " +:+ str_exn e
                 end
             | Raises e => "会话更新失败: " +:+ str_exn e
             end)) ;;;
     ret tt) w.
Proof.
  unfold Service._handle_session_update. rewrite try_except_call.
  destruct (Service.session_update_of env (Service.in_data msg)) as [parsed|e];
    [|reflexivity].
  rewrite try_except_call.
  destruct (Service.update_session env _ _ _ _) as [[updated|]|e]; [| |reflexivity].
  - reflexivity.
  - apply try_except_returns. apply never_raises_on_send.
Qed.

(** X7: A session update is never announced. When the chat service
    serves the update, the handler fails to build the announcement: it
    reads [session_status] from the updated session, an attribute its
    class does not define, and the sender is sent one [error] event with
    the text of the [AttributeError]. An update for which the chat service
    finds no session, or that fails (invalid data, an exception of the chat
    service), is answered with one [error] event as well. In every case
    that event, on the sender's socket, is all that is written: the
    subscribers of the session are sent nothing, and neither index map
    changes. *)
Theorem session_update_handling env now cid msg w c :
  Service.connections (self w) !! cid = Some c ->
  Service.is_active c = true ->
  Service.in_type msg = Some "session_update" ->
  let r := Service.handle_message env now cid msg w in
  let answer :=
    Service.error_message
      match Service.session_update_of env (Service.in_data msg) with
      | Returns parsed =>
          match Service.update_session env parsed.1 parsed.2 (Service.user_id c)
                  (Service.session_token c) with
          | Returns (Some updated) =>
              "会话更新失败: "
              +:+ str_exn (AttributeError "ChatSessionResponse" "session_status")
          | Returns None => "会话更新失败"
          | Raises e => "会话更新失败: " +:+ str_exn e
          end
      | Raises e => "会话更新失败: " +:+ str_exn e
      end in
  answered_to_sender env cid c w r answer
  /\ (forall ws,
        written_to ws (wire (world_of r))
        = (written_to ws (wire w)
           ++ if decide (Service.websocket c = ws) then [answer] else [])%list).
Proof.
  intros E Ha Ht r answer. subst r.
  rewrite (service_handle_message_active env now cid msg w c E Ha).
  rewrite Ht. simpl. rewrite service_handle_session_update_run. fold answer.
  pose proof (answered_to_sender_run env cid c w answer E Ha) as H.
  split; [exact H|]. destruct H as (_ & Hw & _). intros ws.
  rewrite Hw, written_to_app. simpl.
  destruct (decide (Service.websocket c = ws)); reflexivity.
Qed.

Lemma session_update_witness :
  let r := Service.handle_message (Scenario.env Example.up) 0 "c1" Scenario.rename_S1
             Example.two_tabs in
  elements (Service.subscribers "S1" (self Example.two_tabs)) = ["c2"]
  /\ written_to 2%nat (wire (world_of r)) = written_to 2%nat (wire Example.two_tabs)
  /\ written_to 1%nat (wire (world_of r))
     = (written_to 1%nat (wire Example.two_tabs)
        ++ [Service.error_message
              ("会话更新失败: "
               +:+ "'ChatSessionResponse' object has no attribute 'session_status'")])%list.
Proof.
  destruct (Service.connections (self Example.two_tabs) !! "c1") as [c1|] eqn:E1;
    [|vm_compute in E1; discriminate].
  pose proof (session_update_handling (Scenario.env Example.up) 0 "c1"
                Scenario.rename_S1 Example.two_tabs c1 E1) as H.
  vm_compute in E1. injection E1 as <-.
  specialize (H eq_refl eq_refl). cbn zeta in H. destruct H as [_ H].
  cbn zeta. split; [vm_compute; reflexivity|].
  rewrite (H 2%nat), (H 1%nat). split; [apply app_nil_r | reflexivity].
Defined.

(** ** The service: shutdown *)

Lemma closings_frame env code s cid c l :
  cid ∉ l ->
  closings env code (Service.set_connections <[cid := c]> s) l = closings env code s l.
Proof.
  induction l as [|x l IH]; intros Hnot; simpl; [reflexivity|].
  apply not_elem_of_cons in Hnot as [Hne Hnot].
  rewrite lookup_insert_ne by done. rewrite IH by exact Hnot. reflexivity.
Qed.

(** The close loop of [stop_service] over distinct ids. *)
Lemma service_close_each env code l w :
  NoDup l ->
  exists s',
    for_each l (fun cid => Service.on_connection cid tt
                             (Service.Conn.close (Service.net env) code)) w
    = (Returns tt, World s' (wire w ++ closings env code (self w) l)).
Proof.
  revert w. induction l as [|x l IH]; intros w Hnd.
  - exists (self w). simpl. rewrite app_nil_r. destruct w; reflexivity.
  - apply NoDup_cons in Hnd as [Hx Hnd]. simpl. unfold bind.
    rewrite on_connection_close_run.
    destruct (Service.connections (self w) !! x) as [c|].
    + destruct (IH (World (Service.set_connections
                             <[x := Service.set_is_active false c]> (self w))
                          (wire w ++ Service.closing env code c)) Hnd) as [s' Hs'].
      exists s'. rewrite Hs'. cbn [self wire].
      rewrite closings_frame by exact Hx. rewrite <- app_assoc. reflexivity.
    + destruct (IH w Hnd) as [s' Hs']. exists s'. rewrite Hs'. reflexivity.
Qed.

(** X8: [stop_service] returns, whatever the sockets do; it closes every
    registered connection that is still active, once, with code 1001, and
    writes nothing else; afterwards no connection, no user entry and no
    session entry is left, so that a later message from a former
    connection is dropped and a later broadcast reaches nobody. *)
Theorem stop_service_closes_and_forgets_everything env w :
  let r := Service.stop_service env w in
  result_of r = Returns tt
  /\ wire (world_of r)
     = (wire w ++ closings env 1001 (self w)
                    (map_to_list (Service.connections (self w))).*1)%list
  /\ Service.connections (self (world_of r)) = ∅
  /\ Service.user_connections (self (world_of r)) = ∅
  /\ Service.session_connections (self (world_of r)) = ∅
  /\ (forall env' now cid msg,
        Service.handle_message env' now cid msg (world_of r) = (Returns tt, world_of r))
  /\ (forall env' sid msg ex,
        Service.broadcast_to_session env' sid msg ex (world_of r)
        = (Returns tt, world_of r)).
Proof.
  destruct (service_close_each env 1001 (map_to_list (Service.connections (self w))).*1 w)
    as [s' Hs']; [apply NoDup_fst_map_to_list|].
  assert (Hrun : Service.stop_service env w
    = (Returns tt,
       World (Service.set_session_connections (fun _ => ∅)
                (Service.set_user_connections (fun _ => ∅)
                   (Service.set_connections (fun _ => ∅) s')))
             (wire w ++ closings env 1001 (self w)
                          (map_to_list (Service.connections (self w))).*1)%list)).
  { unfold Service.stop_service. unfold bind at 1, get_self. cbn [fst snd].
    unfold bind at 1. rewrite Hs'. reflexivity. }
  cbn zeta. rewrite Hrun. clear Hrun Hs'. unfold result_of, world_of.
  cbn [fst snd self wire Service.connections Service.user_connections
       Service.session_connections Service.set_connections
       Service.set_user_connections Service.set_session_connections].
  do 5 (split; [reflexivity|]). split.
  - intros env' now cid msg. unfold Service.handle_message, try_except, bind, get_self.
    cbn [fst snd self Service.connections Service.set_connections
         Service.set_user_connections Service.set_session_connections].
    rewrite lookup_empty. reflexivity.
  - intros env' sid msg ex.
    unfold Service.broadcast_to_session, try_except, bind, get_self, index_get.
    cbn [fst snd self Service.session_connections Service.set_session_connections].
    rewrite lookup_empty.
    simpl. rewrite elements_empty. reflexivity.
Qed.

(** ** The service: registering and subscribing, and undoing it *)

Lemma index_discard_add k c d :
  c ∉ index_get k d -> no_empty_entry d -> index_discard k c (index_add k c d) = d.
Proof.
  unfold index_get, index_discard, index_add. intros Hc H.
  rewrite lookup_insert_eq.
  destruct (d !! k) as [X|] eqn:E; simpl in *.
  - assert ((X ∪ {[c]}) ∖ {[c]} = X) as -> by set_solver.
    rewrite decide_False by exact (H k X E).
    rewrite insert_insert_eq. apply insert_id, E.
  - assert (((∅ : gset string) ∪ {[c]}) ∖ {[c]} = ∅) as -> by set_solver.
    rewrite decide_True by reflexivity. apply delete_insert_id, E.
Qed.

Lemma after_send_user_id env msg c :
  Service.user_id (Service.after_send env msg c) = Service.user_id c.
Proof. unfold Service.after_send. destruct (_ && _); reflexivity. Qed.

Lemma after_send_subscribed_sessions env msg c :
  Service.subscribed_sessions (Service.after_send env msg c)
  = Service.subscribed_sessions c.
Proof. unfold Service.after_send. destruct (_ && _); reflexivity. Qed.

(** X9: Registering a connection under an unused id and unregistering it
    again leaves the service as it was: [connections], both index maps and
    the heartbeat settings. This holds whether the handshake went through
    or not, whether the greeting could be written or not, and for a guest
    as for an authenticated user. *)
Theorem connect_then_disconnect_restores_service env env' now ws cid token tok w :
  Service.reachable w ->
  Service.connections (self w) !! cid = None ->
  let w1 := world_of (Service.connect env now ws cid token tok w) in
  let r := Service.disconnect env' cid w1 in
  result_of r = Returns tt /\ self (world_of r) = self w.
Proof.
  intros Hr Hfresh. cbn zeta.
  pose proof (service_reachable_consistent w Hr) as [_ Hu].
  pose proof (service_reachable_no_empty w Hr) as [_ Hne].
  rewrite service_connect_run. cbn zeta.
  destruct (accept_ok (Service.net env) ws); unfold world_of at 1 3; cbn [snd];
    rewrite service_disconnect_run; cbn [self].
  - cbn [Service.connections Service.set_connections]. rewrite lookup_insert_eq.
    split; [reflexivity|]. unfold world_of. cbn [snd self].
    unfold Service.unregistered.
    rewrite after_send_user_id, after_send_subscribed_sessions.
    cbn [Service.new_connection Service.user_id Service.subscribed_sessions
         Service.registered Service.set_connections Service.connections
         Service.user_connections Service.session_connections
         Service.heartbeat_interval Service.heartbeat_timeout].
    rewrite elements_empty. cbn [foldl].
    rewrite delete_insert_eq, delete_insert_id by exact Hfresh.
    destruct (Service.authenticated env token) as [u|].
    + rewrite index_discard_add; [destruct (self w); reflexivity | | exact Hne].
      intros Hin. destruct (Hu u cid Hin) as (c & Hc & _). congruence.
    + destruct (self w); reflexivity.
  - rewrite Hfresh. split; reflexivity.
Qed.

Lemma connect_then_disconnect_witness :
  self (world_of (Service.disconnect (Example.env Example.up (Returns Example.reply)) "c1"
         (world_of (Service.connect (Scenario.env Example.mute) 0 1%nat "c1"
                      (Some "alice") None (World Service.init []))))) = Service.init.
Proof.
  exact (proj2 (connect_then_disconnect_restores_service
                  (Scenario.env Example.mute)
                  (Example.env Example.up (Returns Example.reply))
                  0 1%nat "c1" (Some "alice") None (World Service.init [])
                  Service.reach_init eq_refl)).
Defined.

Lemma alter_alter_id (f g : Service.WebSocketConnection -> Service.WebSocketConnection)
    cid (m : gmap string Service.WebSocketConnection) :
  (forall c, m !! cid = Some c -> f (g c) = c) -> alter f cid (alter g cid m) = m.
Proof.
  intros H. apply map_eq. intros i.
  destruct (decide (cid = i)) as [->|Hne].
  - rewrite !lookup_alter_eq.
    destruct (m !! i) as [c|] eqn:E; simpl; [|reflexivity]. rewrite (H c eq_refl). reflexivity.
  - rewrite !lookup_alter_ne by done. reflexivity.
Qed.

Lemma service_subscribed_twice cid sid s :
  Service.subscribed cid sid (Service.subscribed cid sid s) = Service.subscribed cid sid s.
Proof.
  destruct s as [conns uc sc hi ht].
  unfold Service.subscribed, Service.set_connections, Service.set_session_connections.
  cbn [Service.connections Service.user_connections Service.session_connections
       Service.heartbeat_interval Service.heartbeat_timeout].
  f_equal.
  - apply map_eq. intros i.
    destruct (decide (cid = i)) as [->|Hne];
      [rewrite !lookup_alter_eq | rewrite !lookup_alter_ne by done; reflexivity].
    destruct (conns !! i) as [c0|]; simpl; [|reflexivity].
    f_equal. unfold Service.set_subscribed_sessions. simpl. f_equal. set_solver.
  - unfold index_add. rewrite lookup_insert_eq, insert_insert_eq. simpl.
    f_equal. set_solver.
Qed.

Lemma service_unsubscribed_subscribed cid sid s c :
  Service.connections s !! cid = Some c ->
  sid ∉ Service.subscribed_sessions c ->
  cid ∉ Service.subscribers sid s ->
  no_empty_entry (Service.session_connections s) ->
  Service.unsubscribed cid sid (Service.subscribed cid sid s) = s.
Proof.
  destruct s as [conns uc sc hi ht].
  unfold Service.unsubscribed, Service.subscribed, Service.subscribers,
    Service.set_connections, Service.set_session_connections.
  cbn [Service.connections Service.user_connections Service.session_connections
       Service.heartbeat_interval Service.heartbeat_timeout].
  intros E Hnot Hout Hne. f_equal.
  - apply alter_alter_id. intros c0 E0. rewrite E in E0. injection E0 as <-.
    destruct c. unfold Service.set_subscribed_sessions. simpl in *. f_equal.
    set_solver.
  - apply index_discard_add; assumption.
Qed.

(** X10: Subscribing a registered connection to a session it does not hold
    and unsubscribing it again both succeed and leave the service as it
    was; subscribing a second time changes nothing more than the first;
    unsubscribing a registered connection returns [True] in any state,
    whether or not it holds the session; for an unregistered connection
    both calls return [False] and change nothing. *)
Theorem subscribe_then_unsubscribe_restores_service cid sid w :
  Service.reachable w ->
  let r1 := Service.subscribe_session cid sid w in
  let r2 := Service.unsubscribe_session cid sid (world_of r1) in
  match Service.connections (self w) !! cid with
  | Some c =>
      result_of r1 = Returns true
      /\ result_of r2 = Returns true
      /\ Service.subscribe_session cid sid (world_of r1) = (Returns true, world_of r1)
      /\ (sid ∉ Service.subscribed_sessions c -> world_of r2 = w)
      /\ result_of (Service.unsubscribe_session cid sid w) = Returns true
  | None =>
      r1 = (Returns false, w)
      /\ Service.unsubscribe_session cid sid w = (Returns false, w)
  end.
Proof.
  intros Hr. cbn zeta.
  pose proof (service_reachable_consistent w Hr) as [Hs _].
  pose proof (service_reachable_no_empty w Hr) as [Hne _].
  rewrite !service_subscribe_run, (service_unsubscribe_run cid sid w).
  destruct (Service.connections (self w) !! cid) as [c|] eqn:E; [|split; reflexivity].
  unfold world_of, result_of. cbn [fst snd].
  rewrite service_unsubscribe_run. cbn [self wire].
  rewrite service_subscribed_lookup, decide_True, E by reflexivity.
  cbn [fmap option_fmap option_map fst snd].
  split; [reflexivity|]. split; [reflexivity|]. split; [|split].
  - rewrite service_subscribed_twice. reflexivity.
  - intros Hnot. destruct w as [s t]. cbn [self wire] in *. f_equal.
    apply (service_unsubscribed_subscribed cid sid s c E Hnot); [|exact Hne].
    intros Hin. destruct (Hs sid cid Hin) as (c0 & E0 & Hsid). congruence.
  - reflexivity.
Qed.

Lemma subscribe_then_unsubscribe_witness :
  world_of (Service.unsubscribe_session "c1" "S1"
              (world_of (Service.subscribe_session "c1" "S1"
                 (world_of (Service.connect (Example.env Example.up (Returns Example.reply))
                              0 1%nat "c1" None None (World Service.init []))))))
  = world_of (Service.connect (Example.env Example.up (Returns Example.reply))
                0 1%nat "c1" None None (World Service.init [])).
Proof.
  pose proof (subscribe_then_unsubscribe_restores_service "c1" "S1"
                (world_of (Service.connect (Example.env Example.up (Returns Example.reply))
                             0 1%nat "c1" None None (World Service.init [])))
                (Service.reach_connect _ _ _ _ _ _ _ Service.reach_init eq_refl)) as H.
  cbn zeta in H.
  destruct (Service.connections _ !! "c1") as [c|] eqn:E; [|vm_compute in E; discriminate].
  vm_compute in E. injection E as <-.
  destruct H as (_ & _ & _ & H & _). apply H. vm_compute. set_solver.
Defined.

(** ** The service: whom a broadcast reaches *)

Lemma for_each_skipping {R M X} (skip : X -> bool) (body : X -> Py R M unit) l w :
  for_each l (fun x => if skip x then ret tt else body x) w
  = for_each (List.filter (fun x => negb (skip x)) l) body w.
Proof.
  revert w. induction l as [|x l IH]; intros w; simpl; [reflexivity|].
  destruct (skip x); simpl.
  - unfold bind at 1, ret at 1. apply IH.
  - unfold bind. destruct (body x w) as [[[]|e] w']; [apply IH | reflexivity].
Qed.





(** *** The user index *)







(** ** The service: system messages *)


(** ** The service: who a connection is *)

(** X14: When the handshake goes through, [connect] registers the
    connection whatever the token is worth. With a token for which the
    authentication service returns a user the connection is authenticated
    and listed under that user; without a token, with an empty one, with
    one the service knows no user for, or with one that makes the service
    raise, the connection is registered as a guest, under no user. The
    greeting names the type. *)
Theorem connect_authenticates_or_degrades_to_guest env now ws cid token tok w :
  accept_ok (Service.net env) ws = true ->
  let r := Service.connect env now ws cid token tok w in
  exists c,
    result_of r = Returns (Some c)
    /\ Service.connections (self (world_of r)) !! cid = Some c
    /\ wire (world_of r)
       = (wire w ++ [io_accept ws true;
                     io_send_text ws (Service.connect_message cid (Service.connection_type c))
                       (send_ok (Service.net env) ws
                          (Service.connect_message cid (Service.connection_type c)))])%list
    /\ match token with
       | Some (String a t) =>
           match Service.get_current_user env (String a t) with
           | Returns (Some user) =>
               Service.connection_type c = Service.AUTHENTICATED
               /\ Service.user_id c = Some (Service.id user)
               /\ Service.user_connections (self (world_of r))
                  = index_add (Service.id user) cid (Service.user_connections (self w))
           | _ =>
               Service.connection_type c = Service.GUEST
               /\ Service.user_id c = None
               /\ Service.user_connections (self (world_of r))
                  = Service.user_connections (self w)
           end
       | _ =>
           Service.connection_type c = Service.GUEST
           /\ Service.user_id c = None
           /\ Service.user_connections (self (world_of r))
              = Service.user_connections (self w)
       end.
Proof.
  intros Hacc. cbn zeta. rewrite service_connect_run, Hacc. cbn zeta.
  eexists. unfold result_of, world_of. cbn [fst snd self wire].
  split; [reflexivity|].
  split; [cbn [Service.connections Service.set_connections]; apply lookup_insert_eq|].
  assert (Htype : forall m c, Service.connection_type (Service.after_send env m c)
                              = Service.connection_type c).
  { intros m c. unfold Service.after_send. destruct (_ && _); reflexivity. }
  rewrite Htype, after_send_user_id.
  split.
  { rewrite <- app_assoc. reflexivity. }
  cbn [Service.new_connection Service.connection_type Service.user_id
       Service.user_connections Service.set_connections Service.registered].
  unfold Service.authenticated.
  destruct token as [[|a t]|]; cbn [truthy]; [auto | | auto].
  destruct (Service.get_current_user env (String a t)) as [[user|]|e]; simpl; auto.
Qed.

Lemma connect_authenticates_witness :
  exists c,
    result_of (Service.connect (Example.env Example.up (Returns Example.reply))
                 0 1%nat "c1" (Some "stale-token") None (World Service.init []))
    = Returns (Some c)
    /\ Service.connection_type c = Service.GUEST.
Proof.
  destruct (connect_authenticates_or_degrades_to_guest
              (Example.env Example.up (Returns Example.reply))
              0 1%nat "c1" (Some "stale-token") None (World Service.init []) eq_refl)
    as (c & H1 & _ & _ & H2 & _).
  exists c. split; [exact H1 | exact H2].
Defined.

(** ** The service: connection statistics *)






(** * Further properties of the connection manager *)

(** ** The registry of the manager *)

(** What holds of a new manager and is kept by each change the methods
    make to it holds of every state of the manager. *)
Lemma manager_reachable_keeps (P : Manager.ConnectionManager -> Prop) :
  P Manager.init ->
  (forall c m, P m -> P (Manager.unregistered c m)) ->
  (forall now c m,
     P m -> P (Manager.set_connection_metadata (alter (Manager.touch now) c) m)) ->
  (forall now ws c sid uid m,
     P m -> Manager.active_connections m !! c = None ->
     Manager.connection_metadata m !! c = None -> truthy sid = true ->
     P (manager_registered now ws c sid uid m)) ->
  forall w, Manager.reachable w -> P (self w).
Proof.
  intros Hinit Hunreg Htouch Hreg.
  induction 1 as [|w net now ws cid sid uid Hr IH Hact Hmeta Hsid
                  |w cid Hr IH|w net cid msg Hr IH|w net sid msg ex Hr IH
                  |w net now cid msg Hr IH|w net wakeups cid Hr IH].
  - exact Hinit.
  - rewrite manager_connect_run.
    destruct (accept_ok net ws); unfold world_of at 1; simpl; [|exact IH].
    apply manager_send_preserves; [intros m; apply Hunreg|].
    apply (Hreg now ws cid sid uid (self w)); assumption.
  - apply manager_disconnect_preserves; [apply Hunreg | exact IH].
  - apply manager_send_preserves; [apply Hunreg | exact IH].
  - apply manager_broadcast_preserves; [apply Hunreg | exact IH].
  - revert IH. generalize w. change (preserves P (Manager.handle_message net now cid msg)).
    unfold Manager.handle_message. keeps.
    destruct msg as [|ty]; keeps.
    repeat case_bool_decide; keeps.
    + apply preserves_update. intros m. apply Htouch.
    + apply manager_send_preserves, Hunreg.
    + apply manager_send_preserves, Hunreg.
  - apply manager_heartbeat_preserves; [apply Hunreg | exact IH].
Qed.

Lemma manager_reachable_same_keys w : Manager.reachable w -> same_keys (self w).
Proof.
  apply manager_reachable_keeps.
  - intros c. simpl. rewrite !lookup_empty.
    split; [split; intros [? ?]; discriminate|].
    split; [set_solver | intros [? ?]; discriminate].
  - intros c m H c'. destruct (H c') as [H1 H2]. simpl.
    destruct (decide (c = c')) as [->|Hne].
    + rewrite !lookup_delete_eq. split; [split; intros [? ?]; discriminate|].
      split; [set_solver | intros [? ?]; discriminate].
    + rewrite !lookup_delete_ne by done. split; [exact H1|].
      rewrite <- H2. set_solver.
  - intros now c m H c'. destruct (H c') as [H1 H2]. simpl.
    rewrite lookup_alter_is_Some. auto.
  - intros now ws c sid uid m H _ _ _ c'. destruct (H c') as [H1 H2]. simpl.
    destruct (decide (c = c')) as [->|Hne].
    + rewrite !lookup_insert_eq. split; [split; eauto|].
      split; [eauto | set_solver].
    + rewrite !lookup_insert_ne by done. split; [exact H1|].
      rewrite <- H2. set_solver.
Qed.

Lemma manager_reachable_own_session :
  forall w, Manager.reachable w -> subscribed_to_own_session (self w).
Proof.
  apply manager_reachable_keeps.
  - intros c md E. simpl in E. rewrite lookup_empty in E. discriminate.
  - intros c m H c' md'. unfold Manager.subscribers. simpl. intros E.
    apply lookup_delete_Some in E as [Hne E]. pose proof (H c' md' E) as Hin.
    destruct (Manager.connection_metadata m !! c) as [md|]; [|exact Hin].
    destruct (truthy _); [|exact Hin].
    apply index_get_discard. split; [exact Hin|]. intros [_ ?]. congruence.
  - intros now c m H c' md'. unfold Manager.subscribers. simpl. intros E.
    apply lookup_alter_Some in E as [(-> & md0 & E0 & ->)|[_ E]].
    + exact (H c' md0 E0).
    + exact (H c' md' E).
  - intros now ws c sid uid m H _ _ _ c' md'. unfold Manager.subscribers. simpl.
    intros E. apply index_get_add.
    apply lookup_insert_Some in E as [[<- <-]|[Hne E]]; [right; auto|].
    left. exact (H c' md' E).
Qed.

Lemma manager_reachable_no_empty w :
  Manager.reachable w -> no_empty_entry (Manager.session_subscriptions (self w)).
Proof.
  apply (manager_reachable_keeps
           (fun m => no_empty_entry (Manager.session_subscriptions m))).
  - apply no_empty_entry_empty.
  - intros c m. apply manager_unregistered_no_empty.
  - intros now c m H. exact H.
  - intros now ws c sid uid m H _ _ _. simpl. apply no_empty_entry_add, H.
Qed.

(** X16: The dictionaries of the manager stay in step: in every state it
    reaches, a connection has a socket in [active_connections] exactly when
    [get_connection_info] knows it and exactly when it owns a heartbeat
    task, so that [get_connection_count] is also the number of heartbeat
    tasks, and a connection that is known is a subscriber of the session
    its metadata names and of no other. *)
Theorem manager_dictionaries_stay_in_step w c :
  Manager.reachable w ->
  (is_Some (ManagerInfo.get_connection_info c (self w))
   <-> is_Some (Manager.active_connections (self w) !! c))
  /\ (c ∈ Manager.heartbeat_tasks (self w)
      <-> is_Some (Manager.active_connections (self w) !! c))
  /\ (forall md, ManagerInfo.get_connection_info c (self w) = Some md ->
        forall s, c ∈ Manager.subscribers s (self w) <-> s = Manager.session_id md)
  /\ (ManagerInfo.get_connection_info c (self w) = None ->
        forall s, c ∉ Manager.subscribers s (self w))
  /\ ManagerInfo.get_connection_count (self w) = size (Manager.heartbeat_tasks (self w)).
Proof.
  intros Hr. unfold ManagerInfo.get_connection_info, ManagerInfo.get_connection_count.
  destruct (manager_reachable_same_keys w Hr c) as [H1 H2].
  pose proof (manager_reachable_own_session w Hr) as Hown.
  destruct (manager_reachable_consistent w Hr) as [Hsub _].
  split; [symmetry; exact H1|]. split; [rewrite H2; symmetry; exact H1|].
  split; [|split].
  - intros md E s. split.
    + intros Hin. destruct (Hsub s c Hin) as (md' & E' & <-). congruence.
    + intros ->. apply Hown, E.
  - intros E s Hin. destruct (Hsub s c Hin) as (md' & E' & _). congruence.
  - rewrite <- (size_dom (D := gset string)). f_equal. apply set_eq. intros c'.
    destruct (manager_reachable_same_keys w Hr c') as [H1' H2'].
    rewrite elem_of_dom, H2'. exact H1'.
Qed.

Lemma manager_dictionaries_witness :
  "c1" ∈ Manager.heartbeat_tasks (self Example.one_socket)
  <-> is_Some (Manager.active_connections (self Example.one_socket) !! "c1").
Proof.
  exact (proj1 (proj2 (manager_dictionaries_stay_in_step Example.one_socket "c1"
                         (Manager.reach_connect _ Example.up 0 1%nat "c1" "S1" None
                            Manager.reach_init eq_refl eq_refl eq_refl)))).
Defined.

Lemma manager_unregistered_unknown c m :
  Manager.active_connections m !! c = None ->
  Manager.connection_metadata m !! c = None ->
  c ∉ Manager.heartbeat_tasks m ->
  Manager.unregistered c m = m.
Proof.
  intros Ha Hm Ht. destruct m as [ac ss cm ht]. unfold Manager.unregistered.
  simpl in *. rewrite Hm, !delete_id by assumption. f_equal. set_solver.
Qed.

Lemma manager_unregistered_registered now ws c sid uid m :
  Manager.active_connections m !! c = None ->
  Manager.connection_metadata m !! c = None ->
  c ∉ Manager.heartbeat_tasks m ->
  c ∉ Manager.subscribers sid m ->
  no_empty_entry (Manager.session_subscriptions m) ->
  truthy sid = true ->
  Manager.unregistered c (manager_registered now ws c sid uid m) = m.
Proof.
  intros Ha Hm Ht Hs Hne Hsid. destruct m as [ac ss cm ht].
  unfold Manager.unregistered, manager_registered, Manager.subscribers in *.
  simpl in *. rewrite lookup_insert_eq. simpl. rewrite Hsid.
  rewrite !delete_insert_id by assumption.
  rewrite index_discard_add by assumption. f_equal. set_solver.
Qed.

(** X17: Registering a connection under an unused id for a named session and
    disconnecting it again leaves the manager as it was, all four
    dictionaries, whether the handshake went through or not and whether
    the greeting could be written or not. *)
Theorem manager_connect_then_disconnect_restores net now ws cid sid uid w :
  Manager.reachable w ->
  Manager.active_connections (self w) !! cid = None ->
  truthy sid = true ->
  let w1 := world_of (Manager.connect net now ws cid sid uid w) in
  let r := Manager.disconnect cid w1 in
  result_of r = Returns tt /\ self (world_of r) = self w.
Proof.
  intros Hr Hfresh Hsid. cbn zeta.
  destruct (manager_reachable_same_keys w Hr cid) as [H1 H2].
  destruct (manager_reachable_consistent w Hr) as [Hsub _].
  pose proof (manager_reachable_no_empty w Hr) as Hne.
  assert (Hmeta : Manager.connection_metadata (self w) !! cid = None).
  { apply eq_None_not_Some. rewrite <- H1, Hfresh. intros [? ?]. discriminate. }
  assert (Htask : cid ∉ Manager.heartbeat_tasks (self w)).
  { rewrite H2, Hmeta. intros [? ?]. discriminate. }
  assert (Hout : cid ∉ Manager.subscribers sid (self w)).
  { intros Hin. destruct (Hsub sid cid Hin) as (md & E & _). congruence. }
  rewrite manager_disconnect_run. unfold result_of, world_of at 1. cbn [fst snd self].
  split; [reflexivity|]. rewrite manager_connect_run.
  destruct (accept_ok net ws); unfold world_of; cbn [snd self].
  - fold (manager_registered now ws cid sid uid (self w)).
    rewrite manager_send_run. cbn [self wire].
    assert (Ews : Manager.active_connections (manager_registered now ws cid sid uid (self w))
                    !! cid = Some ws) by apply lookup_insert_eq.
    rewrite Ews. destruct (send_ok net ws _); cbn [snd self].
    + apply manager_unregistered_registered; assumption.
    + rewrite manager_unregistered_twice.
      apply manager_unregistered_registered; assumption.
  - apply manager_unregistered_unknown; assumption.
Qed.

Lemma manager_connect_then_disconnect_witness :
  self (world_of (Manager.disconnect "c2"
         (world_of (Manager.connect Example.mute 5 2%nat "c2" "S1" None
                      Example.one_socket))))
  = self Example.one_socket.
Proof.
  exact (proj2 (manager_connect_then_disconnect_restores Example.mute 5 2%nat "c2" "S1"
                  None Example.one_socket
                  (Manager.reach_connect _ Example.up 0 1%nat "c1" "S1" None
                     Manager.reach_init eq_refl eq_refl eq_refl)
                  eq_refl eq_refl)).
Defined.

(** ** The manager: inbound frames *)

Lemma manager_handle_message_run net now cid msg w :
  Manager.handle_message net now cid msg w
  = match msg with
    | Manager.invalid_json => (Returns tt, w)
    | Manager.typed ty =>
        if bool_decide (ty = Some "heartbeat") then
          Manager.send_personal_message net cid Manager.heartbeat_ack
            (World (Manager.set_connection_metadata (alter (Manager.touch now) cid)
                      (self w)) (wire w))
        else if bool_decide (ty = Some "ping") then
          Manager.send_personal_message net cid Manager.pong w
        else (Returns tt, w)
    end.
Proof.
  unfold Manager.handle_message, try_except. destruct msg as [|ty]; [reflexivity|].
  repeat case_bool_decide.
  - unfold bind, update. cbn [fst snd]. rewrite manager_send_run. cbn [self wire].
    destruct (Manager.active_connections _ !! cid) as [ws|]; [|reflexivity].
    destruct (send_ok net ws _); reflexivity.
  - rewrite manager_send_run.
    destruct (Manager.active_connections _ !! cid) as [ws|]; [|reflexivity].
    destruct (send_ok net ws _); reflexivity.
  - reflexivity.
Qed.

(** X18: Of the frames a client can send only a [heartbeat] counts as a
    sign of life. A [ping] is answered with a [pong] and leaves
    [last_heartbeat] as it was, so that the next round of the heartbeat
    loop that finds the last heartbeat more than 60 seconds old
    disconnects the connection although it has just pinged. A
    [heartbeat] is answered with a [heartbeat_ack] and sets
    [last_heartbeat] to the clock, so that a round within 60 seconds of it
    goes on to the next. A connection whose socket refuses the answer,
    [heartbeat_ack] or [pong], is disconnected on the spot. *)
Theorem manager_heartbeat_counts_and_ping_does_not net net' now late cid w ws md :
  Manager.active_connections (self w) !! cid = Some ws ->
  Manager.connection_metadata (self w) !! cid = Some md ->
  let ping := Manager.handle_message net now cid (Manager.typed (Some "ping")) w in
  let beat := Manager.handle_message net now cid (Manager.typed (Some "heartbeat")) w in
  result_of ping = Returns tt
  /\ wire (world_of ping)
     = (wire w ++ [io_send_text ws Manager.pong (send_ok net ws Manager.pong)])%list
  /\ (send_ok net ws Manager.pong = true -> self (world_of ping) = self w)
  /\ (seconds Manager.heartbeat_timeout < late - Manager.last_heartbeat md ->
      Manager.active_connections
        (self (world_of (Manager.heartbeat_round net' late cid (world_of ping)))) !! cid
      = None)
  /\ result_of beat = Returns tt
  /\ wire (world_of beat)
     = (wire w ++ [io_send_text ws Manager.heartbeat_ack
                     (send_ok net ws Manager.heartbeat_ack)])%list
  /\ (send_ok net ws Manager.heartbeat_ack = true ->
      Manager.connection_metadata (self (world_of beat)) !! cid
      = Some (Manager.touch now md)
      /\ Manager.active_connections (self (world_of beat)) !! cid = Some ws
      /\ (late - now <= seconds Manager.heartbeat_timeout ->
          result_of (Manager.heartbeat_round net' late cid (world_of beat))
          = Returns Manager.round_next))
  /\ (send_ok net ws Manager.heartbeat_ack = false ->
      Manager.active_connections (self (world_of beat)) !! cid = None)
  /\ (send_ok net ws Manager.pong = false ->
      self (world_of ping) = Manager.unregistered cid (self w)
      /\ Manager.active_connections (self (world_of ping)) !! cid = None).
Proof.
  intros Ews Emd. cbn zeta. rewrite !manager_handle_message_run.
  rewrite (bool_decide_eq_false_2 (Some "ping" = Some "heartbeat")) by discriminate.
  rewrite (bool_decide_eq_true_2 (Some "ping" = Some "ping")) by reflexivity.
  rewrite (bool_decide_eq_true_2 (Some "heartbeat" = Some "heartbeat")) by reflexivity.
  rewrite !manager_send_run. cbn [self wire Manager.active_connections
    Manager.set_connection_metadata]. rewrite Ews.
  split; [destruct (send_ok net ws Manager.pong); reflexivity|].
  split; [destruct (send_ok net ws Manager.pong); reflexivity|].
  split; [intros ->; reflexivity|].
  split.
  { intros Hlate. destruct (send_ok net ws Manager.pong); unfold world_of; cbn [snd].
    - rewrite (manager_heartbeat_round_run net' late cid (World (self w) _) md Emd).
      rewrite (proj2 (elapsed_more_than_spec late _ _) Hlate).
      simpl. apply lookup_delete_eq.
    - unfold Manager.heartbeat_round, bind, get_self. cbn [fst snd self].
      cbn [Manager.unregistered Manager.connection_metadata].
      rewrite lookup_delete_eq. simpl. apply lookup_delete_eq. }
  split; [destruct (send_ok net ws Manager.heartbeat_ack); reflexivity|].
  split; [destruct (send_ok net ws Manager.heartbeat_ack); reflexivity|].
  split.
  { intros ->. unfold world_of, result_of. cbn [snd self Manager.connection_metadata
      Manager.active_connections Manager.set_connection_metadata].
    rewrite lookup_alter_eq, Emd. split; [reflexivity|]. split; [exact Ews|].
    intros Hnear.
    rewrite (manager_heartbeat_round_run net' late cid (World _ _) (Manager.touch now md)).
    - destruct (elapsed_more_than late _ _) eqn:Hel; [|reflexivity].
      apply elapsed_more_than_spec in Hel. simpl in Hel. lia.
    - simpl. rewrite lookup_alter_eq, Emd. reflexivity. }
  split; [intros ->; unfold world_of; simpl; apply lookup_delete_eq|].
  intros ->. unfold world_of. cbn [snd self]. split; [reflexivity|].
  simpl. apply lookup_delete_eq.
Qed.

Lemma manager_heartbeat_counts_witness :
  let ping := Manager.handle_message Example.up (seconds 50) "c1"
                (Manager.typed (Some "ping")) Example.one_socket in
  let beat := Manager.handle_message Example.up (seconds 50) "c1"
                (Manager.typed (Some "heartbeat")) Example.one_socket in
  Manager.active_connections
    (self (world_of (Manager.heartbeat_round Example.up (seconds 61) "c1"
                       (world_of ping)))) !! "c1" = None
  /\ result_of (Manager.heartbeat_round Example.up (seconds 61) "c1" (world_of beat))
     = Returns Manager.round_next.
Proof.
  pose proof (manager_heartbeat_counts_and_ping_does_not Example.up Example.up
                (seconds 50) (seconds 61) "c1" Example.one_socket 1%nat
                {| Manager.session_id := "S1"; Manager.user_id := None;
                   Manager.connected_at := 0; Manager.last_heartbeat := 0 |}
                eq_refl eq_refl) as H.
  cbn zeta in H. destruct H as (_ & _ & _ & H4 & _ & _ & H7 & _).
  split.
  - apply H4. vm_compute. reflexivity.
  - destruct (H7 eq_refl) as (_ & _ & H). apply H. vm_compute. discriminate.
Defined.

Lemma manager_unregistered_other cid m c :
  c <> cid ->
  Manager.active_connections (Manager.unregistered cid m) !! c
  = Manager.active_connections m !! c
  /\ Manager.connection_metadata (Manager.unregistered cid m) !! c
     = Manager.connection_metadata m !! c
  /\ (c ∈ Manager.heartbeat_tasks (Manager.unregistered cid m)
      <-> c ∈ Manager.heartbeat_tasks m)
  /\ (forall s, c ∈ Manager.subscribers s (Manager.unregistered cid m)
                <-> c ∈ Manager.subscribers s m).
Proof.
  intros Hne. unfold Manager.unregistered, Manager.subscribers. simpl.
  rewrite !lookup_delete_ne by congruence.
  split; [reflexivity|]. split; [reflexivity|]. split; [set_solver|].
  intros s. destruct (Manager.connection_metadata m !! cid) as [md|]; [|reflexivity].
  destruct (truthy _); [|reflexivity].
  rewrite index_get_discard. split; [intros [H _]; exact H|].
  intros H. split; [exact H|]. intros [_ ?]. contradiction.
Qed.

(** X19: Handling an inbound frame never raises and concerns the sender
    alone: invalid JSON and a frame of any type but [heartbeat] and [ping]
    change nothing and write nothing; a [heartbeat] or a [ping] writes its
    one answer on the sender's socket if the sender has one; and whatever
    the frame and whatever the socket does, every other connection keeps
    its socket, its metadata, its heartbeat task and its subscriptions. *)
Theorem manager_handle_message_concerns_the_sender_only net now cid msg w :
  let r := Manager.handle_message net now cid msg w in
  result_of r = Returns tt
  /\ wire (world_of r)
     = (wire w ++
        match msg with
        | Manager.invalid_json => []
        | Manager.typed ty =>
            if bool_decide (ty = Some "heartbeat")
            then manager_deliveries net Manager.heartbeat_ack (self w) [cid]
            else if bool_decide (ty = Some "ping")
                 then manager_deliveries net Manager.pong (self w) [cid]
                 else []
        end)%list
  /\ (match msg with
      | Manager.invalid_json => True
      | Manager.typed ty => ty <> Some "heartbeat" /\ ty <> Some "ping"
      end -> r = (Returns tt, w))
  /\ (forall c, c <> cid ->
        Manager.active_connections (self (world_of r)) !! c
        = Manager.active_connections (self w) !! c
        /\ Manager.connection_metadata (self (world_of r)) !! c
           = Manager.connection_metadata (self w) !! c
        /\ (c ∈ Manager.heartbeat_tasks (self (world_of r))
            <-> c ∈ Manager.heartbeat_tasks (self w))
        /\ (forall s, c ∈ Manager.subscribers s (self (world_of r))
                      <-> c ∈ Manager.subscribers s (self w))).
Proof.
  cbn zeta. rewrite manager_handle_message_run.
  assert (Hsame : forall c, c <> cid ->
            Manager.active_connections (self w) !! c
            = Manager.active_connections (self w) !! c
            /\ Manager.connection_metadata (self w) !! c
               = Manager.connection_metadata (self w) !! c
            /\ (c ∈ Manager.heartbeat_tasks (self w) <-> c ∈ Manager.heartbeat_tasks (self w))
            /\ (forall s, c ∈ Manager.subscribers s (self w)
                          <-> c ∈ Manager.subscribers s (self w))) by (intros; tauto).
  destruct msg as [|ty].
  { unfold result_of, world_of. cbn [fst snd]. rewrite app_nil_r. auto. }
  repeat case_bool_decide.
  - rewrite manager_send_run. cbn [self wire Manager.set_connection_metadata
      Manager.active_connections]. unfold manager_deliveries. cbn [flat_map].
    assert (Htouch : forall c, c <> cid ->
              Manager.connection_metadata
                (Manager.set_connection_metadata (alter (Manager.touch now) cid) (self w))
                !! c = Manager.connection_metadata (self w) !! c).
    { intros c Hne. simpl. apply lookup_alter_ne. congruence. }
    destruct (Manager.active_connections (self w) !! cid) as [ws|];
      [destruct (send_ok net ws _)|]; unfold result_of, world_of; cbn [fst snd self wire];
      rewrite ?app_nil_r; (split; [reflexivity|]); (split; [reflexivity|]);
      (split; [intros [? _]; congruence|]); intros c Hne.
    + rewrite Htouch by exact Hne. apply Hsame, Hne.
    + destruct (manager_unregistered_other cid
                  (Manager.set_connection_metadata (alter (Manager.touch now) cid) (self w))
                  c Hne) as (H1 & H2 & H3 & H4).
      rewrite H1, H2, H3, Htouch by exact Hne. split; [reflexivity|].
      split; [reflexivity|]. split; [reflexivity|]. exact H4.
    + rewrite Htouch by exact Hne. apply Hsame, Hne.
  - rewrite manager_send_run. unfold manager_deliveries. cbn [flat_map].
    destruct (Manager.active_connections (self w) !! cid) as [ws|];
      [destruct (send_ok net ws _)|]; unfold result_of, world_of; cbn [fst snd self wire];
      rewrite ?app_nil_r; (split; [reflexivity|]); (split; [reflexivity|]);
      (split; [intros [_ ?]; congruence|]); intros c Hne.
    + apply Hsame, Hne.
    + apply manager_unregistered_other, Hne.
    + apply Hsame, Hne.
  - unfold result_of, world_of. cbn [fst snd]. rewrite app_nil_r. auto.
Qed.

(** ** The manager: a broadcast *)

Lemma manager_deliveries_frame net msg cid m l :
  cid ∉ l ->
  manager_deliveries net msg (Manager.unregistered cid m) l
  = manager_deliveries net msg m l.
Proof.
  induction l as [|x l IH]; intros Hnot; simpl; [reflexivity|].
  apply not_elem_of_cons in Hnot as [Hne Hnot].
  rewrite lookup_delete_ne by done. rewrite IH by exact Hnot. reflexivity.
Qed.

Lemma manager_for_each_send_run net msg l w :
  NoDup l ->
  exists m',
    for_each l (fun cid => Manager.send_personal_message net cid msg) w
    = (Returns tt, World m' (wire w ++ manager_deliveries net msg (self w) l))
    /\ (forall c,
          Manager.active_connections m' !! c
          = match Manager.active_connections (self w) !! c with
            | Some ws =>
                if bool_decide (c ∈ l) && negb (send_ok net ws msg)
                then None else Some ws
            | None => None
            end).
Proof.
  intros Hnd. revert w. induction Hnd as [|x l Hx Hnd IH]; intros w.
  - exists (self w). simpl. rewrite app_nil_r. split; [destruct w; reflexivity|].
    intros c. destruct (Manager.active_connections (self w) !! c); reflexivity.
  - cbn [for_each]. unfold bind. rewrite manager_send_run.
    assert (Hhead : forall c, c <> x -> bool_decide (c ∈ x :: l) = bool_decide (c ∈ l)).
    { intros c Hne. apply bool_decide_ext. rewrite elem_of_cons. tauto. }
    destruct (Manager.active_connections (self w) !! x) as [ws|] eqn:Ex.
    + destruct (send_ok net ws msg) eqn:Hok.
      * destruct (IH (World (self w) (wire w ++ [io_send_text ws msg true])))
          as (m' & Hrun & Hact).
        exists m'. rewrite Hrun. cbn [self wire manager_deliveries flat_map].
        rewrite Ex, Hok, <- app_assoc. split; [reflexivity|].
        intros c. rewrite Hact. cbn [self].
        destruct (decide (c = x)) as [->|Hne].
        -- rewrite Ex, Hok, !andb_false_r. reflexivity.
        -- rewrite Hhead by exact Hne. reflexivity.
      * destruct (IH (World (Manager.unregistered x (self w))
                            (wire w ++ [io_send_text ws msg false])))
          as (m' & Hrun & Hact).
        exists m'. rewrite Hrun. cbn [self wire manager_deliveries flat_map].
        rewrite Ex, Hok, <- app_assoc.
        fold (manager_deliveries net msg (Manager.unregistered x (self w)) l).
        fold (manager_deliveries net msg (self w) l).
        rewrite manager_deliveries_frame by exact Hx. split; [reflexivity|].
        intros c. rewrite Hact. cbn [self].
        destruct (decide (c = x)) as [->|Hne].
        -- cbn [Manager.unregistered Manager.active_connections].
           rewrite lookup_delete_eq, Ex, Hok.
           rewrite bool_decide_eq_true_2 by (apply elem_of_cons; auto). reflexivity.
        -- destruct (manager_unregistered_other x (self w) c Hne) as (-> & _).
           rewrite Hhead by exact Hne. reflexivity.
    + destruct (IH w) as (m' & Hrun & Hact).
      exists m'. rewrite Hrun. cbn [manager_deliveries flat_map]. rewrite Ex.
      split; [reflexivity|]. intros c. rewrite Hact.
      destruct (decide (c = x)) as [->|Hne].
      * rewrite Ex. reflexivity.
      * rewrite Hhead by exact Hne. reflexivity.
Qed.

(** X20: A broadcast of the manager never raises and is not cut short by a
    dead socket: every subscriber of the session that has a socket, the
    excluded one apart, is written to once, in the order of the loop, and
    those after a failed write are still served. A subscriber whose
    socket refused the write is disconnected; every other connection
    keeps its socket. *)
Theorem manager_broadcast_outlives_dead_sockets net sid msg ex w :
  let r := Manager.broadcast_to_session net sid msg ex w in
  result_of r = Returns tt
  /\ wire (world_of r)
     = (wire w ++ manager_deliveries net msg (self w)
                    (manager_audience sid ex (self w)))%list
  /\ (forall c,
        c ∈ manager_audience sid ex (self w)
        <-> c ∈ Manager.subscribers sid (self w) /\ Manager.excluded ex c = false)
  /\ (forall c ws,
        Manager.active_connections (self w) !! c = Some ws ->
        Manager.active_connections (self (world_of r)) !! c
        = if bool_decide (c ∈ manager_audience sid ex (self w))
             && negb (send_ok net ws msg)
          then None else Some ws).
Proof.
  cbn zeta.
  assert (Hnd : NoDup (manager_audience sid ex (self w))).
  { unfold manager_audience. apply NoDup_ListNoDup, List.NoDup_filter, NoDup_ListNoDup.
    apply NoDup_elements. }
  destruct (manager_for_each_send_run net msg _ w Hnd) as (m' & Hrun & Hact).
  assert (Hbr : Manager.broadcast_to_session net sid msg ex w
                = (Returns tt,
                   World m' (wire w ++ manager_deliveries net msg (self w)
                                         (manager_audience sid ex (self w))))).
  { rewrite <- Hrun. unfold Manager.broadcast_to_session, bind at 1, get_self.
    cbn [fst snd]. unfold manager_audience, Manager.subscribers, index_get.
    destruct (Manager.session_subscriptions (self w) !! sid) as [ids|]; cbn [default].
    - apply (for_each_skipping (Manager.excluded ex)
               (fun cid => Manager.send_personal_message net cid msg)).
    - rewrite elements_empty. reflexivity. }
  rewrite Hbr. unfold result_of, world_of. cbn [fst snd self wire].
  split; [reflexivity|]. split; [reflexivity|]. split.
  - intros c. unfold manager_audience.
    rewrite list_elem_of_In, List.filter_In, <- list_elem_of_In.
    rewrite elem_of_elements, negb_true_iff. reflexivity.
  - intros c ws E. rewrite Hact, E. reflexivity.
Qed.

(** ** The manager: the heartbeat loop of a connection *)

Lemma manager_heartbeat_rounds_quiet net cid ws md quiet later m t :
  Manager.active_connections m !! cid = Some ws ->
  Manager.connection_metadata m !! cid = Some md ->
  send_ok net ws Manager.heartbeat_request = true ->
  Forall (fun now => now - Manager.last_heartbeat md
                     <= seconds Manager.heartbeat_timeout) quiet ->
  Manager.heartbeat_rounds net (quiet ++ later) cid (World m t)
  = Manager.heartbeat_rounds net later cid
      (World m (t ++ replicate (length quiet)
                       (io_send_text ws Manager.heartbeat_request true))).
Proof.
  intros Ews Emd Hok Hq. revert t.
  induction Hq as [|now quiet Hnow Hq IH]; intros t.
  - simpl. rewrite app_nil_r. reflexivity.
  - cbn [app Manager.heartbeat_rounds length replicate].
    unfold bind at 1, get_self. cbn [fst snd self].
    rewrite decide_True by (apply elem_of_dom; eauto).
    unfold bind at 1.
    rewrite (manager_heartbeat_round_run net now cid (World m t) md Emd).
    destruct (elapsed_more_than now _ _) eqn:Hel.
    { apply elapsed_more_than_spec in Hel. lia. }
    unfold world_of. rewrite manager_send_run. cbn [self wire].
    rewrite Ews, Hok. cbn [fst snd]. rewrite IH, <- app_assoc. reflexivity.
Qed.

(** X21: The heartbeat loop of a connection whose socket works and whose
    [last_heartbeat] is no longer refreshed sends one heartbeat request at
    each wake-up up to 60 seconds after the last heartbeat, disconnects the
    connection at the first wake-up later than that, and ends there: it
    does not raise, and it writes and changes nothing at the wake-ups that
    would follow. *)
Theorem manager_heartbeat_loop_requests_then_evicts net cid w ws md quiet late rest :
  Manager.active_connections (self w) !! cid = Some ws ->
  Manager.connection_metadata (self w) !! cid = Some md ->
  send_ok net ws Manager.heartbeat_request = true ->
  Forall (fun now => now - Manager.last_heartbeat md
                     <= seconds Manager.heartbeat_timeout) quiet ->
  seconds Manager.heartbeat_timeout < late - Manager.last_heartbeat md ->
  let r := Manager._heartbeat_loop net (quiet ++ late :: rest) cid w in
  result_of r = Returns tt
  /\ wire (world_of r)
     = (wire w ++ replicate (length quiet)
                    (io_send_text ws Manager.heartbeat_request true))%list
  /\ self (world_of r) = Manager.unregistered cid (self w)
  /\ Manager.active_connections (self (world_of r)) !! cid = None.
Proof.
  intros Ews Emd Hok Hq Hlate. cbn zeta.
  assert (Hrun : Manager._heartbeat_loop net (quiet ++ late :: rest) cid w
                 = (Returns tt,
                    World (Manager.unregistered cid (self w))
                          (wire w ++ replicate (length quiet)
                                       (io_send_text ws Manager.heartbeat_request true)))).
  { unfold Manager._heartbeat_loop, try_except. destruct w as [m t]. cbn [self wire] in *.
    rewrite (manager_heartbeat_rounds_quiet net cid ws md quiet (late :: rest) m t
               Ews Emd Hok Hq).
    cbn [Manager.heartbeat_rounds]. unfold bind at 1, get_self. cbn [fst snd self].
    rewrite decide_True by (apply elem_of_dom; eauto).
    unfold bind at 1.
    rewrite (manager_heartbeat_round_run net late cid (World m _) md Emd).
    rewrite (proj2 (elapsed_more_than_spec late _ _) Hlate). reflexivity. }
  rewrite Hrun. unfold result_of, world_of. cbn [fst snd self wire].
  split; [reflexivity|]. split; [reflexivity|]. split; [reflexivity|].
  simpl. apply lookup_delete_eq.
Qed.

Lemma manager_heartbeat_loop_witness :
  written_to 1%nat
    (wire (world_of (Manager._heartbeat_loop Example.up
                       ([seconds 30; seconds 60] ++ seconds 90 :: [seconds 120]) "c1"
                       Example.one_socket)))
  = (written_to 1%nat (wire Example.one_socket)
     ++ [Manager.heartbeat_request; Manager.heartbeat_request])%list.
Proof.
  destruct (manager_heartbeat_loop_requests_then_evicts Example.up "c1" Example.one_socket
              1%nat
              {| Manager.session_id := "S1"; Manager.user_id := None;
                 Manager.connected_at := 0; Manager.last_heartbeat := 0 |}
              [seconds 30; seconds 60] (seconds 90) [seconds 120])
    as (_ & H & _).
  - reflexivity.
  - reflexivity.
  - reflexivity.
  - repeat constructor; vm_compute; discriminate.
  - vm_compute. reflexivity.
  - rewrite H, written_to_app. reflexivity.
Defined.

(** * Properties of the validators of the request models *)

Lemma lstrip_split v :
  exists pre, v = (pre ++ ChatModels.lstrip v)%list
              /\ Forall (fun c => ChatModels.isspace c = true) pre.
Proof.
  induction v as [|c v (pre & Hv & Hpre)]; [exists []; split; [reflexivity|constructor]|].
  simpl. destruct (ChatModels.isspace c) eqn:Hc.
  - exists (c :: pre). split; [simpl; congruence | constructor; assumption].
  - exists []. split; [reflexivity | constructor].
Qed.

Lemma lstrip_head v c :
  head (ChatModels.lstrip v) = Some c -> ChatModels.isspace c = false.
Proof.
  induction v as [|x v IH]; simpl; [discriminate|].
  destruct (ChatModels.isspace x) eqn:Hx; [exact IH|].
  simpl. intros [= <-]. exact Hx.
Qed.

Lemma lstrip_nil v :
  ChatModels.lstrip v = [] <-> Forall (fun c => ChatModels.isspace c = true) v.
Proof.
  induction v as [|x v IH]; simpl; [split; [constructor | reflexivity]|].
  destruct (ChatModels.isspace x) eqn:Hx.
  - rewrite IH. split; [intros H; constructor; assumption|].
    intros H. apply Forall_cons in H as [_ H]. exact H.
  - split; [discriminate|]. intros H. apply Forall_cons in H as [H _]. congruence.
Qed.

Lemma lstrip_fixed v c :
  head v = Some c -> ChatModels.isspace c = false -> ChatModels.lstrip v = v.
Proof. destruct v as [|x v]; simpl; [discriminate|]. intros [= ->] ->. reflexivity. Qed.

Lemma lstrip_keeps_last v c :
  ChatModels.isspace c = false ->
  exists l, ChatModels.lstrip (v ++ [c])%list = (l ++ [c])%list.
Proof.
  intros Hc. induction v as [|x v (l & Hl)]; simpl.
  - rewrite Hc. exists []. reflexivity.
  - destruct (ChatModels.isspace x); [exists l; exact Hl|].
    exists (x :: v). reflexivity.
Qed.

Lemma rstrip_split v :
  exists post, v = (ChatModels.rstrip v ++ post)%list
               /\ Forall (fun c => ChatModels.isspace c = true) post.
Proof.
  unfold ChatModels.rstrip. destruct (lstrip_split (reverse v)) as (pre & Hv & Hpre).
  exists (reverse pre). split; [|apply Forall_reverse, Hpre].
  rewrite <- reverse_app, <- Hv, reverse_involutive. reflexivity.
Qed.

Lemma rstrip_last v c :
  last (ChatModels.rstrip v) = Some c -> ChatModels.isspace c = false.
Proof. unfold ChatModels.rstrip. rewrite last_reverse. apply lstrip_head. Qed.

Lemma rstrip_head v c :
  head v = Some c -> ChatModels.isspace c = false ->
  head (ChatModels.rstrip v) = Some c.
Proof.
  destruct v as [|x v]; simpl; [discriminate|]. intros [= ->] Hc.
  unfold ChatModels.rstrip. rewrite reverse_cons.
  destruct (lstrip_keeps_last (reverse v) c Hc) as (l & ->).
  rewrite reverse_app. reflexivity.
Qed.

Lemma rstrip_fixed v c :
  last v = Some c -> ChatModels.isspace c = false -> ChatModels.rstrip v = v.
Proof.
  intros Hl Hc. unfold ChatModels.rstrip.
  rewrite (lstrip_fixed (reverse v) c); [apply reverse_involutive | | exact Hc].
  rewrite head_reverse. exact Hl.
Qed.

(** What [strip] returns: nothing, for a string of white space only, or
    the string without the white space at its two ends. *)
Lemma strip_cases v :
  (ChatModels.strip v = [] /\ Forall (fun c => ChatModels.isspace c = true) v)
  \/ ((exists first final,
         head (ChatModels.strip v) = Some first
         /\ last (ChatModels.strip v) = Some final
         /\ ChatModels.isspace first = false /\ ChatModels.isspace final = false)
      /\ (exists pre post,
            v = (pre ++ ChatModels.strip v ++ post)%list
            /\ Forall (fun c => ChatModels.isspace c = true) pre
            /\ Forall (fun c => ChatModels.isspace c = true) post)
      /\ ChatModels.strip (ChatModels.strip v) = ChatModels.strip v).
Proof.
  destruct (lstrip_split v) as (pre & Hv & Hpre).
  destruct (ChatModels.lstrip v) as [|a t] eqn:El.
  - left. unfold ChatModels.strip. rewrite El. split; [reflexivity|].
    apply lstrip_nil, El.
  - right.
    assert (Ha : ChatModels.isspace a = false).
    { apply (lstrip_head v). rewrite El. reflexivity. }
    set (m := ChatModels.strip v).
    assert (Hhead : head m = Some a).
    { unfold m, ChatModels.strip. rewrite El. apply rstrip_head; [reflexivity | exact Ha]. }
    destruct (last m) as [z|] eqn:Ez.
    2:{ apply last_None in Ez. rewrite Ez in Hhead. discriminate. }
    assert (Hz : ChatModels.isspace z = false).
    { apply (rstrip_last (ChatModels.lstrip v)). exact Ez. }
    split; [exists a, z; auto|]. split.
    + destruct (rstrip_split (ChatModels.lstrip v)) as (post & Hpost & Hsp).
      exists pre, post. split; [|split; assumption].
      rewrite Hv at 1. f_equal. rewrite <- El. exact Hpost.
    + unfold ChatModels.strip at 1. rewrite (lstrip_fixed m a Hhead Ha).
      apply (rstrip_fixed m z Ez Hz).
Qed.

(** X22: [validate_message] either raises its [ValueError], exactly when the
    message is empty or consists of white space only, or returns the
    message without the white space around it: what it returns is not
    empty, neither starts nor ends with white space, differs from the
    input only by white space removed at the two ends, and is returned
    unchanged when validated again. *)
Theorem validate_message_returns_the_stripped_message v :
  match ChatModels.validate_message v with
  | Returns m =>
      (exists first final,
         head m = Some first /\ last m = Some final
         /\ ChatModels.isspace first = false /\ ChatModels.isspace final = false)
      /\ (exists pre post,
            v = (pre ++ m ++ post)%list
            /\ Forall (fun c => ChatModels.isspace c = true) pre
            /\ Forall (fun c => ChatModels.isspace c = true) post)
      /\ ChatModels.validate_message m = Returns m
  | Raises e =>
      e = Exception "消息内容不能为空"
      /\ Forall (fun c => ChatModels.isspace c = true) v
  end.
Proof.
  unfold ChatModels.validate_message at 1.
  destruct (strip_cases v) as [[-> Hall]|(Hends & Hsplit & Hfix)].
  - cbn. auto.
  - destruct Hends as (a & z & Hh & Hl & Ha & Hz).
    destruct (ChatModels.strip v) as [|a' m'] eqn:Em; [discriminate|].
    cbn [ChatModels.nonempty negb].
    split; [exists a, z; auto|]. split; [exact Hsplit|].
    unfold ChatModels.validate_message. rewrite Hfix. reflexivity.
Qed.

(** X23: [validate_title] turns a missing title and a title of white space
    only into [None]; any other title it returns without the white space
    around it, provided what is left has at most 200 characters, and
    raises its [ValueError] otherwise. A title it returns is not empty,
    neither starts nor ends with white space, has at most 200 characters
    and is returned unchanged when validated again. *)
Theorem validate_title_returns_a_trimmed_title_or_none v :
  match ChatModels.validate_title v with
  | Returns (Some t) =>
      (exists raw, v = Some raw /\ t = ChatModels.strip raw)
      /\ (exists first final,
            head t = Some first /\ last t = Some final
            /\ ChatModels.isspace first = false /\ ChatModels.isspace final = false)
      /\ (length t <= 200)%nat
      /\ ChatModels.validate_title (Some t) = Returns (Some t)
  | Returns None =>
      v = None
      \/ exists raw, v = Some raw /\ Forall (fun c => ChatModels.isspace c = true) raw
  | Raises e =>
      e = Exception "会话标题长度不能超过200字符"
      /\ exists raw, v = Some raw /\ (200 < length (ChatModels.strip raw))%nat
  end.
Proof.
  destruct v as [raw|]; [|left; reflexivity]. unfold ChatModels.validate_title at 1.
  destruct (strip_cases raw) as [[-> Hall]|(Hends & Hsplit & Hfix)].
  - cbn. right. eauto.
  - destruct Hends as (a & z & Hh & Hl & Ha & Hz).
    destruct (ChatModels.strip raw) as [|a' m'] eqn:Em; [discriminate|].
    cbn [ChatModels.nonempty negb].
    destruct (200 <? length (a' :: m'))%nat eqn:Hlen.
    + apply Nat.ltb_lt in Hlen. split; [reflexivity|]. exists raw. rewrite Em. auto.
    + split; [exists raw; rewrite Em; auto|]. split; [exists a, z; auto|].
      split; [apply Nat.ltb_ge in Hlen; exact Hlen|].
      unfold ChatModels.validate_title. rewrite Hfix. cbn [ChatModels.nonempty negb].
      rewrite Hlen. reflexivity.
Qed.

Lemma check_messages_returns l :
  ChatModels.check_messages l = Returns tt <-> Forall ChatModels.well_formed l.
Proof.
  induction l as [|msg l IH]; simpl; [split; [constructor | reflexivity]|].
  rewrite Forall_cons, <- IH. clear IH.
  unfold ChatModels.check_message, ChatModels.well_formed.
  destruct msg as [d|].
  - destruct (d !! "role") as [role|] eqn:Er.
    + destruct (d !! "content") as [content|] eqn:Ec.
      * destruct role as [s|]; simpl.
        -- repeat case_bool_decide; simpl.
           all: try (split; [intros Hl; split; [|exact Hl]; exists d, s, content;
                               split; [reflexivity|]; split; [exact Er|];
                               split; [exact Ec|]; tauto
                            | intros [_ Hl]; exact Hl]).
           split; [discriminate|]. intros [(d' & r & c & [= <-] & Hr & _ & Hor) _].
           rewrite Er in Hr. injection Hr as <-. tauto.
        -- split; [discriminate|].
           intros [(d' & r & c & [= <-] & Hr & _) _]. congruence.
      * split; [discriminate|]. intros [(d' & r & c & [= <-] & _ & Hc & _) _]. congruence.
    + split; [discriminate|]. intros [(d' & r & c & [= <-] & Hr & _) _]. congruence.
  - split; [discriminate|]. intros [(d' & r & c & Hd & _) _]. discriminate.
Qed.

Lemma check_messages_raises l e :
  ChatModels.check_messages l = Raises e ->
  e ∈ [Exception "上下文消息必须是字典格式";
       Exception "上下文消息必须包含role和content字段";
       Exception "上下文消息role必须是user、assistant或system"].
Proof.
  induction l as [|msg l IH]; simpl; [discriminate|].
  destruct (ChatModels.check_message msg) as [[]|e'] eqn:Em; [exact IH|].
  intros [= <-]. unfold ChatModels.check_message in Em.
  destruct msg as [d|]; [|injection Em as <-; set_solver].
  destruct (d !! "role") as [role|]; [|injection Em as <-; set_solver].
  destruct (d !! "content"); [|injection Em as <-; set_solver].
  destruct (negb _); [injection Em as <-; set_solver | discriminate].
Qed.

(** X24: [validate_context_messages] returns its argument, unchanged, when
    there are no context messages or when there are at most 20 and each is
    a dict with a [content] and with a [role] among [user], [assistant]
    and [system]; in every other case it raises one of its four
    [ValueError]s, that of the length check when there are more than 20
    messages whatever they are. *)
Theorem validate_context_messages_accepts_well_formed_lists v :
  let accepted :=
    match v with
    | Some l => (length l <= 20)%nat /\ Forall ChatModels.well_formed l
    | None => True
    end in
  (accepted -> ChatModels.validate_context_messages v = Returns v)
  /\ (~ accepted ->
      exists e, ChatModels.validate_context_messages v = Raises e
                /\ e ∈ [Exception "上下文消息数量不能超过20条";
                        Exception "上下文消息必须是字典格式";
                        Exception "上下文消息必须包含role和content字段";
                        Exception "上下文消息role必须是user、assistant或system"])
  /\ (forall l, v = Some l -> (20 < length l)%nat ->
        ChatModels.validate_context_messages v
        = Raises (Exception "上下文消息数量不能超过20条")).
Proof.
  cbn zeta. destruct v as [l|]; simpl.
  2:{ split; [reflexivity|]. split; [tauto | discriminate]. }
  destruct (20 <? length l)%nat eqn:Hlen.
  - apply Nat.ltb_lt in Hlen. split; [intros [H _]; lia|]. split.
    + intros _. eexists. split; [reflexivity | set_solver].
    + reflexivity.
  - apply Nat.ltb_ge in Hlen. split; [|split].
    + intros [_ H]. apply check_messages_returns in H. rewrite H. reflexivity.
    + intros Hnot. destruct (ChatModels.check_messages l) as [[]|e] eqn:Ec.
      * exfalso. apply Hnot. split; [exact Hlen|]. apply check_messages_returns, Ec.
      * exists e. split; [reflexivity|].
        apply check_messages_raises in Ec. set_solver.
    + intros l' [= <-] H. lia.
Qed.
